(** * A shallow embedding of the pub/sub dispatcher and the gateway entry point

    The first part embeds the Python sources, one module per file:

    - [Types]           : discord/types.py ([Color])
    - [Py]              : exceptions and mutable state, as the code uses them
    - [Pubsub]          : discord/pubsub/dispatcher.py ([Dispatcher],
                          [DispatcherWithState])
    - [Gateway]         : discord/gateway/gateway.py ([websocket_handler])
    - [EventDispatcher] : the facade behind [app.dispatcher], whose module is
                          not among the sources and is modelled from its
                          description
    - [Blueprints]      : discord/blueprints/guild/mod.py ([remove_member])
                          and discord/blueprints/users.py ([mass_user_update])
    - [GatewayProtocol] : the handling of an identify frame, modelled from
                          its description and from tests/test_websocket.py
    - [Demo]            : a small running server
    - [Errors]          : discord/errors.py, and what a request handler
                          raises
    - [Messages]        : discord/blueprints/channel/messages.py
                          ([extract_limit], [query_tuple_from_args])
    - [Members]         : discord/blueprints/guild/members.py
                          ([_update_member_roles])
    - [Overwrites]      : [_process_overwrites] of
                          discord/blueprints/channels.py and
                          [chan_overwrites] of discord/storage.py
    - [Users]           : [rand_hex] and [_try_reroll] of
                          discord/blueprints/users.py
    - [Storage]         : [get_reactions] of discord/storage.py
    - [Sanitizer]       : discord/embed/sanitizer.py ([sanitize_embed],
                          [path_exists])
    - [Samples]         : sample collaborators

    The second part states and proves the properties.

    Python integers are unbounded and are embedded as [Z], strings as
    [string], a [dict] as a [gmap] and a [set] as a [gset]. *)

From Stdlib Require Import ZArith String Ascii List Lia.
From stdpp Require Import gmap strings list fin_maps.

Local Open Scope Z_scope.

(* ===================================================================== *)
(** * discord/types.py *)
(* ===================================================================== *)

Module Types.

(** [class Color]: the three attributes set by [__init__]. *)
Record Color : Type := mkColor { red : Z; green : Z; blue : Z }.

(** [Color.__init__(self, val)] *)
Definition Color_init (val : Z) : Color :=
  {| blue  := Z.land val 255;
     green := Z.land (Z.shiftr val 8) 255;
     red   := Z.land (Z.shiftr val 16) 255 |}.

(** ** The two Python builtins used by [Color.value] *)

(** One lower-case hexadecimal digit, as printed by the [x] conversion. *)
Definition hex_digit (d : Z) : ascii :=
  match d with
  | 0 => "0" | 1 => "1" | 2 => "2" | 3 => "3"
  | 4 => "4" | 5 => "5" | 6 => "6" | 7 => "7"
  | 8 => "8" | 9 => "9" | 10 => "a" | 11 => "b"
  | 12 => "c" | 13 => "d" | 14 => "e" | _ => "f"
  end%char.

(** Digits of a non-negative [n], most significant first, pushed in front
    of [acc].  [fuel] bounds the number of digits. *)
Fixpoint hex_digits (fuel : nat) (n : Z) (acc : string) : string :=
  match fuel with
  | O => acc
  | S fuel' =>
      let acc' := String (hex_digit (n mod 16)) acc in
      if n / 16 =? 0 then acc' else hex_digits fuel' (n / 16) acc'
  end.

(** [hex(n)] without prefix for [n >= 0]; a number below [16^k] has at most
    [k] digits and [n < 16^(log2 n + 1)]. *)
Definition to_hex (n : Z) : string :=
  hex_digits (S (Z.to_nat (Z.log2 n))) n "".

(** Left padding with ['0'] up to [width] characters. *)
Fixpoint zero_pad (k : nat) (s : string) : string :=
  match k with
  | O => s
  | S k' => String "0"%char (zero_pad k' s)
  end.

(** ['%02x' % n]: the sign (if any) comes first, then zeros up to a total
    width of two, then the digits. *)
Definition format_02x (n : Z) : string :=
  if n <? 0 then
    let ds := to_hex (- n) in
    String "-"%char (zero_pad (1 - String.length ds) ds)
  else
    let ds := to_hex n in
    zero_pad (2 - String.length ds) ds.

(** Value of a hexadecimal digit character, either case. *)
Definition hex_value (c : ascii) : option Z :=
  let n := Z.of_N (N_of_ascii c) in
  if (48 <=? n) && (n <=? 57) then Some (n - 48)
  else if (97 <=? n) && (n <=? 102) then Some (n - 87)
  else if (65 <=? n) && (n <=? 70) then Some (n - 55)
  else None.

(** Accumulating reader of the digits of [int(s, 16)]. *)
Fixpoint int16_digits (s : string) (acc : Z) : option Z :=
  match s with
  | EmptyString => Some acc
  | String c s' =>
      match hex_value c with
      | Some d => int16_digits s' (acc * 16 + d)
      | None => None
      end
  end.

(** [int(s, 16)] on the strings [value] can build: an optional sign and at
    least one digit.  [None] stands for [ValueError]. *)
Definition int16 (s : string) : option Z :=
  match s with
  | EmptyString => None
  | String "-"%char EmptyString => None
  | String "-"%char s' => option_map Z.opp (int16_digits s' 0)
  | _ => int16_digits s 0
  end.

(** [Color.value]:
    [int('%02x%02x%02x' % (self.red, self.green, self.blue), 16)] *)
Definition value (c : Color) : option Z :=
  int16 (format_02x (red c) ++ format_02x (green c) ++ format_02x (blue c))%string.

(** [Color.__int__] *)
Definition Color_int (c : Color) : option Z := value c.

(** ** Vocabulary of the statements *)

(** A byte prints as exactly two digits. *)
Definition two_digits (x : Z) : string :=
  String (hex_digit (x / 16)) (String (hex_digit (x mod 16)) EmptyString).

(** The integers that fit a byte. *)
Definition byte_range : list Z := map Z.of_nat (seq 0 256).

End Types.

(* ===================================================================== *)
(** * Python control flow: exceptions and mutable state *)
(* ===================================================================== *)

Module Py.

(** The exception classes that occur in the embedded code. *)
Inductive exn : Type :=
| KeyError
| IndexError
| ValueError
| NotImplementedError
| OtherError (what : string).

(** A call either returns a value or raises. *)
Inductive result (A : Type) : Type :=
| Ok (a : A)
| Raise (e : exn).
Arguments Ok {A} a.
Arguments Raise {A} e.

(** A computation over a mutable store [St] that may raise.  The store
    is returned in both cases: effects performed before an exception
    stay performed. *)
Definition M (St A : Type) : Type := St -> result A * St.

Section Monad.
Context {St : Type}.

Definition ret {A} (a : A) : M St A := fun s => (Ok a, s).

Definition bind {A B} (m : M St A) (k : A -> M St B) : M St B :=
  fun s =>
    match m s with
    | (Ok a, s') => k a s'
    | (Raise e, s') => (Raise e, s')
    end.

Definition raise {A} (e : exn) : M St A := fun s => (Raise e, s).

(** [try: body except <classes>: handler]; [catches e] tells whether
    the except clause matches [e]. *)
Definition try_except {A} (body : M St A) (catches : exn -> bool)
           (handler : M St A) : M St A :=
  fun s =>
    match body s with
    | (Ok a, s') => (Ok a, s')
    | (Raise e, s') => if catches e then handler s' else (Raise e, s')
    end.

Definition get : M St St := fun s => (Ok s, s).
Definition put (s : St) : M St unit := fun _ => (Ok tt, s).
End Monad.

(** A bare [except:] clause. *)
Definition any_exception (_ : exn) : bool := true.

Definition is_KeyError (e : exn) : bool :=
  match e with KeyError => true | _ => false end.

(** [except (KeyError, IndexError):] *)
Definition is_KeyError_or_IndexError (e : exn) : bool :=
  match e with KeyError | IndexError => true | _ => false end.

(** [x ← m; k] runs [m], binds its value to [x] and continues with [k]. *)
#[global] Instance M_ret {St} : MRet (M St) := fun A a => ret a.
#[global] Instance M_bind {St} : MBind (M St) := fun A B k m => bind m k.

End Py.

(* ===================================================================== *)
(** * discord/pubsub/dispatcher.py *)
(* ===================================================================== *)

Module Pubsub.
Import Py.

(** ** [class Dispatcher] *)

Section Dispatcher.
(** [WS] is the websocket object held by a gateway state, [Data] the
    event payload and [World] whatever the websocket's [dispatch]
    coroutine acts on (sockets, peers). *)
Context {WS Data World : Type}.

(** [state.ws.dispatch(event, data)]: defined in the gateway websocket
    class; it may return or raise, and acts on the world either way. *)
Variable ws_dispatch : WS -> string -> Data -> World -> result unit * World.

(** The attributes of a gateway state object that the dispatcher reads. *)
Record GatewayState : Type := mkState { session_id : string; ws : WS }.

(** What a dispatcher call can touch: the world behind the websockets
    and the records written through [log]. *)
Record Env : Type := mkEnv { transport : World; logbook : list string }.

(** [log.exception(msg)] *)
Definition log_exception (msg : string) : M Env unit :=
  fun env =>
    (Ok tt, {| transport := transport env; logbook := logbook env ++ [msg] |}).

(** [await state.ws.dispatch(event, data)] *)
Definition await_ws_dispatch (state : GatewayState) (event : string)
           (data : Data) : M Env unit :=
  fun env =>
    let (r, w) := ws_dispatch (ws state) event data (transport env) in
    (r, {| transport := w; logbook := logbook env |}).

(** The [for state in states] loop of [_dispatch_states]; [res] is the
    list being appended to. *)
Fixpoint for_states (states : list GatewayState) (event : string)
         (data : Data) (res : list string) : M Env (list string) :=
  match states with
  | [] => ret res
  | state :: rest =>
      res' ← try_except
                (_ ← await_ws_dispatch state event data;
                 ret (res ++ [session_id state]))
                any_exception
                (_ ← log_exception "error while dispatching" ; ret res);
      for_states rest event data res'
  end.

(** [Dispatcher._dispatch_states(self, states, event, data)] *)
Definition _dispatch_states (states : list GatewayState) (event : string)
           (data : Data) : M Env (list string) :=
  for_states states event data [].

(** ** Vocabulary of the statements *)

(** The world once [ws.dispatch] has run for every state of the list, in
    list order, each run starting where the previous one stopped. *)
Fixpoint world_after (states : list GatewayState) (event : string) (data : Data)
         (w : World) : World :=
  match states with
  | [] => w
  | state :: rest =>
      world_after rest event data (ws_dispatch (ws state) event data w).2
  end.

(** The states of the list whose push returned, resp. raised. *)
Fixpoint reached (states : list GatewayState) (event : string) (data : Data)
         (w : World) : list GatewayState :=
  match states with
  | [] => []
  | state :: rest =>
      let r := ws_dispatch (ws state) event data w in
      match r.1 with
      | Ok _ => state :: reached rest event data r.2
      | Raise _ => reached rest event data r.2
      end
  end.

Fixpoint failed (states : list GatewayState) (event : string) (data : Data)
         (w : World) : list GatewayState :=
  match states with
  | [] => []
  | state :: rest =>
      let r := ws_dispatch (ws state) event data w in
      match r.1 with
      | Ok _ => failed rest event data r.2
      | Raise _ => state :: failed rest event data r.2
      end
  end.

(** The methods the base class only declares. *)
Definition Dispatcher_sub {K V St} (_key : K) (_id : V) : M St unit :=
  raise NotImplementedError.
Definition Dispatcher_unsub {K V St} (_key : K) (_id : V) : M St unit :=
  raise NotImplementedError.
Definition Dispatcher_reset {K St} (_key : K) : M St unit :=
  raise NotImplementedError.
Definition Dispatcher_remove {K St} (_key : K) : M St unit :=
  raise NotImplementedError.
End Dispatcher.

Arguments GatewayState : clear implicits.
Arguments Env : clear implicits.

(** ** [class DispatcherWithState] *)

Section DispatcherWithState.
(** Keys and identifiers are hashable Python values. *)
Context {K V : Type} `{Countable K} `{Countable V}.

(** [self.state = defaultdict(set)] *)
Abbreviation Table := (gmap K (gset V)).

(** [self.state[key]] on a [defaultdict(set)]: a missing key is first
    bound to a new empty set. *)
Definition getitem (key : K) : M Table (gset V) :=
  fun state =>
    match state !! key with
    | Some members => (Ok members, state)
    | None => (Ok ∅, <[key := ∅]> state)
    end.

(** [self.state.pop(key)] *)
Definition pop (key : K) : M Table (gset V) :=
  fun state =>
    match state !! key with
    | Some members => (Ok members, delete key state)
    | None => (Raise KeyError, state)
    end.

(** [self.state[key].add(identifier)]: the set stored under [key] is
    updated in place. *)
Definition sub (key : K) (identifier : V) : M Table unit :=
  members ← getitem key;
  state ← get;
  put (<[key := members ∪ {[identifier]}]> state).

(** [self.state[key].discard(identifier)] *)
Definition unsub (key : K) (identifier : V) : M Table unit :=
  members ← getitem key;
  state ← get;
  put (<[key := members ∖ {[identifier]}]> state).

(** [self.state[key] = set()] *)
Definition reset (key : K) : M Table unit :=
  state ← get;
  put (<[key := ∅]> state).

(** [try: self.state.pop(key) except KeyError: pass] *)
Definition remove (key : K) : M Table unit :=
  try_except (_ ← pop key ; ret tt) is_KeyError (ret tt).

(** [dispatch] stays abstract in this class. *)
Definition dispatch {A} (key : K) (args : A) : M Table unit :=
  raise NotImplementedError.

(** The subscribers of [key] held by the table: what [self.state[key]]
    evaluates to, a key that is not bound reading as the empty set. *)
Definition members (state : Table) (key : K) : gset V :=
  default ∅ (state !! key).
End DispatcherWithState.

End Pubsub.

(* ===================================================================== *)
(** * discord/gateway/gateway.py *)
(* ===================================================================== *)

Module Gateway.
Import Py.

(** ** The parts of [urllib.parse] the handler calls *)

(** [s.split(c, 1)]: the text before the first [c] and, when there is a
    [c], the text after it. *)
Fixpoint split_once (c : ascii) (s : string) : string * option string :=
  match s with
  | EmptyString => (EmptyString, None)
  | String a s' =>
      if Ascii.eqb a c then (EmptyString, Some s')
      else let (before, after) := split_once c s' in (String a before, after)
  end.

(** ** A sample of [urlparse(url).query]

    The steps of [urlsplit] that decide the query and whether the call
    raises. *)

Definition is_digit (c : ascii) : bool :=
  let n := Z.of_N (N_of_ascii c) in (48 <=? n) && (n <=? 57).

(** The characters of a scheme: letters, digits, ['+'], ['-'] and ['.']. *)
Definition is_scheme_char (c : ascii) : bool :=
  let n := Z.of_N (N_of_ascii c) in
  ((97 <=? n) && (n <=? 122)) || ((65 <=? n) && (n <=? 90)) || is_digit c
  || (n =? 43) || (n =? 45) || (n =? 46).

Fixpoint forall_chars (p : ascii -> bool) (s : string) : bool :=
  match s with
  | EmptyString => true
  | String a s' => p a && forall_chars p s'
  end.

(** [c in s] for a character *)
Fixpoint has_char (c : ascii) (s : string) : bool :=
  match s with
  | EmptyString => false
  | String a s' => Ascii.eqb a c || has_char c s'
  end.

(** The URL once the scheme is taken off: the text after the first
    [':'] when the text before it is a non-empty run of scheme
    characters and what follows is not a port number; the whole URL
    otherwise. *)
Definition after_scheme (url : string) : string :=
  match split_once ":" url with
  | (before, Some rest) =>
      if negb (String.eqb before EmptyString)
         && forall_chars is_scheme_char before
         && (String.eqb rest EmptyString || negb (forall_chars is_digit rest))
      then rest
      else url
  | (_, None) => url
  end.

(** [_splitnetloc(url, 2)] on what follows ["//"]: the network location
    runs up to the first of ['/'], ['?'] and ['#']. *)
Fixpoint split_netloc (s : string) : string * string :=
  match s with
  | EmptyString => (EmptyString, EmptyString)
  | String a s' =>
      if Ascii.eqb a "/" || Ascii.eqb a "?" || Ascii.eqb a "#" then (EmptyString, s)
      else let (netloc, rest) := split_netloc s' in (String a netloc, rest)
  end.

(** [urlparse(url).query]: the scheme is taken off; a network location
    that holds one of ['['] and [']'] without the other raises
    [ValueError('Invalid IPv6 URL')]; then the fragment is cut at the
    first ['#'] and the query is what follows the first ['?']. *)
Definition query_component (url : string) : result string :=
  let url := after_scheme url in
  let located :=
    match url with
    | String "/" (String "/" rest) =>
        let (netloc, url) := split_netloc rest in
        if xorb (has_char "[" netloc) (has_char "]" netloc) then Raise ValueError
        else Ok url
    | _ => Ok url
    end in
  match located with
  | Ok url => Ok (default EmptyString (split_once "?" (split_once "#" url).1).2)
  | Raise e => Raise e
  end.

(** Splitting at every separator character; like [str.split] the result
    has one more element than there are separators. *)
Fixpoint split_fields (sep : ascii -> bool) (s : string) : list string :=
  match s with
  | EmptyString => [EmptyString]
  | String a s' =>
      if sep a then EmptyString :: split_fields sep s'
      else match split_fields sep s' with
           | field :: fields => String a field :: fields
           | [] => [String a EmptyString]
           end
  end.

Section ParseQs.
(** [urlparse(url).query]: the query component the library finds in the
    URL, or the exception it raises on a URL it does not accept;
    [query_component] is a sample of it. *)
Variable url_query : string -> result string.

(** The pair separators of the query string: ['&'], and in the older
    library versions also [';']. *)
Variable is_separator : ascii -> bool.

(** [unquote(x.replace('+', ' '))]: percent-decoding of a name or a
    value. *)
Variable unquote : string -> string.

(** One [name=value] field of [parse_qsl] with [keep_blank_values] and
    [strict_parsing] left false: fields without ['='] and fields whose
    value is blank are skipped, before any decoding. *)
Definition parse_field (name_value : string) : option (string * string) :=
  match split_once "=" name_value with
  | (name, Some value) =>
      if String.eqb value EmptyString then None
      else Some (unquote name, unquote value)
  | (_, None) => None
  end.

(** [parse_qsl(qs)] *)
Definition parse_qsl (qs : string) : list (string * string) :=
  omap parse_field (split_fields is_separator qs).

(** One step of the loop of [parse_qs]:
    [if name in parsed_result: parsed_result[name].append(value)
     else: parsed_result[name] = [value]] *)
Definition parse_qs_step (parsed_result : gmap string (list string))
           (pair : string * string) : gmap string (list string) :=
  match parsed_result !! pair.1 with
  | Some values => <[pair.1 := values ++ [pair.2]]> parsed_result
  | None => <[pair.1 := [pair.2]]> parsed_result
  end.

(** [parse_qs(qs)] *)
Definition parse_qs (qs : string) : gmap string (list string) :=
  fold_left parse_qs_step (parse_qsl qs) ∅.

(** ** The handler *)

(** What the handler does to its surroundings: it closes the websocket,
    or builds a [GatewayWebsocket] and runs it. *)
Inductive Effect : Type :=
| WsClose (code : Z) (reason : string)
| NewGatewayWebsocket (v encoding : string) (compress : option string)
| GwsRun.

Definition emit (e : Effect) : M (list Effect) unit :=
  fun trace => (Ok tt, trace ++ [e]).

(** [args[name]] on a [dict] *)
Definition dict_getitem (args : gmap string (list string)) (name : string)
  : M (list Effect) (list string) :=
  match args !! name with
  | Some values => ret values
  | None => raise KeyError
  end.

(** [values[0]] on a [list] *)
Definition list_getitem0 (values : list string) : M (list Effect) string :=
  match values with
  | value :: _ => ret value
  | [] => raise IndexError
  end.

(** [x in (a, b, ...)] on strings *)
Definition in_tuple (x : string) (tuple : list string) : bool :=
  existsb (String.eqb x) tuple.

(** Truth value of an [Optional[str]]: [None] and [''] are false. *)
Definition truthy (x : option string) : bool :=
  match x with
  | None => false
  | Some s => negb (String.eqb s EmptyString)
  end.

(** [urllib.parse.urlparse(url).query], called outside any [try] *)
Definition urlparse_query (url : string) : M (list Effect) string :=
  fun trace => (url_query url, trace).

(** [websocket_handler(app, ws, url)] *)
Definition websocket_handler (url : string) : M (list Effect) unit :=
  query ← urlparse_query url;
  let args := parse_qs query in
  gw_version ←
    try_except (values ← dict_getitem args "v"; list_getitem0 values)
               is_KeyError_or_IndexError (ret "6");
  gw_encoding ←
    try_except (values ← dict_getitem args "encoding"; list_getitem0 values)
               is_KeyError_or_IndexError (ret "json");
  if negb (in_tuple gw_version ["6"; "7"]) then
    emit (WsClose 1000 "Invalid gateway version")
  else if negb (in_tuple gw_encoding ["json"; "etf"]) then
    emit (WsClose 1000 "Invalid gateway encoding")
  else
    gw_compress ←
      try_except (values ← dict_getitem args "compress";
                  value ← list_getitem0 values;
                  ret (Some value))
                 is_KeyError_or_IndexError (ret None);
    if truthy gw_compress
       && negb (in_tuple (default EmptyString gw_compress) ["zlib-stream"])
    then
      emit (WsClose 1000 "Invalid gateway compress")
    else
      _ ← emit (NewGatewayWebsocket gw_version gw_encoding gw_compress);
      emit GwsRun.

(** ** Vocabulary of the statements *)

(** The value a query string requests for a parameter: the first one
    given, if any. *)
Definition requested (query : string) (name : string) : option string :=
  parse_qs query !! name ≫= head.

(** The outcome for resolved parameters. *)
Definition negotiate (v encoding : string) (compress : option string)
  : list Effect :=
  if negb (in_tuple v ["6"; "7"]) then
    [WsClose 1000 "Invalid gateway version"]
  else if negb (in_tuple encoding ["json"; "etf"]) then
    [WsClose 1000 "Invalid gateway encoding"]
  else if truthy compress
          && negb (in_tuple (default EmptyString compress) ["zlib-stream"]) then
    [WsClose 1000 "Invalid gateway compress"]
  else [NewGatewayWebsocket v encoding compress; GwsRun].

(** A parameter is omitted when every field of the query string that
    names it has a blank value; no field naming it is the usual case. *)
Definition omits (query : string) (name : string) : bool :=
  forallb
    (fun field =>
       match split_once "=" field with
       | (raw, Some value) =>
           if String.eqb (unquote raw) name then String.eqb value EmptyString
           else true
       | (_, None) => true
       end)
    (split_fields is_separator query).

(** The query string asks for something the gateway does not serve. *)
Definition unsupported (query : string) : Prop :=
  (exists v, requested query "v" = Some v /\ v <> "6" /\ v <> "7")
  \/ (exists encoding, requested query "encoding" = Some encoding
                       /\ encoding <> "json" /\ encoding <> "etf")
  \/ (exists compress, requested query "compress" = Some compress
                       /\ compress <> "zlib-stream").

(** The first value of no parameter is blank. *)
Definition head_nonblank (parsed : gmap string (list string)) : Prop :=
  forall name, parsed !! name ≫= head <> Some EmptyString.
End ParseQs.

End Gateway.

(* ===================================================================== *)
(** * The event dispatcher behind [app.dispatcher] *)
(* ===================================================================== *)

Module EventDispatcher.
Import Py Pubsub.

Section Facade.
(** [Lazy] is the private state of the [lazy_guild] backend. *)
Context {WS Data World Lazy : Type}.
Variable ws_dispatch : WS -> string -> Data -> World -> result unit * World.

(** Modelled from the spec: the process-wide state of the event
    dispatcher and the session registry (their modules are not among the
    sources): one subscription table per namespace, the sessions
    registered per user, and the surroundings of [Pubsub.Dispatcher]. *)
Record App : Type := mkApp {
  backends : gmap string (gmap Z (gset Z));
  state_manager : gmap Z (list (GatewayState WS));
  lazy_guild : Lazy;
  io : Env World
}.

(** [dispatch] of the [lazy_guild] backend, whose code is not part of
    the sources at hand: it works on its own state, reads the session
    registry and pushes through the websockets. *)
Variable lazy_guild_dispatch :
  Z -> string -> Data -> gmap Z (list (GatewayState WS)) ->
  Lazy * Env World -> result unit * (Lazy * Env World).

(** Modelled from the spec: the lookup of the backend of a namespace by
    the event dispatcher (not among the sources), here the subscription
    table that backend owns. *)
Definition table (app : App) (namespace : string) : gmap Z (gset Z) :=
  default ∅ (backends app !! namespace).

(** Modelled from the spec: the delegation of the event dispatcher (not
    among the sources) to the backend of [namespace], whose method runs
    on the table of that backend. *)
Definition on_backend {A} (namespace : string) (m : M (gmap Z (gset Z)) A)
  : M App A :=
  fun app =>
    let (r, t) := m (table app namespace) in
    (r, {| backends := <[namespace := t]> (backends app);
           state_manager := state_manager app;
           lazy_guild := lazy_guild app;
           io := io app |}).

(** Modelled from the spec: a backend of the event dispatcher (not among
    the sources) running a [Pubsub.Dispatcher] method on the
    surroundings. *)
Definition on_io {A} (m : M (Env World) A) : M App A :=
  fun app =>
    let (r, e) := m (io app) in
    (r, {| backends := backends app;
           state_manager := state_manager app;
           lazy_guild := lazy_guild app;
           io := e |}).

(** Modelled from the spec: [sub] of the event dispatcher (its module is
    not among the sources); it looks up the backend of the namespace and
    delegates to [DispatcherWithState.sub]. *)
Definition sub (namespace : string) (key ident : Z) : M App unit :=
  on_backend namespace (Pubsub.sub key ident).

(** Modelled from the spec: [unsub] of the event dispatcher (not among
    the sources), delegating to [DispatcherWithState.unsub]. *)
Definition unsub (namespace : string) (key ident : Z) : M App unit :=
  on_backend namespace (Pubsub.unsub key ident).

(** Modelled from the spec: [reset] of the event dispatcher (not among
    the sources), delegating to [DispatcherWithState.reset]. *)
Definition reset (namespace : string) (key : Z) : M App unit :=
  on_backend namespace (Pubsub.reset key).

(** Modelled from the spec: [remove] of the event dispatcher (not among
    the sources), delegating to [DispatcherWithState.remove]. *)
Definition remove (namespace : string) (key : Z) : M App unit :=
  on_backend namespace (Pubsub.remove key).

(** Modelled from the spec: [sessions_for_user] of the session
    registry (not among the sources): the live sessions registered for
    a user, none for an unknown user. *)
Definition sessions_for_user (app : App) (user_id : Z)
  : list (GatewayState WS) :=
  default [] (state_manager app !! user_id).

(** Modelled from the spec: [dispatch_user] of the event dispatcher
    (not among the sources): it bypasses subscriptions and reaches
    every live session registered for the user; the session ids
    reached are returned. *)
Definition dispatch_user (user_id : Z) (event : string) (data : Data)
  : M App (list string) :=
  app ← get;
  on_io (_dispatch_states ws_dispatch (sessions_for_user app user_id)
                          event data).

(** Modelled from the spec: the loop of a subscription-table backend
    (the backend modules are not among the sources) over the snapshot of
    subscribers; [keep] selects the sessions to push to and [res]
    collects the session ids reached. *)
Fixpoint for_subscribers (user_ids : list Z)
         (keep : GatewayState WS -> bool) (event : string) (data : Data)
         (res : list string) : M App (list string) :=
  match user_ids with
  | [] => ret res
  | user_id :: rest =>
      app ← get;
      ids ← on_io (_dispatch_states ws_dispatch
                     (filter (fun st => keep st = true)
                             (sessions_for_user app user_id))
                     event data);
      for_subscribers rest keep event data (res ++ ids)
  end.

(** Modelled from the spec: [dispatch_filter] of a subscription-table
    backend (the backend modules are not among the sources): it
    snapshots the members of the key, resolves each subscriber's live
    sessions through the registry, pushes the event to those the
    predicate lets through and returns the session ids reached.  The
    predicate is applied to session ids, the only reading under which
    the list of session ids threaded by [mass_user_update] can
    exclude anything. *)
Definition dispatch_filter (namespace : string) (key : Z)
           (func : string -> bool) (event : string) (data : Data)
  : M App (list string) :=
  app ← get;
  for_subscribers (elements (members (table app namespace) key))
                  (fun st => func (session_id st)) event data [].

(** Modelled from the spec: [dispatch] of the event dispatcher (not
    among the sources): it looks up the backend of the namespace and
    delegates; a subscription-table backend pushes to every session
    of every subscriber of the key. *)
Definition dispatch (namespace : string) (key : Z) (event : string)
           (data : Data) : M App (list string) :=
  if String.eqb namespace "lazy_guild" then
    fun app =>
      let (r, s) := lazy_guild_dispatch key event data (state_manager app)
                                        (lazy_guild app, io app) in
      (match r with Ok _ => Ok [] | Raise e => Raise e end,
       {| backends := backends app;
          state_manager := state_manager app;
          lazy_guild := s.1;
          io := s.2 |})
  else dispatch_filter namespace key (fun _ => true) event data.

(** Modelled from the spec: [dispatch_guild], the convenience wrapper
    over [dispatch('guild', guild_id, ...)]. *)
Definition dispatch_guild (guild_id : Z) (event : string) (data : Data)
  : M App (list string) :=
  dispatch "guild" guild_id event data.

(** Modelled from the spec: [dispatch_many], the sequential dispatch
    over several keys of one namespace, without deduplication. *)
Fixpoint dispatch_many (namespace : string) (keys : list Z)
         (event : string) (data : Data) : M App unit :=
  match keys with
  | [] => ret tt
  | key :: rest =>
      _ ← dispatch namespace key event data;
      dispatch_many namespace rest event data
  end.

(** Modelled from the spec: the predicate [dispatch_many_filter_list] (not
    among the sources) hands to the backend: the session id is not among
    those seen. *)
Definition not_yet (seen : list string) (sess_id : string) : bool :=
  negb (existsb (String.eqb sess_id) seen).

(** Modelled from the spec: the loop over the keys of
    [dispatch_many_filter_list] (not among the sources); [reached]
    collects the session ids reached by this call. *)
Fixpoint for_keys_filter_list (namespace : string) (keys : list Z)
         (already_reached : list string) (event : string) (data : Data)
         (reached : list string) : M App (list string) :=
  match keys with
  | [] => ret reached
  | key :: rest =>
      ids ← dispatch_filter namespace key
              (not_yet (already_reached ++ reached)) event data;
      for_keys_filter_list namespace rest already_reached event data
                           (reached ++ ids)
  end.

(** Modelled from the spec: [dispatch_many_filter_list] of the event
    dispatcher (not among the sources): like [dispatch_many], but for
    every key the sessions already present in [already_reached], or
    reached for an earlier key of this call, are skipped; the session
    ids reached by this call are returned. *)
Definition dispatch_many_filter_list (namespace : string) (keys : list Z)
           (already_reached : list string) (event : string) (data : Data)
  : M App (list string) :=
  for_keys_filter_list namespace keys already_reached event data [].

(** What [dispatch_user_guild] does for a user and a guild; the method
    is called by the blueprints, is not among the sources and is not
    described: it is kept abstract as something that reads the session
    registry and pushes through the websockets. *)
Variable push_user_guild :
  Z -> Z -> string -> Data -> gmap Z (list (GatewayState WS)) ->
  Env World -> result (list string) * Env World.

(** Modelled from the spec: [dispatch_user_guild] of the event dispatcher
    (not among the sources), a dispatch aimed at a user that leaves the
    subscriptions alone. *)

Definition dispatch_user_guild (user_id guild_id : Z) (event : string)
           (data : Data) : M App (list string) :=
  app ← get;
  on_io (push_user_guild user_id guild_id event data (state_manager app)).

(** ** Vocabulary of the statements *)

(** Replacing the surroundings of an application object. *)
Definition with_io (app : App) (e : Env World) : App :=
  {| backends := backends app;
     state_manager := state_manager app;
     lazy_guild := lazy_guild app;
     io := e |}.

(** The registry is well formed when a session id names one session:
    the sessions of a user have distinct ids, and no id is shared by
    sessions of two users. *)
Definition registry_ok (registry : gmap Z (list (GatewayState WS))) : Prop :=
  (forall u l, registry !! u = Some l -> NoDup (map session_id l))
  /\ (forall u1 u2 l1 l2 sid,
        registry !! u1 = Some l1 -> registry !! u2 = Some l2 ->
        sid ∈ map session_id l1 -> sid ∈ map session_id l2 -> u1 = u2).

(** No push ever raises. *)
Definition never_fails : Prop :=
  forall ws event data w, (ws_dispatch ws event data w).1 = Ok tt.

(** The session ids a backend loop over [users] tries to reach. *)
Definition candidates (app : App) (users : list Z)
           (keep : GatewayState WS -> bool) : list string :=
  flat_map (fun u => map session_id
                       (filter (fun st => keep st = true)
                               (sessions_for_user app u)))
           users.

(** [sid] names a live session of a subscriber of one of the keys. *)
Definition reachable (app : App) (namespace : string) (keys : list Z)
           (sid : string) : Prop :=
  exists key u st,
    key ∈ keys /\ u ∈ members (table app namespace) key
    /\ st ∈ sessions_for_user app u /\ session_id st = sid.

(** How many times a session id occurs among the ids reached. *)
Definition deliveries (sid : string) (ids : list string) : nat :=
  length (filter (fun x => x = sid) ids).

(** The sessions a backend loop over [users] pushes to, in the order of
    the pushes. *)
Definition pushed (app : App) (users : list Z)
           (keep : GatewayState WS -> bool) : list (GatewayState WS) :=
  flat_map (fun u => filter (fun st => keep st = true) (sessions_for_user app u))
           users.

(** The surroundings once [ws.dispatch] has run for every state of the
    list, in order: the world after the pushes, and one log record per
    push that raised. *)
Definition env_after (states : list (GatewayState WS)) (event : string)
           (data : Data) (env : Env World) : Env World :=
  {| transport := world_after ws_dispatch states event data (transport env);
     logbook := logbook env
                ++ repeat "error while dispatching"
                     (length (failed ws_dispatch states event data (transport env))) |}.
End Facade.

Arguments App : clear implicits.
End EventDispatcher.

(* ===================================================================== *)
(** * discord/blueprints/guild/mod.py and discord/blueprints/users.py *)
(* ===================================================================== *)

Module Blueprints.
Import Py Pubsub.

Section Handlers.
Context {WS World Lazy DB User : Type}.

(** The payloads the two functions build.  Ids are kept as integers
    where the code sends [str(id)]. *)
Inductive Payload : Type :=
| GuildDelete (guild_id : Z) (unavailable : bool)
| GuildMemberRemove (guild_id : Z) (user : User)
| UserObject (user : User)
| Ident (id : Z).

Abbreviation State := (GatewayState WS).
Abbreviation App := (EventDispatcher.App WS World Lazy).

Variable ws_dispatch : WS -> string -> Payload -> World -> result unit * World.
Variable lazy_guild_dispatch :
  Z -> string -> Payload -> gmap Z (list State) ->
  Lazy * Env World -> result unit * (Lazy * Env World).
Variable push_user_guild :
  Z -> Z -> string -> Payload -> gmap Z (list State) ->
  Env World -> result (list string) * Env World.

(** [app.db.execute("DELETE FROM members WHERE guild_id = $1 AND
    user_id = $2", guild_id, member_id)] *)
Variable delete_member : Z -> Z -> DB -> result unit * DB.

(** [app.storage.get_user(user_id, secure)], and the two reads of
    [app.user_storage]. *)
Variable get_user : DB -> Z -> bool -> User.
Variable get_user_guilds : DB -> Z -> list Z.
Variable get_friend_ids : DB -> Z -> list Z.

(** The database and the application object. *)
Definition Server : Type := DB * App.

Definition on_db {A} (m : M DB A) : M Server A :=
  fun s => let (r, d) := m s.1 in (r, (d, s.2)).

Definition on_app {A} (m : M App A) : M Server A :=
  fun s => let (r, a) := m s.2 in (r, (s.1, a)).

Abbreviation dispatcher_dispatch :=
  (EventDispatcher.dispatch ws_dispatch lazy_guild_dispatch).
Abbreviation dispatcher_dispatch_guild :=
  (EventDispatcher.dispatch_guild ws_dispatch lazy_guild_dispatch).
Abbreviation dispatcher_dispatch_many :=
  (EventDispatcher.dispatch_many ws_dispatch lazy_guild_dispatch).

(** [remove_member(guild_id, member_id)] of guild/mod.py *)
Definition remove_member (guild_id member_id : Z) : M Server unit :=
  _ ← on_db (delete_member guild_id member_id);
  _ ← on_app (EventDispatcher.dispatch_user_guild push_user_guild
                member_id guild_id "GUILD_DELETE"
                (GuildDelete guild_id false));
  _ ← on_app (EventDispatcher.unsub "guild" guild_id member_id);
  _ ← on_app (dispatcher_dispatch "lazy_guild" guild_id "remove_member"
                                  (Ident member_id));
  s ← get;
  _ ← on_app (dispatcher_dispatch_guild guild_id "GUILD_MEMBER_REMOVE"
                (GuildMemberRemove guild_id (get_user s.1 member_id false)));
  ret tt.

(** [remove_member_multi(guild_id, members)] *)
Fixpoint remove_member_multi (guild_id : Z) (members : list Z)
  : M Server unit :=
  match members with
  | [] => ret tt
  | member_id :: rest =>
      _ ← remove_member guild_id member_id;
      remove_member_multi guild_id rest
  end.

(** [mass_user_update] up to its last [session_ids.extend]: the value
    holds [session_ids] together with the locals used afterwards. *)
Definition mass_user_update_sessions (user_id : Z)
  : M Server (list string * User * list Z) :=
  let session_ids := [] in
  s ← get;
  let public_user := get_user s.1 user_id false in
  let private_user := get_user s.1 user_id true in
  ids ← on_app (EventDispatcher.dispatch_user ws_dispatch
                  user_id "USER_UPDATE" (UserObject private_user));
  let session_ids := session_ids ++ ids in
  s ← get;
  let guild_ids := get_user_guilds s.1 user_id in
  let friend_ids := get_friend_ids s.1 user_id in
  ids ← on_app (EventDispatcher.dispatch_many_filter_list ws_dispatch
                  "guild" guild_ids session_ids
                  "USER_UPDATE" (UserObject public_user));
  let session_ids := session_ids ++ ids in
  ids ← on_app (EventDispatcher.dispatch_many_filter_list ws_dispatch
                  "friend" friend_ids session_ids
                  "USER_UPDATE" (UserObject public_user));
  let session_ids := session_ids ++ ids in
  ret (session_ids, private_user, guild_ids).

(** [mass_user_update(user_id, app_)] of users.py *)
Definition mass_user_update (user_id : Z) : M Server User :=
  locals ← mass_user_update_sessions user_id;
  let private_user := locals.1.2 in
  let guild_ids := locals.2 in
  _ ← on_app (dispatcher_dispatch_many "lazy_guild" guild_ids
                                       "update_user" (Ident user_id));
  ret private_user.
End Handlers.

Arguments Payload : clear implicits.
End Blueprints.

(* ===================================================================== *)
(** * The gateway connection: identify *)
(* ===================================================================== *)

Module GatewayProtocol.

(** Modelled from the spec: the states of a session of the gateway
    protocol handler (the websocket class is not among the sources). *)
Inductive SessionState : Type :=
| CONNECTED | IDENTIFIED | RESUMING | READY | CLOSING | CLOSED.

(** Modelled from the spec: the opcodes of a frame (the opcode module is
    not among the sources). *)
Inductive Opcode : Type :=
| HELLO | IDENTIFY | RESUME | DISPATCH | HEARTBEAT | HEARTBEAT_ACK
| INVALID_SESSION | RECONNECT.

Section Identify.
Context {User Guild Channel Token : Type}.

(** The external collaborators: authentication and the storage read
    projections. *)
Variable authenticate : Token -> option Z.
Variable get_user : Z -> User.
Variable get_guilds : Z -> list Guild.
Variable get_private_channels : Z -> list Channel.

(** Modelled from the spec: the allocation of a session id by the
    session registry (not among the sources): the id handed out is a
    string chosen outside the ids issued so far. *)
Definition allocate_session_id (issued : gset string) : string := fresh issued.

(** Modelled from the spec: the data of the initial state snapshot (built
    by the websocket class, not among the sources), with the fields the
    test of the ready frame reads: [v], [user], [private_channels],
    [guilds] and [session_id]. *)
Record ReadyData : Type := mkReady {
  ready_v : Z;
  ready_user : User;
  ready_guilds : list Guild;
  ready_private_channels : list Channel;
  ready_session_id : string
}.

(** Modelled from the spec: a frame sent to the client (by the websocket
    class, not among the sources), with its [op], [t] and [d]. *)
Record Frame : Type := mkFrame {
  op : Opcode;
  t : option string;
  d : ReadyData
}.

(** Modelled from the spec: what the protocol handler (not among the
    sources) does on the transport: it sends a frame or closes with a
    code. *)
Inductive Output : Type :=
| Send (frame : Frame)
| Close (code : Z).

(** Modelled from the spec: one connection of the protocol handler (not
    among the sources): its state, protocol version and session id. *)
Record Connection : Type := mkConnection {
  state : SessionState;
  v : Z;
  session : option string
}.

(** Modelled from the spec: the session registry (not among the
    sources), with the session ids issued so far. *)
Record Registry : Type := mkRegistry {
  sessions : gmap Z (list string);
  issued : gset string
}.

(** Modelled from the spec: the handling of an identify frame by the
    gateway protocol handler (the websocket class is not among the
    sources; the shape of the frame is the one its test reads).  On a
    connection in state [CONNECTED] the credentials are
    authenticated; on success the snapshot of current user, guild
    list and private-channel list is built, a session id is
    allocated, the session is registered, the connection becomes
    [READY] and the snapshot is sent as a dispatch frame named
    [READY]; on failure the connection is closed with code 4004.
    [None] stands for the cases the description leaves open. *)
Definition handle_identify (token : Token) (conn : Connection)
           (registry : Registry)
  : option (list Output * Connection * Registry) :=
  match state conn with
  | CONNECTED =>
      match authenticate token with
      | Some user_id =>
          let session_id := allocate_session_id (issued registry) in
          let ready :=
            {| ready_v := v conn;
               ready_user := get_user user_id;
               ready_guilds := get_guilds user_id;
               ready_private_channels := get_private_channels user_id;
               ready_session_id := session_id |} in
          Some ([Send {| op := DISPATCH; t := Some "READY"; d := ready |}],
                {| state := READY; v := v conn; session := Some session_id |},
                {| sessions :=
                     <[user_id := default [] (sessions registry !! user_id)
                                  ++ [session_id]]> (sessions registry);
                   issued := {[session_id]} ∪ issued registry |})
      | None =>
          Some ([Close 4004],
                {| state := CLOSED; v := v conn; session := None |},
                registry)
      end
  | _ => None
  end.
End Identify.

End GatewayProtocol.

(* ===================================================================== *)
(** * A small running server, used to evaluate the models *)
(* ===================================================================== *)

Module Demo.
Import Py Pubsub.

(** The wire records, per push, the websocket and the event name. *)
Definition Wire : Type := list (string * string).

Definition ws_dispatch (ws : string) (event : string)
           (data : Blueprints.Payload Z) (w : Wire) : result unit * Wire :=
  (Ok tt, w ++ [(ws, event)]).

Definition lazy_guild_dispatch (key : Z) (event : string)
           (data : Blueprints.Payload Z)
           (registry : gmap Z (list (GatewayState string)))
           (s : unit * Env Wire) : result unit * (unit * Env Wire) :=
  (Ok tt, s).

Definition push_user_guild (user_id guild_id : Z) (event : string)
           (data : Blueprints.Payload Z)
           (registry : gmap Z (list (GatewayState string)))
  : M (Env Wire) (list string) :=
  _dispatch_states ws_dispatch (default [] (registry !! user_id)) event data.

Definition delete_member (guild_id member_id : Z) (d : unit)
  : result unit * unit := (Ok tt, d).

Definition get_user (d : unit) (user_id : Z) (secure : bool) : Z := user_id.

(** Every user is a member of guilds 1 and 2 and has user 20 as friend. *)
Definition get_user_guilds (d : unit) (user_id : Z) : list Z := [1; 2].
Definition get_friend_ids (d : unit) (user_id : Z) : list Z := [20].

(** A websocket layer on which the socket [ws-b] is closed: a push to it
    raises and leaves the wire as it was. *)
Definition flaky_ws_dispatch (ws : string) (event : string)
           (data : Blueprints.Payload Z) (w : Wire) : result unit * Wire :=
  if String.eqb ws "ws-b" then (Raise (OtherError "ConnectionClosed"), w)
  else (Ok tt, w ++ [(ws, event)]).

(** Users 10 and 20 are subscribed to guild 1, user 10 also to guild 2,
    and user 20 to the friend key 20; user 10 has the session [a], user
    20 the session [b]. *)
Definition registry : gmap Z (list (GatewayState string)) :=
  {[ 10 := [mkState "a" "ws-a"]; 20 := [mkState "b" "ws-b"] ]}.

Definition app0 : EventDispatcher.App string Wire unit :=
  EventDispatcher.mkApp
    {[ "guild" := {[ 1 := {[ 10; 20 ]}; 2 := {[ 10 ]} ]};
       "friend" := {[ 20 := {[ 20 ]} ]} ]}
    registry tt (mkEnv [] []).

(** Member 10 is removed from guild 1. *)
Definition after_remove : result unit * (unit * EventDispatcher.App string Wire unit) :=
  Blueprints.remove_member ws_dispatch lazy_guild_dispatch push_user_guild
                           delete_member get_user 1 10 (tt, app0).

(** The frames on the wire after the removal. *)
Definition wire_after_remove : Wire :=
  transport (EventDispatcher.io after_remove.2.2).
End Demo.

(* ===================================================================== *)
(** * discord/errors.py *)
(* ===================================================================== *)

Module Errors.

(** The classes of errors.py that derive from [DiscordError]. *)
Inductive ErrorClass : Type :=
| DiscordError | BadRequest | Unauthorized | Forbidden | NotFound
| GuildNotFound | ChannelNotFound | MessageNotFound | Ratelimited
| MissingPermissions.

(** An argument given to the constructor of an error: a message, or the
    dict of per-field messages. *)
Inductive Arg : Type :=
| Text (s : string)
| Fields (d : list (string * string)).

(** What the embedded request handlers raise: the builtin exceptions
    they meet, the one of the database driver, and the errors of
    errors.py with their [args]. *)
Inductive exception : Type :=
| TypeError
| ValueError
| KeyError
| UniqueViolationError
| Error (cls : ErrorClass) (args : list Arg).

(** A call returns a value or raises. *)
Inductive outcome (A : Type) : Type :=
| Returns (a : A)
| Raises (e : exception).
Arguments Returns {A} a.
Arguments Raises {A} e.

#[global] Instance outcome_ret : MRet outcome := fun A a => Returns a.
#[global] Instance outcome_bind : MBind outcome :=
  fun A B k m => match m with Returns a => k a | Raises e => Raises e end.

(** [try: body except <classes>: handler] *)
Definition try_except {A} (body : outcome A) (catches : exception -> bool)
           (handler : outcome A) : outcome A :=
  match body with
  | Returns a => Returns a
  | Raises e => if catches e then handler else Raises e
  end.

(** [except (TypeError, ValueError):] *)
Definition is_TypeError_or_ValueError (e : exception) : bool :=
  match e with TypeError | ValueError => true | _ => false end.

End Errors.

(* ===================================================================== *)
(** * discord/blueprints/channel/messages.py *)
(* ===================================================================== *)

Module Messages.
Import Errors.

(** [request.args]: the query parameters, each with the values given for
    it, in order. *)
Abbreviation MultiDict := (gmap string (list string)).

(** [args.get(key, default)] leaves the default to the caller: the first
    value of [key], if there is one. *)
Definition args_get (args : MultiDict) (key : string) : option string :=
  args !! key ≫= head.

(** [key in args] *)
Definition contains (args : MultiDict) (key : string) : bool :=
  bool_decide (is_Some (args !! key)).

(** [args[key]]: the first value of [key]. *)
Definition args_getitem (args : MultiDict) (key : string) : outcome string :=
  match args !! key ≫= head with
  | Some value => Returns value
  | None => Raises KeyError
  end.

(** [x in range(start, stop)] on integers *)
Definition in_range (x start stop : Z) : bool := (start <=? x) && (x <? stop).

Section Limits.
(** [int(text)] on a [str]; [None] stands for [ValueError]. *)
Variable int_of_str : string -> option Z.

(** [int(n / 2)] on an [int]: the float quotient, truncated. *)
Variable int_of_half : Z -> Z.

Definition int_ (text : string) : outcome Z :=
  match int_of_str text with
  | Some n => Returns n
  | None => Raises ValueError
  end.

(** [extract_limit(request_, default, max_val)]; [int] of the default,
    an [int], is the default. *)
Definition extract_limit (request_args : MultiDict) (default max_val : Z)
  : outcome Z :=
  try_except
    (limit ← match args_get request_args "limit" with
             | Some text => int_ text
             | None => Returns default
             end;
     if negb (in_range limit 0 (max_val + 1)) then Raises ValueError
     else Returns limit)
    is_TypeError_or_ValueError
    (Raises (Error BadRequest [Text "limit not int"])).

(** [query_tuple_from_args(args, limit)]; the test for ['around'] reads
    the [request.args] of the request being served, the rest reads the
    [args] passed. *)
Definition query_tuple_from_args (request_args args : MultiDict) (limit : Z)
  : outcome (option Z * option Z) :=
  if contains request_args "around" then
    let average := int_of_half limit in
    around ← (text ← args_getitem args "around"; int_ text);
    let after := around - average in
    let before := around + average in
    Returns (Some before, Some after)
  else if contains args "before" then
    before ← (text ← args_getitem args "before"; int_ text);
    Returns (Some before, None)
  else if contains args "after" then
    before ← (text ← args_getitem args "after"; int_ text);
    Returns (Some before, None)
  else Returns (None, None).

(** A condition appended to the [WHERE] clause of [get_messages]:
    ['AND id < {before}'], resp. ['AND id > {after}']. *)
Inductive Clause : Type :=
| IdBelow (before : Z)
| IdAbove (after : Z).

(** Truth value of an [Optional[int]]: [None] and [0] are false. *)
Definition truthy (x : option Z) : bool :=
  match x with
  | None => false
  | Some n => negb (n =? 0)
  end.

(** [get_messages(channel_id)] from [extract_limit] to the query: the
    limit and the conditions the query is built with. *)
Definition get_messages_query (request_args : MultiDict)
  : outcome (Z * list Clause) :=
  limit ← extract_limit request_args 50 100;
  let where_clause := [] in
  bounds ← query_tuple_from_args request_args request_args limit;
  let before := bounds.1 in
  let after := bounds.2 in
  let where_clause :=
    if truthy before then where_clause ++ [IdBelow (default 0 before)]
    else where_clause in
  let where_clause :=
    if truthy after then where_clause ++ [IdAbove (default 0 after)]
    else where_clause in
  Returns (limit, where_clause).
End Limits.

(** ** Vocabulary of the statements *)

(** Decimal digits read most significant first. *)
Fixpoint decimal_digits (s : string) (acc : Z) : option Z :=
  match s with
  | EmptyString => Some acc
  | String c s' =>
      let n := Z.of_N (N_of_ascii c) in
      if (48 <=? n) && (n <=? 57) then decimal_digits s' (acc * 10 + (n - 48))
      else None
  end.

(** A reader of plain decimal numerals with an optional sign, one of the
    forms [int] accepts. *)
Definition int_of_decimal (s : string) : option Z :=
  match s with
  | EmptyString => None
  | String "-"%char EmptyString => None
  | String "-"%char s' => option_map Z.opp (decimal_digits s' 0)
  | _ => decimal_digits s 0
  end.

End Messages.

(* ===================================================================== *)
(** * discord/blueprints/guild/members.py *)
(* ===================================================================== *)

Module Members.

Section UpdateMemberRoles.
(** Role ids, of one type in the rows of [member_roles] and in the
    request. *)
Context {Role : Type} `{Countable Role}.

(** One argument tuple [(member_id, guild_id, role_id)] of an
    [executemany]. *)
Definition RoleArgs : Type := (Z * Z * Role)%type.

(** [_update_member_roles(guild_id, member_id, wanted_roles)], from the
    [role_id] column of the rows fetched to the argument lists of the
    two [executemany] calls, the [INSERT] first and the [DELETE]
    second. *)
Definition _update_member_roles (guild_id member_id : Z) (fetched : list Role)
           (wanted_roles : list Role) : list RoleArgs * list RoleArgs :=
  let roles := fetched in
  let roles : gset Role := list_to_set roles in
  let wanted_roles : gset Role := list_to_set wanted_roles in
  let added_roles := wanted_roles ∖ roles in
  let removed_roles := roles ∖ wanted_roles in
  ((fun role_id => (member_id, guild_id, role_id)) <$> elements added_roles,
   (fun role_id => (member_id, guild_id, role_id)) <$> elements removed_roles).
End UpdateMemberRoles.

End Members.

(* ===================================================================== *)
(** * Channel overwrites: discord/blueprints/channels.py and
      discord/storage.py *)
(* ===================================================================== *)

Module Overwrites.
Import Errors.

(** An overwrite as [_process_overwrites] reads it: the keys ['type'],
    ['id'], ['allow'] and ['deny'] of the dict. *)
Record Overwrite : Type := mkOverwrite {
  ow_type : string;
  ow_id : Z;
  ow_allow : Z;
  ow_deny : Z
}.

(** The arguments [$1] to [$6] of the [INSERT] into
    [channel_overwrites]. *)
Record InsertArgs : Type := mkInsertArgs {
  arg_channel_id : Z;
  arg_target_type : Z;
  arg_target_role : option Z;
  arg_target_user : option Z;
  arg_allow : Z;
  arg_deny : Z
}.

(** The body of the loop of [_process_overwrites] up to the [execute]. *)
Definition insert_args (channel_id : Z) (overwrite : Overwrite) : InsertArgs :=
  let target_type := if String.eqb (ow_type overwrite) "user" then 0 else 1 in
  let target_role := if target_type =? 0 then None else Some (ow_id overwrite) in
  let target_user := if target_type =? 0 then Some (ow_id overwrite) else None in
  {| arg_channel_id := channel_id;
     arg_target_type := target_type;
     arg_target_role := target_role;
     arg_target_user := target_user;
     arg_allow := ow_allow overwrite;
     arg_deny := ow_deny overwrite |}.

(** [_process_overwrites(channel_id, overwrites)] of channels.py: the
    statements executed, one per overwrite, in order. *)
Definition _process_overwrites (channel_id : Z) (overwrites : list Overwrite)
  : list InsertArgs :=
  map (insert_args channel_id) overwrites.

(** A row of the [SELECT] of [chan_overwrites]. *)
Record Row : Type := mkRow {
  target_type : Z;
  target_role : option Z;
  target_user : option Z;
  allow : Z;
  deny : Z
}.

(** The dict [_overwrite_convert] returns: the keys left after the three
    [pop] calls. *)
Record Converted : Type := mkConverted {
  c_allow : Z;
  c_deny : Z;
  c_type : string;
  c_id : string
}.

Section Convert.
(** [str(n)] on an [int] *)
Variable str_of_int : Z -> string.

(** [str(x)] on an [Optional[int]] *)
Definition str_ (x : option Z) : string :=
  match x with
  | Some n => str_of_int n
  | None => "None"
  end.

(** [_overwrite_convert(row)] of [Storage.chan_overwrites] *)
Definition _overwrite_convert (row : Row) : outcome Converted :=
  let target_type := target_type row in
  let type := if target_type =? 0 then "user" else "role" in
  id ← (if target_type =? 0 then Returns (target_user row)
        else if target_type =? 1 then Returns (target_role row)
        else Raises KeyError);
  let id := str_ id in
  Returns {| c_allow := allow row; c_deny := deny row; c_type := type; c_id := id |}.
End Convert.

(** ** Vocabulary of the statements *)

(** The row of [channel_overwrites] an [INSERT] leaves, read through the
    columns [chan_overwrites] selects. *)
Definition stored_row (args : InsertArgs) : Row :=
  {| target_type := arg_target_type args;
     target_role := arg_target_role args;
     target_user := arg_target_user args;
     allow := arg_allow args;
     deny := arg_deny args |}.

End Overwrites.

(* ===================================================================== *)
(** * discord/blueprints/users.py: [rand_hex] and [_try_reroll] *)
(* ===================================================================== *)

Module Users.
Import Errors.

(** [bytes.hex()]: two lower-case digits per byte. *)
Fixpoint bytes_hex (bs : list ascii) : string :=
  match bs with
  | [] => EmptyString
  | b :: rest =>
      String.append (Types.two_digits (Z.of_N (N_of_ascii b))) (bytes_hex rest)
  end.

(** The characters [bytes.hex()] writes. *)
Definition lower_hex : string := "0123456789abcdef".

Section RandHex.
(** [Entropy] is the state of the random source of the system;
    [urandom n] draws [n] bytes from it. *)
Context {Entropy : Type}.
Variable urandom : nat -> Entropy -> list ascii * Entropy.

(** [rand_hex(length)]; [os.urandom] refuses a negative size, and
    [s[:length]] are the first [length] characters of [s]. *)
Definition rand_hex (length : Z) (entropy : Entropy) : outcome string * Entropy :=
  if length <? 0 then (Raises ValueError, entropy)
  else
    let (bs, entropy') := urandom (Z.to_nat length) entropy in
    (Returns (String.substring 0 (Z.to_nat length) (bytes_hex bs)), entropy').
End RandHex.

Section Reroll.
(** The state of the random generator and the database. *)
Context {Rng DB : Type}.

(** [random.randint(1, 9999)] *)
Variable randint : Rng -> Z * Rng.

(** [str(n)] on an [int] *)
Variable str_of_int : Z -> string.

(** [app.db.fetchrow("SELECT user_id FROM users WHERE preferred_username
    = $1 AND discriminator = $2", ...)]: whether a row was found, or the
    exception of the driver. *)
Variable fetch_existing : string -> string -> DB -> outcome bool * DB.

(** [app.db.execute("UPDATE users SET discriminator = $1 WHERE users.id
    = $2", ...)] *)
Variable update_discriminator : string -> Z -> DB -> outcome unit * DB.

(** Truth value of an [Optional[str]] *)
Definition truthy (x : option string) : bool :=
  match x with
  | None => false
  | Some s => negb (String.eqb s EmptyString)
  end.

(** The [for _ in range(n)] loop of [_try_reroll] and the [return] after
    it. *)
Fixpoint reroll_loop (n : nat) (user_id : Z) (preferred_username : option string)
         (s : Rng * DB) : outcome (option string) * (Rng * DB) :=
  match n with
  | O => (Returns None, s)
  | S n' =>
      let (number, rng') := randint s.1 in
      let reroll := str_of_int number in
      if truthy preferred_username then
        match fetch_existing (default EmptyString preferred_username) reroll s.2 with
        | (Returns existing_uid, db') =>
            if negb existing_uid then (Returns (Some reroll), (rng', db'))
            else reroll_loop n' user_id preferred_username (rng', db')
        | (Raises e, db') => (Raises e, (rng', db'))
        end
      else
        match update_discriminator reroll user_id s.2 with
        | (Returns _, db') => (Returns (Some reroll), (rng', db'))
        | (Raises UniqueViolationError, db') =>
            reroll_loop n' user_id preferred_username (rng', db')
        | (Raises e, db') => (Raises e, (rng', db'))
        end
  end.

(** [_try_reroll(user_id, preferred_username)] *)
Definition _try_reroll (user_id : Z) (preferred_username : option string)
  : Rng * DB -> outcome (option string) * (Rng * DB) :=
  reroll_loop 10 user_id preferred_username.

(** ** Vocabulary of the statements *)

(** The numbers the first [n] calls of [randint] give. *)
Fixpoint draws (n : nat) (rng : Rng) : list Z :=
  match n with
  | O => []
  | S n' => let (number, rng') := randint rng in number :: draws n' rng'
  end.

(** The generator after [n] calls. *)
Fixpoint rng_after (n : nat) (rng : Rng) : Rng :=
  match n with
  | O => rng
  | S n' => rng_after n' (randint rng).2
  end.
End Reroll.

End Users.

(* ===================================================================== *)
(** * discord/storage.py: [get_reactions] *)
(* ===================================================================== *)

Module Storage.
Import Errors.

Section Reactions.
(** [Row] is a row of [message_reactions], [Key] the main key
    [emoji_sql] computes for the emoji of a row and [Partial] the object
    [partial_emoji] builds for it; both functions belong to the
    reactions blueprint. *)
Context {Row Key Partial : Type} `{Countable Key}.
Variable row_user_id : Row -> Z.
Variable main_emoji : Row -> Key.
Variable partial_emoji : Row -> Partial.

(** The dict kept per emoji. *)
Record Stats : Type := mkStats { count : Z; me : bool; emoji : Partial }.

(** The first loop: [emoji] is the ordered list of keys and
    [react_stats] the dict of the stats. *)
Fixpoint first_pass (reactions : list Row) (emoji : list Key)
         (react_stats : gmap Key Stats) : list Key * gmap Key Stats :=
  match reactions with
  | [] => (emoji, react_stats)
  | row :: rest =>
      let main_emoji := main_emoji row in
      if bool_decide (main_emoji ∈ emoji) then first_pass rest emoji react_stats
      else
        first_pass rest (emoji ++ [main_emoji])
          (<[main_emoji := {| count := 0; me := false;
                              emoji := partial_emoji row |}]> react_stats)
  end.

(** The second loop; the dict stored under the key is updated in
    place. *)
Fixpoint second_pass (reactions : list Row) (user_id : option Z)
         (react_stats : gmap Key Stats) : outcome (gmap Key Stats) :=
  match reactions with
  | [] => Returns react_stats
  | row :: rest =>
      let main_emoji := main_emoji row in
      match react_stats !! main_emoji with
      | None => Raises KeyError
      | Some stats =>
          let stats := {| count := count stats + 1; me := me stats;
                          emoji := emoji stats |} in
          let stats :=
            if bool_decide (Some (row_user_id row) = user_id)
            then {| count := count stats; me := true; emoji := emoji stats |}
            else stats in
          second_pass rest user_id (<[main_emoji := stats]> react_stats)
      end
  end.

(** [Storage.get_reactions(message_id, user_id)] on the rows fetched for
    the message, in the order of the query. *)
Definition get_reactions (reactions : list Row) (user_id : option Z)
  : outcome (list (option Stats)) :=
  let (emoji, react_stats) := first_pass reactions [] ∅ in
  react_stats ← second_pass reactions user_id react_stats;
  Returns (map (fun key => react_stats !! key) emoji).

(** ** Vocabulary of the statements *)

(** The values of a list without repetition, each at the place of its
    first occurrence. *)
Fixpoint first_seen (keys : list Key) : list Key :=
  match keys with
  | [] => []
  | key :: rest => key :: filter (fun k => k <> key) (first_seen rest)
  end.

(** The reactions with the emoji [key]. *)
Definition reactions_with (key : Key) (reactions : list Row) : list Row :=
  filter (fun row => main_emoji row = key) reactions.

(** The entry of the reaction list for [key]: how many reacted with it,
    whether the user did, and the emoji as the first reaction gave it. *)
Definition tally (reactions : list Row) (user_id : option Z) (key : Key)
  : option Stats :=
  match reactions_with key reactions with
  | [] => None
  | first :: _ =>
      Some {| count := Z.of_nat (length (reactions_with key reactions));
              me := bool_decide
                      (Exists (fun row => Some (row_user_id row) = user_id)
                              (reactions_with key reactions));
              emoji := partial_emoji first |}
  end.
(** The sum of the counts of a reaction list. *)
Definition total_count (entries : list (option Stats)) : Z :=
  foldr (fun entry acc => from_option count 0 entry + acc) 0 entries.
End Reactions.

Arguments Stats : clear implicits.
End Storage.

(* ===================================================================== *)
(** * discord/embed/sanitizer.py *)
(* ===================================================================== *)

Module Sanitizer.
Import Errors.

(** The values of an embed: what a JSON document holds.  A dict keeps
    its items in insertion order. *)
Inductive Json : Type :=
| JNone
| JBool (b : bool)
| JInt (n : Z)
| JStr (s : string)
| JList (items : list Json)
| JDict (fields : list (string * Json)).

(** [d[key]] for a key that may be missing *)
Fixpoint dict_get (key : string) (fields : list (string * Json)) : option Json :=
  match fields with
  | [] => None
  | (k, v) :: rest => if String.eqb k key then Some v else dict_get key rest
  end.

(** [d[key] = value]: the value of an existing key is replaced where it
    stands, a new key goes last. *)
Fixpoint dict_set (key : string) (value : Json) (fields : list (string * Json))
  : list (string * Json) :=
  match fields with
  | [] => [(key, value)]
  | (k, v) :: rest =>
      if String.eqb k key then (k, value) :: rest
      else (k, v) :: dict_set key value rest
  end.

(** [{**a, **b}]: the items of [a], then those of [b] set one by one. *)
Definition dict_merge (a b : list (string * Json)) : list (string * Json) :=
  fold_left (fun d item => dict_set item.1 item.2 d) b a.

(** [sanitize_embed(embed)] *)
Definition sanitize_embed (embed : list (string * Json)) : list (string * Json) :=
  dict_merge embed [("type", JStr "rich")].

(** [s == x] for a string [s] *)
Definition str_eq (s : string) (x : Json) : bool :=
  match x with
  | JStr s' => String.eqb s s'
  | _ => false
  end.

(** [sub in s] on strings *)
Definition is_substring (sub s : string) : bool :=
  match String.index 0 sub s with
  | Some _ => true
  | None => false
  end.

(** [path_exists(embed, components)] for a list of components.  The test
    [current in embed] and the subscript [embed[current]] depend on what
    [embed] is: a dict is searched for the key, a string for the
    substring and a list for the element, and neither a string nor a
    list takes a string as subscript; the other values do not support
    [in]. *)
Fixpoint path_exists_list (embed : Json) (components : list string)
  : outcome bool :=
  match components with
  | [] => Returns true
  | current :: rest =>
      match embed with
      | JDict fields =>
          match dict_get current fields with
          | Some value => path_exists_list value rest
          | None => Returns false
          end
      | JStr s => if is_substring current s then Raises TypeError else Returns false
      | JList items =>
          if existsb (str_eq current) items then Raises TypeError else Returns false
      | JNone | JBool _ | JInt _ => Raises TypeError
      end
  end.

(** [path_exists(embed, components)] for a string: it is split at the
    dots. *)
Definition path_exists (embed : Json) (components : string) : outcome bool :=
  path_exists_list embed (Gateway.split_fields (Ascii.eqb ".") components).

(** ** Vocabulary of the statements *)

(** The value a path of keys leads to through nested dicts. *)
Fixpoint follow (embed : Json) (components : list string) : option Json :=
  match components with
  | [] => Some embed
  | current :: rest =>
      match embed with
      | JDict fields => dict_get current fields ≫= fun value => follow value rest
      | _ => None
      end
  end.

(** Every value met along the path, the last one aside, is a dict. *)
Fixpoint dicts_along (embed : Json) (components : list string) : Prop :=
  match components with
  | [] => True
  | current :: rest =>
      match embed with
      | JDict fields =>
          match dict_get current fields with
          | Some value => dicts_along value rest
          | None => True
          end
      | _ => False
      end
  end.

End Sanitizer.

(* ===================================================================== *)
(** * Sample collaborators, used to evaluate the models *)
(* ===================================================================== *)

Module Samples.
Import Py Pubsub.

(** A websocket layer on which the push to [ws-a] writes its frame and
    then raises. *)
Definition ws_dispatch_a_raises_late (ws : string) (event : string)
           (data : Blueprints.Payload Z) (w : Demo.Wire) : result unit * Demo.Wire :=
  if String.eqb ws "ws-a" then (Raise (OtherError "ConnectionClosed"), w ++ [(ws, event)])
  else (Ok tt, w ++ [(ws, event)]).

(** A database whose [DELETE] raises for member 20. *)
Definition delete_member_but_20 (guild_id member_id : Z) (d : unit)
  : result unit * unit :=
  if member_id =? 20 then (Raise (OtherError "PostgresError"), d) else (Ok tt, d).

(** A random source that hands out the bytes it holds, then zero
    bytes. *)
Definition urandom (n : nat) (entropy : list ascii) : list ascii * list ascii :=
  (take n (entropy ++ repeat zero n), drop n entropy).

(** A generator that hands out the numbers it holds, then [1]. *)
Definition randint (rng : list Z) : Z * list Z :=
  match rng with
  | [] => (1, [])
  | number :: rest => (number, rest)
  end.

(** Decimal digits of a non-negative [n], most significant first, pushed
    in front of [acc]. *)
Fixpoint decimal (fuel : nat) (n : Z) (acc : string) : string :=
  match fuel with
  | O => acc
  | S fuel' =>
      let acc' := String (ascii_of_N (Z.to_N (48 + n mod 10))) acc in
      if n / 10 =? 0 then acc' else decimal fuel' (n / 10) acc'
  end.

(** [str(n)] for [n >= 0] *)
Definition str_of_int (n : Z) : string :=
  decimal (S (Z.to_nat (Z.log2 n))) n EmptyString.

(** An [UPDATE] that always goes through, on a database that does not
    record it. *)
Definition update_discriminator (discriminator : string) (user_id : Z)
           (db : list (string * string))
  : Errors.outcome unit * list (string * string) :=
  (Errors.Returns tt, db).

(** A users table: the (username, discriminator) pairs in use; the
    query returns and leaves the table as it is. *)
Definition fetch_existing (username discriminator : string)
           (db : list (string * string))
  : Errors.outcome bool * list (string * string) :=
  (Errors.Returns (bool_decide ((username, discriminator) ∈ db)), db).

(** A database that is down: every query raises. *)
Definition fetch_existing_down (username discriminator : string)
           (db : list (string * string))
  : Errors.outcome bool * list (string * string) :=
  (Errors.Raises Errors.KeyError, db).

(** An [UPDATE] that always hits the unique constraint. *)
Definition update_discriminator_taken (discriminator : string) (user_id : Z)
           (db : list (string * string))
  : Errors.outcome unit * list (string * string) :=
  (Errors.Raises Errors.UniqueViolationError, db).

End Samples.

(* ===================================================================== *)
(** * Theorems about discord/types.py *)
(* ===================================================================== *)

Section ColorRoundTrip.
Import Types.

Example value_orange : value (Color_init 16753920) = Some 16753920.
Proof. reflexivity. Qed.

Example format_02x_small : format_02x 10 = "0a".
Proof. reflexivity. Qed.

Example format_02x_neg : format_02x (-1) = "-1".
Proof. reflexivity. Qed.


Lemma byte_range_complete x : 0 <= x < 256 -> In x byte_range.
Proof.
  intros Hx. unfold byte_range. apply in_map_iff.
  exists (Z.to_nat x). split; [lia|]. apply in_seq. lia.
Qed.

Lemma format_02x_byte x : 0 <= x < 256 -> format_02x x = two_digits x.
Proof.
  intros Hx.
  assert (Hall : forallb (fun y => String.eqb (format_02x y) (two_digits y))
                   byte_range = true) by (vm_compute; reflexivity).
  rewrite forallb_forall in Hall.
  apply String.eqb_eq, Hall, byte_range_complete, Hx.
Qed.

Lemma hex_value_digit d : 0 <= d < 16 -> hex_value (hex_digit d) = Some d.
Proof.
  intros Hd.
  assert (d = 0 \/ d = 1 \/ d = 2 \/ d = 3 \/ d = 4 \/ d = 5 \/ d = 6
          \/ d = 7 \/ d = 8 \/ d = 9 \/ d = 10 \/ d = 11 \/ d = 12
          \/ d = 13 \/ d = 14 \/ d = 15) as Hcases by lia.
  repeat (destruct Hcases as [-> | Hcases]; [reflexivity|]).
  subst d; reflexivity.
Qed.

Lemma two_digits_append x s :
  String.append (two_digits x) s
  = String (hex_digit (x / 16)) (String (hex_digit (x mod 16)) s).
Proof. reflexivity. Qed.

(** Reading the two digits of a byte shifts the accumulator by one byte. *)
Lemma int16_digits_byte x s acc :
  0 <= x < 256 ->
  int16_digits (String.append (two_digits x) s) acc
  = int16_digits s (acc * 256 + x).
Proof.
  intros Hx. rewrite two_digits_append. cbn [int16_digits].
  rewrite !hex_value_digit.
  - f_equal. pose proof (Z.div_mod x 16). lia.
  - apply Z.mod_pos_bound; lia.
  - split; [apply Z.div_pos; lia | apply Z.div_lt_upper_bound; lia].
Qed.

Lemma two_digits_not_sign x s :
  0 <= x < 256 ->
  int16 (String.append (two_digits x) s)
  = int16_digits (String.append (two_digits x) s) 0.
Proof.
  intros Hx. rewrite two_digits_append.
  assert (Hd : 0 <= x / 16 < 16)
    by (split; [apply Z.div_pos; lia | apply Z.div_lt_upper_bound; lia]).
  assert (x / 16 = 0 \/ x / 16 = 1 \/ x / 16 = 2 \/ x / 16 = 3 \/ x / 16 = 4
          \/ x / 16 = 5 \/ x / 16 = 6 \/ x / 16 = 7 \/ x / 16 = 8
          \/ x / 16 = 9 \/ x / 16 = 10 \/ x / 16 = 11 \/ x / 16 = 12
          \/ x / 16 = 13 \/ x / 16 = 14 \/ x / 16 = 15) as Hcases by lia.
  repeat (destruct Hcases as [-> | Hcases]; [reflexivity|]).
  rewrite Hcases; reflexivity.
Qed.

Lemma land_255_byte n : 0 <= Z.land n 255 < 256.
Proof.
  change 255 with (Z.ones 8). rewrite Z.land_ones by lia.
  apply Z.mod_pos_bound. reflexivity.
Qed.

(** The value read back is the big-endian combination of the components. *)
Lemma value_components c :
  0 <= red c < 256 -> 0 <= green c < 256 -> 0 <= blue c < 256 ->
  value c = Some (red c * 65536 + green c * 256 + blue c).
Proof.
  intros Hr Hg Hb. unfold value.
  rewrite !format_02x_byte by assumption.
  rewrite two_digits_not_sign by assumption.
  rewrite !int16_digits_byte by assumption.
  replace (two_digits (blue c)) with (String.append (two_digits (blue c)) "")
    by reflexivity.
  rewrite int16_digits_byte by assumption.
  cbn [int16_digits]. f_equal. lia.
Qed.

(** C10: for every integer [v] with [0 <= v < 2^24], building [Color(v)]
    and reading its [value] property gives [v] back: splitting [v] into
    its red, green and blue bytes is undone by printing them as six
    hexadecimal digits and reading the digits as an integer. *)
Theorem color_value_roundtrip (v : Z) :
  0 <= v < 2 ^ 24 -> Types.value (Types.Color_init v) = Some v.
Proof.
  intros Hv.
  rewrite value_components by (cbn [red green blue Color_init]; apply land_255_byte).
  cbn [red green blue Color_init]. f_equal.
  change 255 with (Z.ones 8). rewrite !Z.land_ones by lia.
  rewrite !Z.shiftr_div_pow2 by lia.
  change (2 ^ 8) with 256. change (2 ^ 16) with 65536.
  change (2 ^ 24) with 16777216 in Hv.
  pose proof (Z.div_mod v 256 ltac:(lia)) as H1.
  pose proof (Z.div_mod (v / 256) 256 ltac:(lia)) as H2.
  assert (H3 : v / 65536 = v / 256 / 256)
    by (rewrite Z.div_div by lia; reflexivity).
  assert (H4 : (v / 65536) mod 256 = v / 65536).
  { apply Z.mod_small. split; [apply Z.div_pos; lia|].
    apply Z.div_lt_upper_bound; lia. }
  rewrite H4, H3. lia.
Qed.

Lemma color_value_roundtrip_witness :
  0 <= 1193046 < 2 ^ 24 /\
  Types.value (Types.Color_init 1193046) = Some 1193046.
Proof.
  split; [lia | apply (color_value_roundtrip 1193046); lia].
Defined.

End ColorRoundTrip.

(* ===================================================================== *)
(** * Theorems about discord/pubsub/dispatcher.py *)
(* ===================================================================== *)

Section DispatchStates.
Import Py Pubsub.
Context {WS Data World : Type}.
Variable ws_dispatch : WS -> string -> Data -> World -> result unit * World.

Abbreviation St := (GatewayState WS).

Lemma for_states_spec states event data res env :
  for_states ws_dispatch states event data res env
  = (Ok (res ++ map session_id (reached ws_dispatch states event data (transport env))),
     {| transport := world_after ws_dispatch states event data (transport env);
        logbook := logbook env
                   ++ repeat "error while dispatching"
                        (length (failed ws_dispatch states event data (transport env))) |}).
Proof.
  revert res env.
  induction states as [|state rest IH]; intros res [w lg]; cbn.
  - rewrite !app_nil_r. reflexivity.
  - unfold mbind, M_bind, bind, try_except, await_ws_dispatch. cbn.
    destruct (ws_dispatch (ws state) event data w) as [[[]|e] w']; cbn.
    + rewrite IH. cbn. rewrite <- app_assoc. reflexivity.
    + rewrite IH. cbn. rewrite <- app_assoc. reflexivity.
Qed.

Lemma reached_failed_length states event data w :
  (length (reached ws_dispatch states event data w)
   + length (failed ws_dispatch states event data w) = length states)%nat.
Proof.
  revert w. induction states as [|state rest IH]; intros w; cbn; [reflexivity|].
  destruct (ws_dispatch (ws state) event data w) as [[[]|e] w']; cbn;
    rewrite <- (IH w'); lia.
Qed.

(** C1: [_dispatch_states] runs the push of every state of the list, in
    order, whatever the earlier pushes did; it always returns (an
    exception raised by a push is caught and logged, once per failure);
    and the value returned is the list of the session ids of exactly
    the states whose push returned, in order. *)
Theorem dispatch_states_isolates_failures
        (states : list St) (event : string) (data : Data) (env : Env World) :
  Pubsub._dispatch_states ws_dispatch states event data env
  = (Ok (map session_id (reached ws_dispatch states event data (transport env))),
     {| transport := world_after ws_dispatch states event data (transport env);
        logbook := logbook env
                   ++ repeat "error while dispatching"
                        (length (failed ws_dispatch states event data (transport env))) |})
  /\ (length (reached ws_dispatch states event data (transport env))
      + length (failed ws_dispatch states event data (transport env))
      = length states)%nat.
Proof.
  split.
  - unfold _dispatch_states. rewrite for_states_spec. reflexivity.
  - apply reached_failed_length.
Qed.

End DispatchStates.

(** The push to the second of three states fails: the first and the third
    are reached, and one record is logged. *)
Example dispatch_states_around_a_closed_socket :
  Pubsub._dispatch_states Demo.flaky_ws_dispatch
    [Pubsub.mkState "a" "ws-a"; Pubsub.mkState "b" "ws-b"; Pubsub.mkState "c" "ws-c"]
    "MESSAGE_CREATE" (Blueprints.Ident 1) (Pubsub.mkEnv [] [])
  = (Py.Ok ["a"; "c"],
     Pubsub.mkEnv [("ws-a", "MESSAGE_CREATE"); ("ws-c", "MESSAGE_CREATE")]
                  ["error while dispatching"]).
Proof. reflexivity. Qed.

Section DispatcherWithStateFacts.
Import Py Pubsub.
Context {K V : Type} `{Countable K} `{Countable V}.
Implicit Types (state : gmap K (gset V)) (key : K) (identifier : V).

Lemma sub_run state key identifier :
  sub key identifier state
  = (Ok tt, <[key := members state key ∪ {[identifier]}]> state).
Proof.
  unfold sub, members, getitem, mbind, M_bind, bind, get, put.
  destruct (state !! key) as [m|] eqn:E; cbn; [reflexivity|].
  rewrite insert_insert_eq. reflexivity.
Qed.

Lemma unsub_run state key identifier :
  unsub key identifier state
  = (Ok tt, <[key := members state key ∖ {[identifier]}]> state).
Proof.
  unfold unsub, members, getitem, mbind, M_bind, bind, get, put.
  destruct (state !! key) as [m|] eqn:E; cbn; [reflexivity|].
  rewrite insert_insert_eq. reflexivity.
Qed.

Lemma reset_run state key : reset key state = (Ok tt, <[key := ∅]> state).
Proof. reflexivity. Qed.

Lemma remove_run state key : remove key state = (Ok tt, delete key state).
Proof.
  unfold remove, try_except, pop, mbind, M_bind, bind, ret.
  destruct (state !! key) as [m|] eqn:E; cbn; [reflexivity|].
  rewrite delete_id by assumption. reflexivity.
Qed.

Lemma getitem_value state key : (getitem key state).1 = Ok (members state key).
Proof.
  unfold getitem, members. destruct (state !! key); reflexivity.
Qed.

Lemma members_insert state key m key' :
  members (<[key := m]> state) key'
  = if decide (key = key') then m else members state key'.
Proof.
  unfold members. rewrite lookup_insert. destruct (decide (key = key')); reflexivity.
Qed.

Lemma members_insert_eq state key m : members (<[key := m]> state) key = m.
Proof. rewrite members_insert. destruct (decide (key = key)); congruence. Qed.

Lemma members_delete_eq state key : members (delete key state) key = ∅.
Proof. unfold members. rewrite lookup_delete_eq. reflexivity. Qed.

Lemma members_fresh state key : state !! key = None -> members state key = ∅.
Proof. unfold members. intros ->. reflexivity. Qed.

(** C4: a second [sub(k, s)] returns without error and leaves the whole
    table, hence the subscriber set of [k] and its size, as the first
    call left it; [s] is then in the set, which (being a set) lists every
    subscriber once.  No session takes part in [sub]. *)
Theorem sub_twice_is_sub_once state key identifier :
  let once := (Pubsub.sub key identifier state).2 in
  let twice := (Pubsub.sub key identifier once).2 in
  (Pubsub.sub key identifier state).1 = Ok tt
  /\ (Pubsub.sub key identifier once).1 = Ok tt
  /\ twice = once
  /\ members twice key = members once key
  /\ size (members twice key) = size (members once key)
  /\ identifier ∈ members once key
  /\ NoDup (elements (members once key)).
Proof.
  cbn zeta. rewrite !sub_run. cbn [fst snd].
  rewrite members_insert_eq.
  assert (Hsame : <[key := members state key ∪ {[identifier]} ∪ {[identifier]}]>
                    (<[key := members state key ∪ {[identifier]}]> state)
                  = <[key := members state key ∪ {[identifier]}]> state).
  { rewrite insert_insert_eq. f_equal. set_solver. }
  rewrite Hsame, members_insert_eq.
  repeat split; try reflexivity.
  - set_solver.
  - apply NoDup_elements.
Qed.

(** C5: [reset(k)] returns, leaves [k] bound to the empty set, and a
    following [sub(k, s)] makes the set [{s}].  [remove(k)] returns
    whether or not [k] was bound; afterwards [k] is unbound as a key
    never used, reading its members returns the empty set instead of
    raising, [sub(k, s)] binds it again to [{s}], and [unsub], [reset]
    and [remove] on it return as well. *)
Theorem reset_and_remove_are_not_poison state key identifier :
  let cleared := (Pubsub.reset key state).2 in
  let removed := (Pubsub.remove key state).2 in
  ((Pubsub.reset key state).1 = Ok tt
   /\ key ∈ dom cleared
   /\ members cleared key = ∅
   /\ (getitem key cleared).1 = Ok ∅
   /\ (Pubsub.sub key identifier cleared).1 = Ok tt
   /\ members (Pubsub.sub key identifier cleared).2 key = {[identifier]})
  /\ ((Pubsub.remove key state).1 = Ok tt
      /\ removed !! key = None
      /\ (key ∉ dom removed)
      /\ members removed key = ∅
      /\ (getitem key removed).1 = Ok ∅
      /\ (Pubsub.sub key identifier removed).1 = Ok tt
      /\ members (Pubsub.sub key identifier removed).2 key = {[identifier]}
      /\ (Pubsub.unsub key identifier removed).1 = Ok tt
      /\ (Pubsub.reset key removed).1 = Ok tt
      /\ (Pubsub.remove key removed).1 = Ok tt).
Proof.
  cbn zeta. rewrite reset_run, remove_run. cbn [fst snd].
  rewrite !sub_run, !getitem_value, unsub_run, remove_run, reset_run.
  cbn [fst snd].
  rewrite !members_insert_eq, !members_delete_eq.
  repeat split.
  - rewrite dom_insert_L. set_solver.
  - set_solver.
  - apply lookup_delete_eq.
  - rewrite dom_delete_L. set_solver.
  - set_solver.
Qed.

(** C6: [unsub(k, s)] always returns.  When [s] is not subscribed to
    [k], and so in particular when [k] was never bound, the members of
    every key stay what they were.  A second [unsub(k, s)] leaves the
    table as the first one left it. *)
Theorem unsub_absent_is_harmless state key identifier :
  let once := (Pubsub.unsub key identifier state).2 in
  (Pubsub.unsub key identifier state).1 = Ok tt
  /\ (identifier ∉ members state key ->
      forall key', members once key' = members state key')
  /\ (state !! key = None ->
      forall key', members once key' = members state key')
  /\ (Pubsub.unsub key identifier once).1 = Ok tt
  /\ (Pubsub.unsub key identifier once).2 = once
  /\ identifier ∉ members once key.
Proof.
  cbn zeta. rewrite !unsub_run. cbn [fst snd].
  assert (Habsent : identifier ∉ members state key ->
                    forall key', members (<[key := members state key ∖ {[identifier]}]> state) key'
                                 = members state key').
  { intros Hnot key'. rewrite members_insert.
    destruct (decide (key = key')) as [<-|]; [set_solver | reflexivity]. }
  repeat split.
  - exact Habsent.
  - intros Hfresh. apply Habsent. rewrite members_fresh by assumption. set_solver.
  - rewrite members_insert_eq, insert_insert_eq. f_equal. set_solver.
  - rewrite members_insert_eq. set_solver.
Qed.

Lemma members_unsub_other state key identifier key' :
  key <> key' ->
  members (Pubsub.unsub key identifier state).2 key' = members state key'.
Proof.
  intros Hne. rewrite unsub_run. cbn [snd]. rewrite members_insert.
  destruct (decide (key = key')); [contradiction | reflexivity].
Qed.

End DispatcherWithStateFacts.

Lemma unsub_absent_is_harmless_witness :
  20 ∉ Pubsub.members ({[ 1 := {[ 10 ]} ]} : gmap Z (gset Z)) 1
  /\ Pubsub.members (Pubsub.unsub 1 20 ({[ 1 := {[ 10 ]} ]} : gmap Z (gset Z))).2 1
     = Pubsub.members ({[ 1 := {[ 10 ]} ]} : gmap Z (gset Z)) 1.
Proof.
  assert (Hnot : 20 ∉ Pubsub.members ({[ 1 := {[ 10 ]} ]} : gmap Z (gset Z)) 1)
    by (vm_compute; set_solver).
  split; [exact Hnot|].
  exact (proj1 (proj2 (unsub_absent_is_harmless {[ 1 := {[ 10 ]} ]} 1 20)) Hnot 1).
Defined.

(* ===================================================================== *)
(** * Theorems about discord/gateway/gateway.py *)
(* ===================================================================== *)

Section GatewayFacts.
Import Py Gateway.
Variable url_query : string -> result string.
Variable is_separator : ascii -> bool.
Variable unquote : string -> string.

Abbreviation handler := (websocket_handler url_query is_separator unquote).
Abbreviation requested := (Gateway.requested is_separator unquote).
Abbreviation omits := (Gateway.omits is_separator unquote).
Abbreviation unsupported := (Gateway.unsupported is_separator unquote).

Lemma first_value_or_default (args : gmap string (list string)) name dflt trace :
  try_except (values ← dict_getitem args name; list_getitem0 values)
             is_KeyError_or_IndexError (ret dflt) trace
  = (Ok (default dflt (args !! name ≫= head)), trace).
Proof.
  unfold try_except, mbind, M_bind, bind, dict_getitem.
  destruct (args !! name) as [[|value values]|]; reflexivity.
Qed.

Lemma first_value_or_None (args : gmap string (list string)) name trace :
  try_except (values ← dict_getitem args name;
              value ← list_getitem0 values;
              ret (Some value))
             is_KeyError_or_IndexError (ret None) trace
  = (Ok (args !! name ≫= head), trace).
Proof.
  unfold try_except, mbind, M_bind, bind, dict_getitem.
  destruct (args !! name) as [[|value values]|]; reflexivity.
Qed.

(** Once [urlparse] has returned the query, the handler resolves the
    three parameters, with their defaults, and then decides. *)
Lemma websocket_handler_run url query trace :
  url_query url = Ok query ->
  handler url trace
  = (Ok tt,
     trace ++ negotiate (default "6" (requested query "v"))
                        (default "json" (requested query "encoding"))
                        (requested query "compress")).
Proof.
  intros Hquery. unfold websocket_handler, requested, negotiate.
  unfold mbind at 1, M_bind at 1, bind at 1, urlparse_query. rewrite Hquery.
  unfold mbind at 1, M_bind at 1, bind at 1.
  rewrite first_value_or_default.
  unfold mbind at 1, M_bind at 1, bind at 1.
  rewrite first_value_or_default.
  destruct (negb (in_tuple _ ["6"; "7"])); [reflexivity|].
  destruct (negb (in_tuple _ ["json"; "etf"])); [reflexivity|].
  unfold mbind at 1, M_bind at 1, bind at 1.
  rewrite first_value_or_None.
  destruct (truthy _ && _); [reflexivity|].
  unfold mbind, M_bind, bind, emit. cbn. rewrite <- app_assoc. reflexivity.
Qed.

(** The exception of [urlparse] leaves the handler, which has done
    nothing by then. *)
Lemma websocket_handler_raise url e trace :
  url_query url = Raise e -> handler url trace = (Raise e, trace).
Proof.
  intros Hquery. unfold websocket_handler.
  unfold mbind at 1, M_bind at 1, bind at 1, urlparse_query. rewrite Hquery.
  reflexivity.
Qed.

Lemma parse_qs_step_other parsed pair name :
  pair.1 <> name -> parse_qs_step parsed pair !! name = parsed !! name.
Proof.
  intros Hne. unfold parse_qs_step.
  destruct (parsed !! pair.1); rewrite lookup_insert_ne; auto.
Qed.

Lemma fold_parse_qs_step_absent pairs parsed name :
  Forall (fun pair => pair.1 <> name) pairs ->
  fold_left parse_qs_step pairs parsed !! name = parsed !! name.
Proof.
  intros Hall. revert parsed.
  induction Hall as [|pair pairs Hne _ IH]; intros parsed; cbn; [reflexivity|].
  rewrite IH. apply parse_qs_step_other, Hne.
Qed.

Lemma omits_no_pair query name :
  omits query name = true ->
  Forall (fun pair => pair.1 <> name) (parse_qsl is_separator unquote query).
Proof.
  unfold omits, parse_qsl. intros Hom.
  rewrite forallb_forall in Hom.
  apply Forall_forall. intros [n v] Hin.
  apply list_elem_of_omap in Hin as (field & Hfield & Hparse).
  apply list_elem_of_In in Hfield. specialize (Hom field Hfield).
  unfold parse_field in Hparse.
  destruct (split_once "=" field) as [raw [value|]]; [|discriminate].
  destruct (String.eqb value "") eqn:Hblank; [discriminate|].
  injection Hparse as <- <-. cbn.
  destruct (String.eqb (unquote raw) name) eqn:Hname; [congruence|].
  apply String.eqb_neq, Hname.
Qed.

(** An omitted parameter is not in the parsed arguments. *)
Lemma omits_not_requested query name :
  omits query name = true -> requested query name = None.
Proof.
  intros Hom. unfold requested, parse_qs.
  rewrite fold_parse_qs_step_absent by (apply omits_no_pair, Hom).
  reflexivity.
Qed.

Lemma negotiate_default_version encoding compress :
  negotiate "6" encoding compress <> [WsClose 1000 "Invalid gateway version"].
Proof.
  unfold negotiate. cbn [in_tuple existsb].
  change (String.eqb "6" "6") with true. cbn [orb negb].
  repeat match goal with |- context [if ?b then _ else _] => destruct b end;
    discriminate.
Qed.

Lemma negotiate_default_encoding v compress :
  negotiate v "json" compress <> [WsClose 1000 "Invalid gateway encoding"].
Proof.
  unfold negotiate.
  change (in_tuple "json" ["json"; "etf"]) with true. cbn [negb].
  repeat match goal with |- context [if ?b then _ else _] => destruct b end;
    discriminate.
Qed.

Lemma negotiate_default_compress v encoding :
  negotiate v encoding None <> [WsClose 1000 "Invalid gateway compress"].
Proof.
  unfold negotiate. cbn [truthy andb].
  repeat match goal with |- context [if ?b then _ else _] => destruct b end;
    discriminate.
Qed.

Lemma negotiate_spawn v encoding compress v' encoding' compress' :
  negotiate v encoding compress
  = [NewGatewayWebsocket v' encoding' compress'; GwsRun] ->
  v' = v /\ encoding' = encoding /\ compress' = compress.
Proof.
  unfold negotiate.
  repeat match goal with |- context [if ?b then _ else _] => destruct b end;
    intros Heq; try discriminate.
  injection Heq as <- <- <-. auto.
Qed.


Lemma in_tuple_2 x a b :
  in_tuple x [a; b] = true <-> x = a \/ x = b.
Proof.
  unfold in_tuple. cbn [existsb].
  rewrite orb_false_r, orb_true_iff, !String.eqb_eq. reflexivity.
Qed.

Lemma in_tuple_1 x a : in_tuple x [a] = true <-> x = a.
Proof.
  unfold in_tuple. cbn [existsb].
  rewrite orb_false_r, String.eqb_eq. reflexivity.
Qed.

Section Negotiation.
(** Percent-decoding never turns a non-blank text into a blank one. *)
Hypothesis unquote_nonempty : forall s, s <> EmptyString -> unquote s <> EmptyString.

Lemma parse_qsl_values_nonblank qs :
  Forall (fun pair => pair.2 <> EmptyString) (parse_qsl is_separator unquote qs).
Proof.
  apply Forall_forall. intros [n v] Hin. unfold parse_qsl in Hin.
  apply list_elem_of_omap in Hin as (field & _ & Hparse).
  unfold parse_field in Hparse.
  destruct (split_once "=" field) as [raw [value|]]; [|discriminate].
  destruct (String.eqb_spec value ""); [discriminate|].
  injection Hparse as <- <-. cbn. auto.
Qed.

Lemma parse_qs_step_head_nonblank parsed pair :
  pair.2 <> EmptyString -> head_nonblank parsed ->
  head_nonblank (parse_qs_step parsed pair).
Proof.
  intros Hpair Hinv name. unfold parse_qs_step.
  destruct (parsed !! pair.1) as [values|] eqn:Hlook.
  - rewrite lookup_insert. destruct (decide (pair.1 = name)) as [<-|]; [|apply Hinv].
    specialize (Hinv pair.1). rewrite Hlook in Hinv.
    destruct values; cbn in *; congruence.
  - rewrite lookup_insert. destruct (decide (pair.1 = name)); [|apply Hinv].
    cbn. congruence.
Qed.

Lemma fold_parse_qs_step_head_nonblank pairs parsed :
  Forall (fun pair => pair.2 <> EmptyString) pairs -> head_nonblank parsed ->
  head_nonblank (fold_left parse_qs_step pairs parsed).
Proof.
  intros Hall. revert parsed.
  induction Hall as [|pair pairs Hpair _ IH]; intros parsed Hinv; cbn; [exact Hinv|].
  apply IH, parse_qs_step_head_nonblank; assumption.
Qed.

(** No parameter is ever requested with a blank value. *)
Lemma requested_nonblank query name : requested query name <> Some EmptyString.
Proof.
  unfold requested, parse_qs.
  apply fold_parse_qs_step_head_nonblank.
  - apply parse_qsl_values_nonblank.
  - intros n. rewrite lookup_empty. discriminate.
Qed.

Lemma websocket_handler_cases url query :
  url_query url = Ok query ->
  (unsupported query
   /\ exists reason, reason <> EmptyString
                     /\ handler url [] = (Ok tt, [WsClose 1000 reason]))
  \/ (~ unsupported query
      /\ handler url []
         = (Ok tt, [NewGatewayWebsocket (default "6" (requested query "v"))
                                        (default "json" (requested query "encoding"))
                                        (requested query "compress");
                    GwsRun])).
Proof.
  intros Hquery.
  rewrite (websocket_handler_run url query [] Hquery). cbn [app].
  unfold negotiate, unsupported.
  pose proof (requested_nonblank query "compress") as Hblank.
  destruct (in_tuple (default "6" (requested query "v")) ["6"; "7"]) eqn:Hv; cbn [negb].
  2:{ left. split; [|eexists; split; [|reflexivity]; discriminate].
      left. destruct (requested query "v") as [v|]; [|discriminate].
      exists v. split; [reflexivity|]. cbn in Hv.
      split; intros ->; discriminate. }
  destruct (in_tuple (default "json" (requested query "encoding")) ["json"; "etf"])
    eqn:He; cbn [negb].
  2:{ left. split; [|eexists; split; [|reflexivity]; discriminate].
      right; left. destruct (requested query "encoding") as [e|]; [|discriminate].
      exists e. split; [reflexivity|]. cbn in He.
      split; intros ->; discriminate. }
  destruct (requested query "compress") as [c|] eqn:Hc; cbn [truthy default from_option id andb].
  - destruct (String.eqb_spec c ""); [congruence|]. cbn [negb andb].
    destruct (in_tuple c ["zlib-stream"]) eqn:Hz; cbn [negb].
    + right. split; [|reflexivity].
      apply in_tuple_2 in Hv, He. apply in_tuple_1 in Hz.
      intros [(v & Hreq & H6 & H7) | [(e & Hreq & Hj & Hetf) | (c' & Hreq & Hne)]].
      * rewrite Hreq in Hv. cbn in Hv. tauto.
      * rewrite Hreq in He. cbn in He. tauto.
      * congruence.
    + left. split; [|eexists; split; [|reflexivity]; discriminate].
      right; right. exists c. split; [reflexivity|].
      intros ->. discriminate.
  - right. split; [|reflexivity].
    apply in_tuple_2 in Hv, He.
    intros [(v & Hreq & H6 & H7) | [(e & Hreq & Hj & Hetf) | (c' & Hreq & Hne)]].
    + rewrite Hreq in Hv. cbn in Hv. tauto.
    + rewrite Hreq in He. cbn in He. tauto.
    + discriminate.
Qed.

(** C7, as amended: for every connection URL that [urlparse] accepts,
    [query] being the query string it returns, the handler closes the
    websocket with code 1000 and a reason, doing nothing else (no
    gateway object is built), exactly when the requested version is
    neither ['6'] nor ['7'], or the requested encoding is neither
    ['json'] nor the binary encoding ['etf'], or a compression other
    than ['zlib-stream'] is requested; for every other such URL it
    builds a [GatewayWebsocket] with the negotiated parameters and runs
    it. *)
Theorem websocket_handler_closes_iff_unsupported (url query : string) :
  url_query url = Ok query ->
  (unsupported query <->
   exists reason, reason <> EmptyString
                  /\ Gateway.websocket_handler url_query is_separator unquote url []
                     = (Ok tt, [WsClose 1000 reason]))
  /\ (~ unsupported query <->
      Gateway.websocket_handler url_query is_separator unquote url []
      = (Ok tt, [NewGatewayWebsocket (default "6" (requested query "v"))
                                     (default "json" (requested query "encoding"))
                                     (requested query "compress");
                 GwsRun])).
Proof.
  intros Hquery.
  destruct (websocket_handler_cases url query Hquery)
    as [[Hbad (reason & Hreason & Hrun)] | [Hgood Hrun]].
  - split; split.
    + intros _. exists reason. auto.
    + intros _. exact Hbad.
    + intros Hnot. contradiction.
    + intros Heq. rewrite Hrun in Heq. discriminate.
  - split; split.
    + intros Hbad. contradiction.
    + intros (reason & _ & Heq). rewrite Hrun in Heq. discriminate.
    + intros _. exact Hrun.
    + intros _. exact Hgood.
Qed.
End Negotiation.
End GatewayFacts.

Example handler_accepts_default_url :
  Gateway.websocket_handler Gateway.query_component (Ascii.eqb "&") (fun s => s)
    "ws://localhost:5001/?v=6&encoding=json" []
  = (Py.Ok tt, [Gateway.NewGatewayWebsocket "6" "json" None; Gateway.GwsRun]).
Proof. vm_compute. reflexivity. Qed.

Example handler_rejects_version_5 :
  Gateway.websocket_handler Gateway.query_component (Ascii.eqb "&") (fun s => s)
    "ws://localhost:5001/?v=5&encoding=json" []
  = (Py.Ok tt, [Gateway.WsClose 1000 "Invalid gateway version"]).
Proof. vm_compute. reflexivity. Qed.

Example handler_accepts_etf_zlib :
  Gateway.websocket_handler Gateway.query_component (Ascii.eqb "&") (fun s => s)
    "/?encoding=etf&v=7&compress=zlib-stream" []
  = (Py.Ok tt, [Gateway.NewGatewayWebsocket "7" "etf" (Some "zlib-stream");
                Gateway.GwsRun]).
Proof. vm_compute. reflexivity. Qed.

Example query_component_of_a_bracketed_host :
  Gateway.query_component "ws://[::1]:5001/?v=6" = Py.Ok "v=6".
Proof. reflexivity. Qed.

Example query_component_of_an_open_bracket :
  Gateway.query_component "ws://[::1/?v=6" = Py.Raise Py.ValueError.
Proof. reflexivity. Qed.

(** A URL whose network location opens a bracket and does not close it:
    [urlparse] raises [ValueError], which leaves the handler; the
    websocket is not closed and no gateway is built, although the URL
    requests nothing the gateway does not serve. *)
Lemma websocket_handler_raises_on_open_bracket :
  Gateway.websocket_handler Gateway.query_component (Ascii.eqb "&") (fun s => s)
    "ws://[::1/?v=6" []
  = (Py.Raise Py.ValueError, [])
  /\ (forall reason,
         Gateway.websocket_handler Gateway.query_component (Ascii.eqb "&") (fun s => s)
           "ws://[::1/?v=6" []
         <> (Py.Ok tt, [Gateway.WsClose 1000 reason]))
  /\ (forall v encoding compress,
         Gateway.websocket_handler Gateway.query_component (Ascii.eqb "&") (fun s => s)
           "ws://[::1/?v=6" []
         <> (Py.Ok tt, [Gateway.NewGatewayWebsocket v encoding compress; Gateway.GwsRun])).
Proof.
  assert (Hrun : Gateway.websocket_handler Gateway.query_component (Ascii.eqb "&")
                   (fun s => s) "ws://[::1/?v=6" []
                 = (Py.Raise Py.ValueError, [])) by reflexivity.
  split; [exact Hrun|]. rewrite Hrun. split; intros; discriminate.
Qed.


Lemma websocket_handler_closes_iff_unsupported_witness :
  (forall s : string, s <> EmptyString -> (fun s => s) s <> EmptyString)
  /\ Gateway.query_component "/?v=6&encoding=json&compress=gzip"
     = Py.Ok "v=6&encoding=json&compress=gzip"
  /\ Gateway.unsupported (Ascii.eqb "&") (fun s => s) "v=6&encoding=json&compress=gzip"
  /\ exists reason,
      reason <> EmptyString
      /\ Gateway.websocket_handler Gateway.query_component (Ascii.eqb "&") (fun s => s)
           "/?v=6&encoding=json&compress=gzip" []
         = (Py.Ok tt, [Gateway.WsClose 1000 reason]).
Proof.
  assert (Hid : forall s : string, s <> EmptyString -> (fun s => s) s <> EmptyString)
    by (intros s Hs; exact Hs).
  assert (Hquery : Gateway.query_component "/?v=6&encoding=json&compress=gzip"
                   = Py.Ok "v=6&encoding=json&compress=gzip") by reflexivity.
  assert (Hbad : Gateway.unsupported (Ascii.eqb "&") (fun s => s)
                   "v=6&encoding=json&compress=gzip").
  { right; right. exists "gzip". split; [vm_compute; reflexivity | discriminate]. }
  split; [exact Hid|]. split; [exact Hquery|]. split; [exact Hbad|].
  exact (proj1 (proj1 (websocket_handler_closes_iff_unsupported
                         Gateway.query_component (Ascii.eqb "&") (fun s => s) Hid
                         "/?v=6&encoding=json&compress=gzip"
                         "v=6&encoding=json&compress=gzip" Hquery)) Hbad).
Defined.

(* ===================================================================== *)
(** * Theorems about the event dispatcher and the blueprints *)
(* ===================================================================== *)

Section FacadeFacts.
Import Py Pubsub EventDispatcher.
Context {WS Data World Lazy : Type}.
Variable ws_dispatch : WS -> string -> Data -> World -> result unit * World.

Abbreviation AppT := (App WS World Lazy).
Abbreviation never_fails := (EventDispatcher.never_fails ws_dispatch).

Lemma with_io_with_io (app : AppT) e e' : with_io (with_io app e) e' = with_io app e'.
Proof. reflexivity. Qed.

Lemma with_io_id (app : AppT) : with_io app (io app) = app.
Proof. destruct app; reflexivity. Qed.

Lemma not_yet_true seen sid : not_yet seen sid = true <-> sid ∉ seen.
Proof.
  unfold not_yet. rewrite negb_true_iff, <- not_true_iff_false, existsb_exists.
  split.
  - intros Hno Hin. apply Hno. exists sid. split.
    + apply list_elem_of_In, Hin.
    + apply String.eqb_refl.
  - intros Hno (x & Hin & Heq). apply String.eqb_eq in Heq as ->.
    apply Hno, list_elem_of_In, Hin.
Qed.

Lemma map_fmap {A B} (f : A -> B) (l : list A) : map f l = f <$> l.
Proof. induction l as [|x l IH]; cbn; [reflexivity | f_equal; exact IH]. Qed.

Lemma sublist_map {A B} (f : A -> B) (l1 l2 : list A) :
  sublist l1 l2 -> sublist (map f l1) (map f l2).
Proof. rewrite !map_fmap. apply fmap_sublist. Qed.

Lemma reached_sublist states event data w :
  sublist (reached ws_dispatch states event data w) states.
Proof.
  revert w. induction states as [|state rest IH]; intros w; cbn; [constructor|].
  destruct (ws_dispatch (ws state) event data w) as [[[]|e] w']; cbn.
  - apply sublist_skip, IH.
  - apply sublist_cons, IH.
Qed.

Lemma reached_never_fails states event data w :
  never_fails -> reached ws_dispatch states event data w = states.
Proof.
  intros Hok. revert w. induction states as [|state rest IH]; intros w; cbn; [reflexivity|].
  specialize (Hok (ws state) event data w).
  destruct (ws_dispatch (ws state) event data w) as [[[]|e] w']; cbn in *;
    [f_equal; apply IH | discriminate].
Qed.

Lemma dispatch_states_on_io states event data (app : AppT) :
  exists env',
    on_io (_dispatch_states ws_dispatch states event data) app
    = (Ok (map session_id (reached ws_dispatch states event data
                                   (transport (io app)))),
       with_io app env').
Proof.
  unfold on_io, _dispatch_states. rewrite for_states_spec. cbn.
  eexists. reflexivity.
Qed.

Lemma for_subscribers_spec users keep event data res (app : AppT) :
  exists ids env',
    for_subscribers ws_dispatch users keep event data res app
    = (Ok (res ++ ids), with_io app env')
    /\ sublist ids (candidates app users keep)
    /\ (never_fails -> ids = candidates app users keep).
Proof.
  revert res app. induction users as [|u rest IH]; intros res app; cbn.
  - exists [], (io app). rewrite app_nil_r, with_io_id.
    repeat split; constructor.
  - unfold mbind at 1, M_bind at 1, bind at 1, get.
    unfold mbind at 1, M_bind at 1, bind at 1.
    destruct (dispatch_states_on_io
                (filter (fun st => keep st = true) (sessions_for_user app u))
                event data app) as (env1 & ->).
    destruct (IH (res ++ map session_id
                    (reached ws_dispatch
                       (filter (fun st => keep st = true) (sessions_for_user app u))
                       event data (transport (io app))))
                 (with_io app env1)) as (ids & env2 & Hrun & Hsub & Hall).
    rewrite Hrun. eexists; exists env2. rewrite <- app_assoc.
    split; [reflexivity|]. split.
    + apply sublist_app; [|exact Hsub].
      apply sublist_map, reached_sublist.
    + intros Hok. rewrite (Hall Hok), reached_never_fails by assumption.
      reflexivity.
Qed.

Lemma elem_of_candidates (app : AppT) users keep sid :
  sid ∈ candidates app users keep
  <-> exists u st, u ∈ users /\ st ∈ sessions_for_user app u
                   /\ keep st = true /\ session_id st = sid.
Proof.
  unfold candidates. rewrite list_elem_of_In, in_flat_map. split.
  - intros (u & Hu & Hin). apply in_map_iff in Hin as (st & Hsid & Hst).
    apply list_elem_of_In, list_elem_of_filter in Hst as [Hkeep Hst].
    exists u, st. rewrite list_elem_of_In. auto.
  - intros (u & st & Hu & Hst & Hkeep & Hsid).
    exists u. split; [apply list_elem_of_In, Hu|].
    apply in_map_iff. exists st. split; [exact Hsid|].
    apply list_elem_of_In, list_elem_of_filter. auto.
Qed.

Lemma candidates_NoDup (app : AppT) users keep :
  registry_ok (state_manager app) -> NoDup users ->
  NoDup (candidates app users keep).
Proof.
  intros [Huser Hcross] Hnd.
  induction Hnd as [|u rest Hnotin Hnd IH]; cbn; [constructor|].
  apply NoDup_app. split; [|split; [|exact IH]].
  - eapply sublist_NoDup; [|apply sublist_map, sublist_filter].
    unfold sessions_for_user.
    destruct (state_manager app !! u) as [l|] eqn:Hl; cbn; [|constructor].
    eapply Huser, Hl.
  - intros sid Hin Hrest.
    apply elem_of_candidates in Hrest as (u' & st' & Hu' & Hst' & _ & Hsid').
    apply list_elem_of_In, in_map_iff in Hin as (st & Hsid & Hst).
    apply list_elem_of_In, list_elem_of_filter in Hst as [_ Hst].
    unfold sessions_for_user in Hst, Hst'.
    destruct (state_manager app !! u) as [l|] eqn:Hl; cbn in Hst;
      [|apply elem_of_nil in Hst; contradiction].
    destruct (state_manager app !! u') as [l'|] eqn:Hl'; cbn in Hst';
      [|apply elem_of_nil in Hst'; contradiction].
    assert (u = u') as ->.
    { apply (Hcross u u' l l' sid Hl Hl').
      - rewrite map_fmap. apply list_elem_of_fmap. exists st. auto.
      - rewrite map_fmap. apply list_elem_of_fmap. exists st'. auto. }
    contradiction.
Qed.

Lemma dispatch_filter_spec namespace key func event data (app : AppT) :
  exists ids env',
    dispatch_filter ws_dispatch namespace key func event data app
    = (Ok ids, with_io app env')
    /\ sublist ids (candidates app (elements (members (table app namespace) key))
                               (fun st => func (session_id st)))
    /\ (never_fails ->
        ids = candidates app (elements (members (table app namespace) key))
                         (fun st => func (session_id st))).
Proof.
  unfold dispatch_filter, mbind, M_bind, bind, get.
  destruct (for_subscribers_spec
              (elements (members (table app namespace) key))
              (fun st => func (session_id st)) event data [] app)
    as (ids & env' & Hrun & Hsub & Hall).
  exists ids, env'. rewrite Hrun. auto.
Qed.

Lemma for_keys_filter_list_spec namespace keys already event data reached (app : AppT) :
  registry_ok (state_manager app) ->
  NoDup reached -> (forall sid, sid ∈ reached -> sid ∉ already) ->
  exists new env',
    for_keys_filter_list ws_dispatch namespace keys already event data reached app
    = (Ok (reached ++ new), with_io app env')
    /\ NoDup (reached ++ new)
    /\ (forall sid, sid ∈ new -> sid ∉ already /\ reachable app namespace keys sid)
    /\ (never_fails ->
        forall sid, reachable app namespace keys sid ->
                    sid ∈ already ++ reached ++ new).
Proof.
  intros Hreg. revert reached app Hreg.
  induction keys as [|key rest IH]; intros reached app Hreg Hnd Hdisj; cbn.
  - exists [], (io app). rewrite app_nil_r, with_io_id.
    split; [reflexivity|]. split; [exact Hnd|]. split.
    + intros sid Hin. apply elem_of_nil in Hin. contradiction.
    + intros _ sid (key & u & st & Hkey & _). apply elem_of_nil in Hkey. contradiction.
  - unfold mbind at 1, M_bind at 1, bind at 1.
    destruct (dispatch_filter_spec namespace key (not_yet (already ++ reached))
                event data app) as (ids & env1 & Hrun & Hsub & Hall).
    rewrite Hrun.
    assert (Hids : forall sid, sid ∈ ids ->
              sid ∉ already ++ reached /\ reachable app namespace [key] sid).
    { intros sid Hin. eapply elem_of_sublist in Hin; [|exact Hsub].
      apply elem_of_candidates in Hin as (u & st & Hu & Hst & Hkeep & Hsid).
      subst sid. split; [apply not_yet_true, Hkeep|].
      exists key, u, st. rewrite elem_of_elements in Hu.
      repeat split; auto. apply list_elem_of_singleton. reflexivity. }
    assert (Hnd_ids : NoDup ids).
    { eapply sublist_NoDup; [|exact Hsub].
      apply candidates_NoDup; [exact Hreg | apply NoDup_elements]. }
    destruct (IH (reached ++ ids) (with_io app env1)) as (new & env2 & Hrun2 & Hnd2 & Hnew & Hcomplete).
    + exact Hreg.
    + apply NoDup_app. split; [exact Hnd|]. split; [|exact Hnd_ids].
      intros sid Hin Hin'. apply Hids in Hin' as [Hnot _].
      apply Hnot, elem_of_app. auto.
    + intros sid Hin. apply elem_of_app in Hin as [Hin|Hin]; [apply Hdisj, Hin|].
      apply Hids in Hin as [Hnot _]. intros Hal. apply Hnot, elem_of_app. auto.
    + rewrite Hrun2. exists (ids ++ new), env2. rewrite app_assoc.
      split; [reflexivity|]. split; [exact Hnd2|]. split.
      * intros sid Hin. apply elem_of_app in Hin as [Hin|Hin].
        -- apply Hids in Hin as [Hnot (k & u & st & Hk & Hrest)]. split.
           ++ intros Hal. apply Hnot, elem_of_app. auto.
           ++ apply list_elem_of_singleton in Hk as ->.
              exists key, u, st. split; [left|exact Hrest].
        -- apply Hnew in Hin as [Hnot (k & u & st & Hk & Hrest)].
           split; [exact Hnot|]. exists k, u, st. split; [right; exact Hk|exact Hrest].
      * intros Hok sid (k & u & st & Hk & Hu & Hst & Hsid).
        apply elem_of_cons in Hk as [->|Hk].
        -- destruct (decide (sid ∈ already ++ reached)) as [Hseen|Hfresh].
           ++ rewrite app_assoc. apply elem_of_app. left.
              rewrite app_assoc. apply elem_of_app. left. exact Hseen.
           ++ rewrite app_assoc. apply elem_of_app. left.
              rewrite app_assoc. apply elem_of_app. right.
              rewrite (Hall Hok). apply elem_of_candidates.
              exists u, st. rewrite elem_of_elements.
              repeat split; auto. subst sid. apply not_yet_true, Hfresh.
        -- rewrite <- app_assoc in Hcomplete.
           specialize (Hcomplete Hok sid). rewrite !app_assoc in *.
           apply Hcomplete. exists k, u, st. auto.
Qed.

Lemma deliveries_not_in sid ids : sid ∉ ids -> deliveries sid ids = 0%nat.
Proof.
  unfold deliveries. induction ids as [|x ids IH]; intros Hnot; [reflexivity|].
  apply not_elem_of_cons in Hnot as [Hne Hnot].
  rewrite filter_cons_False by congruence. apply IH, Hnot.
Qed.

Lemma deliveries_NoDup_in sid ids :
  NoDup ids -> sid ∈ ids -> deliveries sid ids = 1%nat.
Proof.
  unfold deliveries. induction 1 as [|x ids Hnotin Hnd IH]; intros Hin.
  - apply elem_of_nil in Hin. contradiction.
  - apply elem_of_cons in Hin as [->|Hin].
    + rewrite filter_cons_True by reflexivity. cbn.
      f_equal. apply deliveries_not_in, Hnotin.
    + rewrite filter_cons_False by (intros ->; contradiction). apply IH, Hin.
Qed.

Lemma deliveries_NoDup_le sid ids : NoDup ids -> (deliveries sid ids <= 1)%nat.
Proof.
  intros Hnd. destruct (decide (sid ∈ ids)).
  - rewrite deliveries_NoDup_in by assumption. lia.
  - rewrite deliveries_not_in by assumption. lia.
Qed.

End FacadeFacts.

Section BlueprintFacts.
Import Py Pubsub EventDispatcher Blueprints.
Context {WS World Lazy DB User : Type}.

Abbreviation PayloadT := (Payload User).
Abbreviation StateT := (GatewayState WS).
Abbreviation ServerApp := (App WS World Lazy).

Variable ws_dispatch : WS -> string -> PayloadT -> World -> result unit * World.
Variable lazy_guild_dispatch :
  Z -> string -> PayloadT -> gmap Z (list StateT) ->
  Lazy * Env World -> result unit * (Lazy * Env World).
Variable push_user_guild :
  Z -> Z -> string -> PayloadT -> gmap Z (list StateT) ->
  Env World -> result (list string) * Env World.
Variable delete_member : Z -> Z -> DB -> result unit * DB.
Variable get_user : DB -> Z -> bool -> User.

Lemma table_insert_eq (app : ServerApp) namespace t (lz : Lazy) (e : Env World) :
  table ({| backends := <[namespace := t]> (backends app);
            state_manager := state_manager app;
            lazy_guild := lz; io := e |} : ServerApp) namespace = t.
Proof. unfold table. cbn. rewrite lookup_insert_eq. reflexivity. Qed.


Variable get_user_guilds : DB -> Z -> list Z.
Variable get_friend_ids : DB -> Z -> list Z.

Lemma dispatch_user_spec user_id event data (app : ServerApp) :
  exists ids env',
    dispatch_user ws_dispatch user_id event data app = (Ok ids, with_io app env')
    /\ sublist ids (map session_id (sessions_for_user app user_id))
    /\ (never_fails ws_dispatch ->
        ids = map session_id (sessions_for_user app user_id)).
Proof.
  unfold dispatch_user, mbind, M_bind, bind, get.
  destruct (dispatch_states_on_io ws_dispatch (sessions_for_user app user_id)
                                  event data app) as (env' & Hrun).
  rewrite Hrun. eexists; exists env'. split; [reflexivity|]. split.
  - apply sublist_map, reached_sublist.
  - intros Hok. rewrite reached_never_fails by assumption. reflexivity.
Qed.

Lemma sessions_for_user_NoDup (app : ServerApp) user_id :
  registry_ok (state_manager app) ->
  NoDup (map session_id (sessions_for_user app user_id)).
Proof.
  intros [Huser _]. unfold sessions_for_user.
  destruct (state_manager app !! user_id) as [l|] eqn:Hl; cbn; [|constructor].
  eapply Huser, Hl.
Qed.

(** [mass_user_update]: over the direct dispatch to the user and the
    two filtered dispatches to the guild keys and the friend keys, no
    session is reached twice; when no push fails every session of the
    user, of a subscriber of one of the guilds or of one of the friend
    keys is reached exactly once. *)
Lemma mass_user_update_sessions_once user_id (d : DB) (app : ServerApp) :
  registry_ok (state_manager app) ->
  exists ids env',
    mass_user_update_sessions ws_dispatch get_user get_user_guilds
                              get_friend_ids user_id (d, app)
    = (Ok (ids, get_user d user_id true, get_user_guilds d user_id),
       (d, with_io app env'))
    /\ (forall sid, (deliveries sid ids <= 1)%nat)
    /\ (never_fails ws_dispatch ->
        forall sid,
          sid ∈ map session_id (sessions_for_user app user_id)
          \/ reachable app "guild" (get_user_guilds d user_id) sid
          \/ reachable app "friend" (get_friend_ids d user_id) sid ->
          deliveries sid ids = 1%nat).
Proof.
  intros Hreg. unfold mass_user_update_sessions.
  unfold mbind at 1, M_bind at 1, bind at 1, get. cbn [fst snd].
  unfold mbind at 1, M_bind at 1, bind at 1, on_app. cbn [fst snd].
  destruct (dispatch_user_spec user_id "USER_UPDATE"
              (UserObject (get_user d user_id true)) app)
    as (ids0 & env0 & Hrun0 & Hsub0 & Hall0).
  rewrite Hrun0. cbn [fst snd].
  assert (Hnd0 : NoDup ids0).
  { eapply sublist_NoDup; [|exact Hsub0]. apply sessions_for_user_NoDup, Hreg. }
  unfold mbind at 1, M_bind at 1, bind at 1, get. cbn [fst snd].
  unfold mbind at 1, M_bind at 1, bind at 1, dispatch_many_filter_list.
  cbn [fst snd].
  destruct (for_keys_filter_list_spec ws_dispatch "guild" (get_user_guilds d user_id)
              ids0 "USER_UPDATE" (UserObject (get_user d user_id false))
              [] (with_io app env0) Hreg)
    as (ids1 & env1 & Hrun1 & Hnd1 & Hnew1 & Hall1).
  { constructor. }
  { intros sid Hin. apply elem_of_nil in Hin. contradiction. }
  change ([] ++ ids0) with ids0. rewrite Hrun1. cbn [fst snd].
  unfold mbind at 1, M_bind at 1, bind at 1. cbn [fst snd].
  destruct (for_keys_filter_list_spec ws_dispatch "friend" (get_friend_ids d user_id)
              (ids0 ++ [] ++ ids1) "USER_UPDATE"
              (UserObject (get_user d user_id false))
              [] (with_io (with_io app env0) env1) Hreg)
    as (ids2 & env2 & Hrun2 & Hnd2 & Hnew2 & Hall2).
  { constructor. }
  { intros sid Hin. apply elem_of_nil in Hin. contradiction. }
  rewrite Hrun2. cbn [fst snd ret].
  change ([] ++ ids1) with ids1 in *. change ([] ++ ids2) with ids2 in *.
  assert (Hnd : NoDup ((ids0 ++ ids1) ++ ids2)).
  { apply NoDup_app. split; [|split; [|exact Hnd2]].
    - apply NoDup_app. split; [exact Hnd0|]. split; [|exact Hnd1].
      intros sid Hin Hin'. apply Hnew1 in Hin' as [Hnot _]. contradiction.
    - intros sid Hin Hin'. apply Hnew2 in Hin' as [Hnot _]. contradiction. }
  eexists; exists env2. split; [reflexivity|]. split.
  - intros sid. apply deliveries_NoDup_le, Hnd.
  - intros Hok sid Hcases. apply deliveries_NoDup_in; [exact Hnd|].
    destruct Hcases as [Hown | [Hguild | Hfriend]].
    + rewrite <- (Hall0 Hok) in Hown. rewrite !elem_of_app. auto.
    + specialize (Hall1 Hok sid Hguild). clear -Hall1.
      rewrite !elem_of_app in *. tauto.
    + specialize (Hall2 Hok sid Hfriend). clear -Hall2.
      rewrite !elem_of_app in *. tauto.
Qed.
End BlueprintFacts.

(** User 10 updates its profile: its own session is reached directly, the
    session of user 20 through guild 1, and neither again through guild 2
    or the friend key. *)
Example mass_user_update_reaches_each_session_once :
  (Blueprints.mass_user_update_sessions Demo.ws_dispatch Demo.get_user
     Demo.get_user_guilds Demo.get_friend_ids 10 (tt, Demo.app0)).1
  = Py.Ok (["a"; "b"], 10, [1; 2])
  /\ Pubsub.transport
       (EventDispatcher.io
          (Blueprints.mass_user_update Demo.ws_dispatch Demo.lazy_guild_dispatch
             Demo.get_user Demo.get_user_guilds Demo.get_friend_ids 10
             (tt, Demo.app0)).2.2)
     = [("ws-a", "USER_UPDATE"); ("ws-b", "USER_UPDATE")].
Proof. split; vm_compute; reflexivity. Qed.


Lemma demo_registry_ok : EventDispatcher.registry_ok Demo.registry.
Proof.
  unfold Demo.registry. split.
  - intros u l Hl.
    apply lookup_insert_Some in Hl as [[_ <-] | [_ Hl]].
    + apply NoDup_singleton.
    + apply lookup_singleton_Some in Hl as [_ <-]. apply NoDup_singleton.
  - intros u1 u2 l1 l2 sid H1 H2 Hin1 Hin2.
    apply lookup_insert_Some in H1 as [[<- <-] | [_ H1]];
      apply lookup_insert_Some in H2 as [[<- <-] | [_ H2]].
    + reflexivity.
    + apply lookup_singleton_Some in H2 as [<- <-].
      cbn in Hin1, Hin2. apply list_elem_of_singleton in Hin1, Hin2. congruence.
    + apply lookup_singleton_Some in H1 as [<- <-].
      cbn in Hin1, Hin2. apply list_elem_of_singleton in Hin1, Hin2. congruence.
    + apply lookup_singleton_Some in H1 as [<- _].
      apply lookup_singleton_Some in H2 as [<- _]. reflexivity.
Qed.

(** User 10 is subscribed to both guild 1 and guild 2 and is reached once. *)
Example dispatch_both_guilds :
  (EventDispatcher.dispatch_many_filter_list Demo.ws_dispatch "guild" [1; 2] []
     "Z" (Blueprints.Ident 0) Demo.app0).1
  = Py.Ok ["a"; "b"].
Proof. vm_compute. reflexivity. Qed.


(* ===================================================================== *)
(** * Theorems about the gateway connection *)
(* ===================================================================== *)

Section IdentifyFacts.
Import GatewayProtocol.
Context {User Guild Channel Token : Type}.
Variable authenticate : Token -> option Z.
Variable get_user : Z -> User.
Variable get_guilds : Z -> list Guild.
Variable get_private_channels : Z -> list Channel.

(** The id allocated is none of the ids issued so far. *)
Lemma allocate_session_id_new (issued : gset string) :
  allocate_session_id issued ∉ issued.
Proof. unfold allocate_session_id. apply is_fresh. Qed.

(** C8: on a connection in state [CONNECTED], an identify whose
    credentials authenticate as [user_id] makes the server send exactly
    one frame: a [DISPATCH] frame named [READY] whose data holds the
    user object, the guild list and the private-channel list of
    [user_id] and a session id that was not issued before; the session
    is then registered for the user and the connection is [READY]. *)
Theorem identify_emits_ready
        (token : Token) (conn : Connection) (registry : Registry) (user_id : Z) :
  state conn = CONNECTED ->
  authenticate token = Some user_id ->
  exists frame conn' registry',
    GatewayProtocol.handle_identify authenticate get_user get_guilds
      get_private_channels token conn registry
    = Some ([Send frame], conn', registry')
    /\ op frame = DISPATCH
    /\ t frame = Some "READY"
    /\ ready_user (d frame) = get_user user_id
    /\ ready_guilds (d frame) = get_guilds user_id
    /\ ready_private_channels (d frame) = get_private_channels user_id
    /\ ready_v (d frame) = v conn
    /\ ready_session_id (d frame) ∉ issued registry
    /\ ready_session_id (d frame) ∈ issued registry'
    /\ session conn' = Some (ready_session_id (d frame))
    /\ state conn' = READY
    /\ (exists l, sessions registry' !! user_id = Some l
                  /\ ready_session_id (d frame) ∈ l).
Proof.
  intros Hstate Hauth. unfold handle_identify. rewrite Hstate, Hauth.
  eexists _, _, _. split; [reflexivity|]. cbn [op t d ready_user ready_guilds
    ready_private_channels ready_v ready_session_id issued sessions session state].
  repeat split.
  - apply allocate_session_id_new.
  - apply elem_of_union_l, elem_of_singleton. reflexivity.
  - eexists. rewrite lookup_insert_eq. split; [reflexivity|].
    apply elem_of_app. right. apply list_elem_of_singleton. reflexivity.
Qed.
End IdentifyFacts.

(** A second identify, by the same user on another connection, is given
    another session id than the first. *)
Example second_identify_gets_another_id :
  forall conn1 registry1 frame1 frame2 conn2 registry2,
    GatewayProtocol.handle_identify (fun token : string => Some 1)
      (fun user_id : Z => user_id) (fun _ : Z => @nil Z) (fun _ : Z => @nil Z)
      "token" (GatewayProtocol.mkConnection GatewayProtocol.CONNECTED 6 None)
      (GatewayProtocol.mkRegistry ∅ ∅)
    = Some ([GatewayProtocol.Send frame1], conn1, registry1) ->
    GatewayProtocol.handle_identify (fun token : string => Some 1)
      (fun user_id : Z => user_id) (fun _ : Z => @nil Z) (fun _ : Z => @nil Z)
      "token" (GatewayProtocol.mkConnection GatewayProtocol.CONNECTED 6 None) registry1
    = Some ([GatewayProtocol.Send frame2], conn2, registry2) ->
    GatewayProtocol.ready_session_id (GatewayProtocol.d frame2)
    <> GatewayProtocol.ready_session_id (GatewayProtocol.d frame1).
Proof.
  intros conn1 registry1 frame1 frame2 conn2 registry2 H1 H2.
  cbv [GatewayProtocol.handle_identify GatewayProtocol.state] in H1, H2.
  injection H1 as <- _ <-. injection H2 as <- _ _.
  cbn [GatewayProtocol.ready_session_id GatewayProtocol.d GatewayProtocol.issued].
  intros Heq.
  apply (allocate_session_id_new
           ({[GatewayProtocol.allocate_session_id ∅]} ∪ ∅)).
  rewrite Heq. apply elem_of_union_l, elem_of_singleton. reflexivity.
Qed.

Lemma identify_emits_ready_witness :
  GatewayProtocol.state (GatewayProtocol.mkConnection GatewayProtocol.CONNECTED 6 None)
  = GatewayProtocol.CONNECTED
  /\ (fun token : string => if String.eqb token "token-of-1" then Some 1 else None)
       "token-of-1" = Some 1
  /\ exists frame conn' registry',
      GatewayProtocol.handle_identify
        (fun token : string => if String.eqb token "token-of-1" then Some 1 else None)
        (fun user_id : Z => user_id) (fun _ : Z => [100; 200]) (fun _ : Z => [7])
        "token-of-1"
        (GatewayProtocol.mkConnection GatewayProtocol.CONNECTED 6 None)
        (GatewayProtocol.mkRegistry ∅ ∅)
      = Some ([GatewayProtocol.Send frame], conn', registry')
      /\ GatewayProtocol.t frame = Some "READY"
      /\ GatewayProtocol.ready_session_id (GatewayProtocol.d frame)
         ∉ GatewayProtocol.issued (GatewayProtocol.mkRegistry ∅ ∅).
Proof.
  split; [reflexivity|]. split; [reflexivity|].
  destruct (identify_emits_ready
              (fun token : string => if String.eqb token "token-of-1" then Some 1 else None)
              (fun user_id : Z => user_id) (fun _ : Z => [100; 200]) (fun _ : Z => [7])
              "token-of-1"
              (GatewayProtocol.mkConnection GatewayProtocol.CONNECTED 6 None)
              (GatewayProtocol.mkRegistry ∅ ∅) 1 eq_refl eq_refl)
    as (frame & conn' & registry' & Hrun & _ & Ht & _ & _ & _ & _ & Hnew & _).
  exists frame, conn', registry'. split; [exact Hrun|]. split; [exact Ht | exact Hnew].
Defined.

(* ===================================================================== *)
(** * Further properties of discord/types.py *)
(* ===================================================================== *)

Section ColorWraps.
Import Types.

(** Only the low 24 bits of the argument reach a component. *)
Lemma land_shiftr_low v k :
  0 <= k <= 16 ->
  Z.land (Z.shiftr (v mod 2 ^ 24) k) 255 = Z.land (Z.shiftr v k) 255.
Proof.
  intros Hk. apply Z.bits_inj'. intros n Hn.
  rewrite !Z.land_spec, !Z.shiftr_spec by assumption.
  change 255 with (Z.ones 8).
  destruct (Z.ltb_spec n 8) as [Hlt|Hge].
  - rewrite Z.mod_pow2_bits_low by lia. reflexivity.
  - rewrite Z.ones_spec_high by lia. rewrite !andb_false_r. reflexivity.
Qed.

Lemma Color_init_low_bits v : Color_init (v mod 2 ^ 24) = Color_init v.
Proof.
  unfold Color_init.
  rewrite (land_shiftr_low v 8), (land_shiftr_low v 16) by lia.
  pose proof (land_shiftr_low v 0 ltac:(lia)) as H0.
  rewrite !Z.shiftr_0_r in H0. rewrite H0. reflexivity.
Qed.

Lemma components_combine v :
  0 <= v < 2 ^ 24 ->
  red (Color_init v) * 65536 + green (Color_init v) * 256 + blue (Color_init v) = v.
Proof.
  intros Hv. cbn [red green blue Color_init].
  change 255 with (Z.ones 8). rewrite !Z.land_ones by lia.
  rewrite !Z.shiftr_div_pow2 by lia.
  change (2 ^ 8) with 256. change (2 ^ 16) with 65536.
  change (2 ^ 24) with 16777216 in Hv.
  pose proof (Z.div_mod v 256 ltac:(lia)) as H1.
  pose proof (Z.div_mod (v / 256) 256 ltac:(lia)) as H2.
  assert (H3 : v / 65536 = v / 256 / 256)
    by (rewrite Z.div_div by lia; reflexivity).
  assert (H4 : (v / 65536) mod 256 = v / 65536).
  { apply Z.mod_small. split; [apply Z.div_pos; lia|].
    apply Z.div_lt_upper_bound; lia. }
  rewrite H4, H3. lia.
Qed.

(** X1: [Color] accepts every integer, negative ones and ones wider than
    24 bits included, and keeps its low 24 bits only: [Color(v).value]
    is [v mod 2^24], a number in [0, 2^24); [Color(v)] and
    [Color(v mod 2^24)] have the same components; and building a colour
    from the value of a colour gives the same value again. *)
Theorem color_value_wraps (v : Z) :
  Types.value (Types.Color_init v) = Some (v mod 2 ^ 24)
  /\ 0 <= v mod 2 ^ 24 < 2 ^ 24
  /\ Types.Color_init (v mod 2 ^ 24) = Types.Color_init v
  /\ Types.value (Types.Color_init (v mod 2 ^ 24)) = Types.value (Types.Color_init v).
Proof.
  assert (Hrange : 0 <= v mod 2 ^ 24 < 2 ^ 24) by (apply Z.mod_pos_bound; lia).
  repeat split; try apply Hrange.
  - rewrite <- Color_init_low_bits.
    rewrite value_components by (cbn [red green blue Color_init]; apply land_255_byte).
    f_equal. apply components_combine, Hrange.
  - apply Color_init_low_bits.
  - rewrite Color_init_low_bits. reflexivity.
Qed.

End ColorWraps.

(** A negative colour and one wider than 24 bits. *)
Example value_of_minus_one : Types.value (Types.Color_init (-1)) = Some 16777215.
Proof. reflexivity. Qed.

Example value_of_wide : Types.value (Types.Color_init (16777216 + 255)) = Some 255.
Proof. reflexivity. Qed.

(* ===================================================================== *)
(** * Further properties of discord/pubsub/dispatcher.py *)
(* ===================================================================== *)

Section DispatcherWithStateAlgebra.
Import Py Pubsub.
Context {K V : Type} `{Countable K} `{Countable V}.
Implicit Types (state : gmap K (gset V)) (key : K) (identifier : V).

Lemma members_insert_ne state key m key' :
  key <> key' -> members (<[key := m]> state) key' = members state key'.
Proof.
  intros Hne. rewrite members_insert.
  destruct (decide (key = key')); [contradiction | reflexivity].
Qed.

(** X2: [sub(key, identifier)] and [unsub(key, identifier)] change the
    membership of that one pair and of no other: any other identifier
    under [key], and any identifier under any other key, is subscribed
    afterwards exactly when it was before.  [reset(key)] and
    [remove(key)] leave the subscribers of every other key as they
    were. *)
Theorem backend_operations_are_local state key identifier :
  (forall key' identifier',
      (key', identifier') <> (key, identifier) ->
      (identifier' ∈ members (Pubsub.sub key identifier state).2 key'
       <-> identifier' ∈ members state key')
      /\ (identifier' ∈ members (Pubsub.unsub key identifier state).2 key'
          <-> identifier' ∈ members state key'))
  /\ (forall key',
         key' <> key ->
         members (Pubsub.reset key state).2 key' = members state key'
         /\ members (Pubsub.remove key state).2 key' = members state key').
Proof.
  rewrite sub_run, unsub_run, reset_run, remove_run. cbn [snd]. split.
  - intros key' identifier' Hne. rewrite !members_insert.
    destruct (decide (key = key')) as [<-|Hk]; [|tauto].
    assert (identifier' <> identifier) by congruence.
    set_solver.
  - intros key' Hne. split.
    + apply members_insert_ne. congruence.
    + unfold members. rewrite lookup_delete_ne by congruence. reflexivity.
Qed.

(** X3: [unsub] undoes [sub] and [sub] undoes [unsub], as far as reading
    subscribers goes: subscribing an identifier that was not subscribed
    and unsubscribing it again, or unsubscribing one that was subscribed
    and subscribing it again, leaves the subscribers of every key as
    they were. *)
Theorem sub_and_unsub_undo_each_other state key identifier :
  (identifier ∉ members state key ->
   forall key',
     members (Pubsub.unsub key identifier (Pubsub.sub key identifier state).2).2 key'
     = members state key')
  /\ (identifier ∈ members state key ->
      forall key',
        members (Pubsub.sub key identifier (Pubsub.unsub key identifier state).2).2 key'
        = members state key').
Proof.
  rewrite sub_run, unsub_run. cbn [snd]. rewrite sub_run, unsub_run. cbn [snd].
  rewrite !members_insert_eq, !insert_insert_eq.
  split; intros Hin key'; rewrite members_insert;
    destruct (decide (key = key')) as [<-|]; try reflexivity.
  - apply set_eq. intros x. rewrite elem_of_difference, elem_of_union, elem_of_singleton.
    split; [intros [[? | ->] ?]; [assumption | contradiction] |].
    intros Hx. split; [left; exact Hx | intros ->; contradiction].
  - apply set_eq. intros x. rewrite elem_of_union, elem_of_difference, elem_of_singleton.
    split; [intros [[? _] | ->]; assumption |].
    intros Hx. destruct (decide (x = identifier)); [right; assumption | left; auto].
Qed.

(** X4: [sub], [unsub] and [reset] bind the key they are called on and
    unbind none, so that [unsub] on a key never seen before leaves an
    (empty) entry for it in the table; [remove] unbinds its key and no
    other. *)
Theorem only_remove_unbinds_a_key state key identifier :
  dom (Pubsub.sub key identifier state).2 = dom state ∪ {[key]}
  /\ dom (Pubsub.unsub key identifier state).2 = dom state ∪ {[key]}
  /\ dom (Pubsub.reset key state).2 = dom state ∪ {[key]}
  /\ dom (Pubsub.remove key state).2 = dom state ∖ {[key]}
  /\ (Pubsub.unsub key identifier state).2 !! key
     = Some (members state key ∖ {[identifier]}).
Proof.
  rewrite sub_run, unsub_run, reset_run, remove_run. cbn [snd].
  rewrite !dom_insert_L, dom_delete_L, lookup_insert_eq.
  repeat split; apply set_eq; intros x;
    rewrite !elem_of_union, !elem_of_singleton; tauto.
Qed.

(** X5: the order of subscriptions does not matter: two [sub] calls, and
    two [unsub] calls, give the same table in either order, and so do a
    [sub] and an [unsub] of different pairs. *)
Theorem subscriptions_commute state key1 identifier1 key2 identifier2 :
  (Pubsub.sub key2 identifier2 (Pubsub.sub key1 identifier1 state).2).2
  = (Pubsub.sub key1 identifier1 (Pubsub.sub key2 identifier2 state).2).2
  /\ (Pubsub.unsub key2 identifier2 (Pubsub.unsub key1 identifier1 state).2).2
     = (Pubsub.unsub key1 identifier1 (Pubsub.unsub key2 identifier2 state).2).2
  /\ ((key1, identifier1) <> (key2, identifier2) ->
      (Pubsub.unsub key2 identifier2 (Pubsub.sub key1 identifier1 state).2).2
      = (Pubsub.sub key1 identifier1 (Pubsub.unsub key2 identifier2 state).2).2).
Proof.
  repeat (rewrite ?sub_run, ?unsub_run; cbn [snd]).
  destruct (decide (key1 = key2)) as [<-|Hk].
  - rewrite !members_insert_eq, !insert_insert_eq.
    split; [f_equal | split; [f_equal | intros Hne; f_equal]];
      apply set_eq; intros x;
      rewrite ?elem_of_union, ?elem_of_difference, ?elem_of_union,
        ?elem_of_difference, ?elem_of_singleton.
    + tauto.
    + tauto.
    + assert (identifier1 <> identifier2) by congruence.
      split; [intros [[? | ->] ?]; [left; auto | right; reflexivity] |].
      intros [[? ?] | ->]; split; auto.
  - rewrite !(members_insert_ne _ key1 _ key2), !(members_insert_ne _ key2 _ key1)
      by congruence.
    split; [|split; [|intros _]]; apply insert_insert_ne; congruence.
Qed.

End DispatcherWithStateAlgebra.

Lemma backend_operations_are_local_witness :
  (1, 10) <> (1, 20)
  /\ (10 ∈ Pubsub.members (Pubsub.sub 1 20 ({[ 1 := {[ 10 ]} ]} : gmap Z (gset Z))).2 1
      <-> 10 ∈ Pubsub.members ({[ 1 := {[ 10 ]} ]} : gmap Z (gset Z)) 1).
Proof.
  assert (Hne : (1, 10) <> (1, 20)) by discriminate.
  split; [exact Hne|].
  exact (proj1 (proj1 (backend_operations_are_local {[ 1 := {[ 10 ]} ]} 1 20) 1 10 Hne)).
Defined.

Lemma sub_and_unsub_undo_each_other_witness :
  20 ∉ Pubsub.members ({[ 1 := {[ 10 ]} ]} : gmap Z (gset Z)) 1
  /\ Pubsub.members
       (Pubsub.unsub 1 20
          (Pubsub.sub 1 20 ({[ 1 := {[ 10 ]} ]} : gmap Z (gset Z))).2).2 1
     = Pubsub.members ({[ 1 := {[ 10 ]} ]} : gmap Z (gset Z)) 1.
Proof.
  assert (Hnot : 20 ∉ Pubsub.members ({[ 1 := {[ 10 ]} ]} : gmap Z (gset Z)) 1)
    by (vm_compute; set_solver).
  split; [exact Hnot|].
  exact (proj1 (sub_and_unsub_undo_each_other {[ 1 := {[ 10 ]} ]} 1 20) Hnot 1).
Defined.

Lemma subscriptions_commute_witness :
  (1, 10) <> (2, 20)
  /\ (Pubsub.unsub 2 20 (Pubsub.sub 1 10 (∅ : gmap Z (gset Z))).2).2
     = (Pubsub.sub 1 10 (Pubsub.unsub 2 20 (∅ : gmap Z (gset Z))).2).2.
Proof.
  assert (Hne : (1, 10) <> (2, 20)) by discriminate.
  split; [exact Hne|].
  exact (proj2 (proj2 (subscriptions_commute ∅ 1 10 2 20)) Hne).
Defined.

Section DispatchStatesMore.
Import Py Pubsub.
Context {WS Data World : Type}.
Variable ws_dispatch : WS -> string -> Data -> World -> result unit * World.

Lemma reached_app (l1 l2 : list (GatewayState WS)) event (data : Data) w :
  reached ws_dispatch (l1 ++ l2) event data w
  = reached ws_dispatch l1 event data w
    ++ reached ws_dispatch l2 event data (world_after ws_dispatch l1 event data w).
Proof.
  revert w. induction l1 as [|state rest IH]; intros w; cbn; [reflexivity|].
  destruct (ws_dispatch (ws state) event data w) as [[[]|e] w']; cbn;
    rewrite IH; reflexivity.
Qed.

Lemma failed_app (l1 l2 : list (GatewayState WS)) event (data : Data) w :
  failed ws_dispatch (l1 ++ l2) event data w
  = failed ws_dispatch l1 event data w
    ++ failed ws_dispatch l2 event data (world_after ws_dispatch l1 event data w).
Proof.
  revert w. induction l1 as [|state rest IH]; intros w; cbn; [reflexivity|].
  destruct (ws_dispatch (ws state) event data w) as [[[]|e] w']; cbn;
    rewrite IH; reflexivity.
Qed.

Lemma world_after_app (l1 l2 : list (GatewayState WS)) event (data : Data) w :
  world_after ws_dispatch (l1 ++ l2) event data w
  = world_after ws_dispatch l2 event data (world_after ws_dispatch l1 event data w).
Proof.
  revert w. induction l1 as [|state rest IH]; intros w; cbn; [reflexivity|].
  apply IH.
Qed.

Lemma failed_none (states : list (GatewayState WS)) event (data : Data) w :
  (forall ws' w', (ws_dispatch ws' event data w').1 = Ok tt) ->
  failed ws_dispatch states event data w = [].
Proof.
  intros Hok. revert w. induction states as [|state rest IH]; intros w; cbn; [reflexivity|].
  specialize (Hok (ws state) w).
  destruct (ws_dispatch (ws state) event data w) as [[[]|e] w']; cbn in *;
    [apply IH | discriminate].
Qed.

Lemma reached_all (states : list (GatewayState WS)) event (data : Data) w :
  (forall ws' w', (ws_dispatch ws' event data w').1 = Ok tt) ->
  reached ws_dispatch states event data w = states.
Proof.
  intros Hok. revert w. induction states as [|state rest IH]; intros w; cbn; [reflexivity|].
  specialize (Hok (ws state) w).
  destruct (ws_dispatch (ws state) event data w) as [[[]|e] w']; cbn in *;
    [f_equal; apply IH | discriminate].
Qed.

(** X6: dispatching to [batch1 ++ batch2] in one call is dispatching to
    [batch1] and then, from where that call left off, to [batch2]: the
    session ids returned are those of the first call followed by those
    of the second, and the world and the log end up the same. *)
Theorem dispatch_states_in_two_batches
        (batch1 batch2 : list (GatewayState WS)) (event : string) (data : Data)
        (env : Env World) :
  let first := Pubsub._dispatch_states ws_dispatch batch1 event data env in
  let second := Pubsub._dispatch_states ws_dispatch batch2 event data first.2 in
  exists ids1 ids2,
    first.1 = Ok ids1
    /\ second.1 = Ok ids2
    /\ Pubsub._dispatch_states ws_dispatch (batch1 ++ batch2) event data env
       = (Ok (ids1 ++ ids2), second.2).
Proof.
  cbn zeta. unfold _dispatch_states.
  repeat (rewrite for_states_spec; cbn [fst snd transport logbook app]).
  eexists _, _. split; [reflexivity|]. split; [reflexivity|].
  rewrite reached_app, failed_app, world_after_app, map_app.
  rewrite length_app, repeat_app, app_assoc. reflexivity.
Qed.


End DispatchStatesMore.


(* ===================================================================== *)
(** * The pushes of [dispatch_many_filter_list] *)
(* ===================================================================== *)

Section FacadePushes.
Import Py Pubsub EventDispatcher.
Context {WS Data World Lazy : Type}.
Variable ws_dispatch : WS -> string -> Data -> World -> result unit * World.

Abbreviation env_after := (EventDispatcher.env_after ws_dispatch).

Lemma dispatch_states_env (states : list (GatewayState WS)) event (data : Data) env :
  _dispatch_states ws_dispatch states event data env
  = (Ok (map session_id (reached ws_dispatch states event data (transport env))),
     env_after states event data env).
Proof. unfold _dispatch_states. rewrite for_states_spec. reflexivity. Qed.

Lemma env_after_app (l1 l2 : list (GatewayState WS)) event (data : Data) env :
  env_after (l1 ++ l2) event data env
  = env_after l2 event data (env_after l1 event data env).
Proof.
  unfold EventDispatcher.env_after. cbn [transport logbook].
  rewrite world_after_app, failed_app, length_app, repeat_app, app_assoc.
  reflexivity.
Qed.

Lemma env_after_nil event (data : Data) (env : Env World) :
  env_after [] event data env = env.
Proof.
  destruct env. unfold EventDispatcher.env_after. cbn. rewrite app_nil_r. reflexivity.
Qed.

(** A backend loop is one run of [_dispatch_states] over the sessions it
    pushes to. *)
Lemma for_subscribers_pushes users keep event (data : Data) res
      (app : App WS World Lazy) :
  for_subscribers ws_dispatch users keep event data res app
  = (Ok (res ++ map session_id
                  (reached ws_dispatch (pushed app users keep) event data
                           (transport (io app)))),
     with_io app (env_after (pushed app users keep) event data (io app))).
Proof.
  revert res app. induction users as [|u rest IH]; intros res app.
  - cbn. rewrite app_nil_r, env_after_nil, with_io_id. reflexivity.
  - cbn [for_subscribers pushed flat_map].
    unfold mbind at 1, M_bind at 1, bind at 1, get.
    unfold mbind at 1, M_bind at 1, bind at 1, on_io.
    rewrite dispatch_states_env. cbv beta iota.
    rewrite IH. cbn [io with_io state_manager transport].
    rewrite reached_app, map_app, env_after_app, app_assoc. reflexivity.
Qed.

Lemma dispatch_filter_pushes namespace key func event (data : Data)
      (app : App WS World Lazy) :
  dispatch_filter ws_dispatch namespace key func event data app
  = (Ok (map session_id
           (reached ws_dispatch
              (pushed app (elements (members (table app namespace) key))
                      (fun st => func (session_id st)))
              event data (transport (io app)))),
     with_io app
       (env_after (pushed app (elements (members (table app namespace) key))
                          (fun st => func (session_id st)))
                  event data (io app))).
Proof.
  unfold dispatch_filter, mbind, M_bind, bind, get.
  rewrite for_subscribers_pushes. reflexivity.
Qed.

Lemma elem_of_pushed (app : App WS World Lazy) users keep st :
  st ∈ pushed app users keep
  <-> exists u, u ∈ users /\ st ∈ sessions_for_user app u /\ keep st = true.
Proof.
  unfold pushed. rewrite list_elem_of_In, in_flat_map. split.
  - intros (u & Hu & Hin).
    apply list_elem_of_In, list_elem_of_filter in Hin as [Hkeep Hst].
    exists u. rewrite list_elem_of_In. auto.
  - intros (u & Hu & Hst & Hkeep). exists u. split; [apply list_elem_of_In, Hu|].
    apply list_elem_of_In, list_elem_of_filter. auto.
Qed.

(** The loop over the keys is one run of [_dispatch_states] too, over
    sessions of subscribers of the keys that were not reached before. *)
Lemma for_keys_filter_list_pushes namespace keys already event (data : Data)
      reached_ids (app : App WS World Lazy) :
  exists pushes,
    for_keys_filter_list ws_dispatch namespace keys already event data reached_ids app
    = (Ok (reached_ids
           ++ map session_id
                (reached ws_dispatch pushes event data (transport (io app)))),
       with_io app (env_after pushes event data (io app)))
    /\ forall st, st ∈ pushes ->
         session_id st ∉ already ++ reached_ids
         /\ exists key u, key ∈ keys /\ u ∈ members (table app namespace) key
                          /\ st ∈ sessions_for_user app u.
Proof.
  revert reached_ids app. induction keys as [|key rest IH]; intros reached_ids app.
  - exists []. cbn. rewrite app_nil_r, env_after_nil, with_io_id.
    split; [reflexivity|]. intros st Hin. apply elem_of_nil in Hin. contradiction.
  - cbn [for_keys_filter_list].
    unfold mbind at 1, M_bind at 1, bind at 1.
    rewrite dispatch_filter_pushes.
    set (pushes1 := pushed app (elements (members (table app namespace) key))
                           (fun st => not_yet (already ++ reached_ids) (session_id st))).
    set (ids1 := map session_id
                   (reached ws_dispatch pushes1 event data (transport (io app)))).
    destruct (IH (reached_ids ++ ids1)
                 (with_io app (env_after pushes1 event data (io app))))
      as (pushes2 & Hrun & Hin2).
    exists (pushes1 ++ pushes2). split.
    + rewrite Hrun. cbn [io with_io transport EventDispatcher.env_after].
      rewrite reached_app, map_app, env_after_app, <- app_assoc. reflexivity.
    + intros st Hin. apply elem_of_app in Hin as [Hin|Hin].
      * apply elem_of_pushed in Hin as (u & Hu & Hst & Hkeep).
        apply not_yet_true in Hkeep. split; [exact Hkeep|].
        exists key, u. rewrite elem_of_elements in Hu.
        split; [left | auto].
      * destruct (Hin2 st Hin) as (Hnot & k & u & Hk & Hu & Hst).
        split.
        -- intros Hc. apply Hnot. rewrite app_assoc. apply elem_of_app. left. exact Hc.
        -- exists k, u. split; [right; exact Hk | auto].
Qed.


End FacadePushes.



(* ===================================================================== *)
(** * Further properties of discord/gateway/gateway.py *)
(* ===================================================================== *)

Section GatewayChecks.
Import Py Gateway.
Variable url_query : string -> result string.
Variable is_separator : ascii -> bool.
Variable unquote : string -> string.

Abbreviation handler := (websocket_handler url_query is_separator unquote).
Abbreviation requested := (Gateway.requested is_separator unquote).

Lemma in_tuple_elem_of x tuple : in_tuple x tuple = true <-> x ∈ tuple.
Proof.
  unfold in_tuple. rewrite existsb_exists, list_elem_of_In. split.
  - intros (y & Hin & Heq). apply String.eqb_eq in Heq as ->. exact Hin.
  - intros Hin. exists x. split; [exact Hin | apply String.eqb_refl].
Qed.

Lemma in_tuple_not_elem_of x tuple : x ∉ tuple -> negb (in_tuple x tuple) = true.
Proof.
  intros Hnot. apply negb_true_iff, not_true_iff_false.
  rewrite in_tuple_elem_of. exact Hnot.
Qed.

(** X8: the handler first has [urlparse] find the query; an exception
    raised there leaves the handler before any check, with nothing
    closed and nothing built.  Once the query is found the three
    parameters are checked in a fixed order and the first failure is the
    one reported: an unsupported version closes the connection with
    'Invalid gateway version' whatever the encoding and the compression
    are; with a supported (or defaulted) version an unsupported encoding
    closes it with 'Invalid gateway encoding' whatever the compression
    is; 'Invalid gateway compress' is only reported when version and
    encoding both passed. *)
Theorem websocket_handler_reports_first_failure (url : string) :
  (forall e trace,
      url_query url = Raise e ->
      Gateway.websocket_handler url_query is_separator unquote url trace
      = (Raise e, trace))
  /\ (forall query,
         url_query url = Ok query ->
         (default "6" (requested query "v") ∉ ["6"; "7"] ->
          Gateway.websocket_handler url_query is_separator unquote url []
          = (Ok tt, [WsClose 1000 "Invalid gateway version"]))
         /\ (default "6" (requested query "v") ∈ ["6"; "7"] ->
             default "json" (requested query "encoding") ∉ ["json"; "etf"] ->
             Gateway.websocket_handler url_query is_separator unquote url []
             = (Ok tt, [WsClose 1000 "Invalid gateway encoding"]))
         /\ (Gateway.websocket_handler url_query is_separator unquote url []
             = (Ok tt, [WsClose 1000 "Invalid gateway compress"]) ->
             default "6" (requested query "v") ∈ ["6"; "7"]
             /\ default "json" (requested query "encoding") ∈ ["json"; "etf"]
             /\ exists compress, requested query "compress" = Some compress
                                 /\ compress <> "zlib-stream")).
Proof.
  split; [intros e trace; apply websocket_handler_raise|].
  intros query Hquery.
  rewrite (websocket_handler_run url_query is_separator unquote url query [] Hquery).
  cbn [app]. unfold negotiate.
  split; [|split].
  - intros Hv. rewrite (in_tuple_not_elem_of _ _ Hv). reflexivity.
  - intros Hv He. apply in_tuple_elem_of in Hv. rewrite Hv. cbn [negb].
    rewrite (in_tuple_not_elem_of _ _ He). reflexivity.
  - destruct (in_tuple (default "6" (requested query "v")) ["6"; "7"]) eqn:Hv;
      cbn [negb]; [|intros Heq; discriminate].
    destruct (in_tuple (default "json" (requested query "encoding")) ["json"; "etf"])
      eqn:He; cbn [negb]; [|intros Heq; discriminate].
    apply in_tuple_elem_of in Hv, He.
    destruct (requested query "compress") as [c|];
      cbn [truthy default from_option id andb]; [|intros Heq; discriminate].
    destruct (negb (String.eqb c "")); cbn [andb]; [|intros Heq; discriminate].
    destruct (in_tuple c ["zlib-stream"]) eqn:Hz; cbn [negb];
      [intros Heq; discriminate|].
    intros _. split; [exact Hv|]. split; [exact He|].
    exists c. split; [reflexivity|]. intros ->. discriminate.
Qed.

Lemma split_fields_nonempty s : split_fields is_separator s <> [].
Proof.
  destruct s as [|a s]; cbn; [discriminate|].
  destruct (is_separator a); [discriminate|].
  destruct (split_fields is_separator s); discriminate.
Qed.

Lemma split_fields_append q1 sep q2 :
  is_separator sep = true ->
  split_fields is_separator (String.append q1 (String sep q2))
  = split_fields is_separator q1 ++ split_fields is_separator q2.
Proof.
  intros Hsep. induction q1 as [|a q1 IH].
  - change (String.append "" (String sep q2)) with (String sep q2).
    cbn. rewrite Hsep. reflexivity.
  - change (String.append (String a q1) (String sep q2))
      with (String a (String.append q1 (String sep q2))).
    cbn [split_fields]. rewrite IH.
    destruct (is_separator a); [reflexivity|].
    pose proof (split_fields_nonempty q1) as Hne.
    destruct (split_fields is_separator q1) as [|field fields]; [contradiction|].
    reflexivity.
Qed.

Lemma parse_qs_step_keeps_head parsed pair name value :
  parsed !! name ≫= head = Some value ->
  parse_qs_step parsed pair !! name ≫= head = Some value.
Proof.
  intros Hhead. unfold parse_qs_step.
  destruct (decide (pair.1 = name)) as [Heq|Hne].
  - rewrite Heq. destruct (parsed !! name) as [values|] eqn:Hlook; [|discriminate].
    rewrite lookup_insert_eq. cbn in *.
    destruct values; [discriminate | exact Hhead].
  - destruct (parsed !! pair.1); rewrite lookup_insert_ne by exact Hne; exact Hhead.
Qed.

Lemma fold_parse_qs_step_keeps_head pairs parsed name value :
  parsed !! name ≫= head = Some value ->
  fold_left parse_qs_step pairs parsed !! name ≫= head = Some value.
Proof.
  revert parsed. induction pairs as [|pair pairs IH]; intros parsed Hhead; cbn;
    [exact Hhead|].
  apply IH, parse_qs_step_keeps_head, Hhead.
Qed.

(** X9: of a parameter given more than once the first value counts.
    When [urlparse] finds the query [query] in [url] and, in [url'],
    the same query followed by a separator and further fields, every
    parameter [url] requests is requested with the same value by
    [url']; so if [url] names all of [v], [encoding] and [compress],
    the handler does for [url'] what it does for [url]. *)
Theorem first_value_of_a_parameter_wins (url url' query : string) (sep : ascii)
        (more : string) :
  is_separator sep = true ->
  url_query url = Ok query ->
  url_query url' = Ok (String.append query (String sep more)) ->
  (forall name value,
      requested query name = Some value ->
      requested (String.append query (String sep more)) name = Some value)
  /\ (requested query "v" <> None -> requested query "encoding" <> None ->
      requested query "compress" <> None ->
      forall trace,
        Gateway.websocket_handler url_query is_separator unquote url' trace
        = Gateway.websocket_handler url_query is_separator unquote url trace).
Proof.
  intros Hsep Hquery Hquery'.
  assert (Hkeep : forall name value,
             requested query name = Some value ->
             requested (String.append query (String sep more)) name = Some value).
  { intros name value. unfold requested, parse_qs, parse_qsl.
    rewrite split_fields_append by exact Hsep.
    rewrite omap_app, fold_left_app. apply fold_parse_qs_step_keeps_head. }
  split; [exact Hkeep|].
  intros Hv He Hc trace.
  rewrite (websocket_handler_run url_query is_separator unquote url' _ trace Hquery').
  rewrite (websocket_handler_run url_query is_separator unquote url _ trace Hquery).
  destruct (requested query "v") as [v|] eqn:Ev; [|contradiction].
  destruct (requested query "encoding") as [e|] eqn:Ee; [|contradiction].
  destruct (requested query "compress") as [c|] eqn:Ec; [|contradiction].
  rewrite (Hkeep _ _ Ev), (Hkeep _ _ Ee), (Hkeep _ _ Ec). reflexivity.
Qed.

End GatewayChecks.

Lemma websocket_handler_reports_first_failure_witness :
  Gateway.query_component "//[::1/?v=5" = Py.Raise Py.ValueError
  /\ Gateway.websocket_handler Gateway.query_component (Ascii.eqb "&") (fun s => s)
       "//[::1/?v=5" []
     = (Py.Raise Py.ValueError, [])
  /\ Gateway.query_component "/?v=5&encoding=xml&compress=gzip"
     = Py.Ok "v=5&encoding=xml&compress=gzip"
  /\ default "6" (Gateway.requested (Ascii.eqb "&") (fun s => s)
                    "v=5&encoding=xml&compress=gzip" "v") ∉ ["6"; "7"]
  /\ Gateway.websocket_handler Gateway.query_component (Ascii.eqb "&") (fun s => s)
       "/?v=5&encoding=xml&compress=gzip" []
     = (Py.Ok tt, [Gateway.WsClose 1000 "Invalid gateway version"]).
Proof.
  assert (Hraise : Gateway.query_component "//[::1/?v=5" = Py.Raise Py.ValueError)
    by reflexivity.
  assert (Hquery : Gateway.query_component "/?v=5&encoding=xml&compress=gzip"
                   = Py.Ok "v=5&encoding=xml&compress=gzip") by reflexivity.
  assert (Hv : default "6" (Gateway.requested (Ascii.eqb "&") (fun s => s)
                              "v=5&encoding=xml&compress=gzip" "v")
               ∉ ["6"; "7"]).
  { vm_compute. intros Hin. apply list_elem_of_In in Hin.
    destruct Hin as [Heq | [Heq | []]]; discriminate. }
  split; [exact Hraise|].
  split; [exact (proj1 (websocket_handler_reports_first_failure Gateway.query_component
                          (Ascii.eqb "&") (fun s => s) "//[::1/?v=5")
                   Py.ValueError [] Hraise)|].
  split; [exact Hquery|]. split; [exact Hv|].
  exact (proj1 (proj2 (websocket_handler_reports_first_failure Gateway.query_component
                         (Ascii.eqb "&") (fun s => s) "/?v=5&encoding=xml&compress=gzip")
                  "v=5&encoding=xml&compress=gzip" Hquery) Hv).
Defined.

Lemma first_value_of_a_parameter_wins_witness :
  Ascii.eqb "&" "&" = true
  /\ Gateway.query_component "/?v=7" = Py.Ok "v=7"
  /\ Gateway.query_component "/?v=7&v=5" = Py.Ok (String.append "v=7" (String "&" "v=5"))
  /\ Gateway.requested (Ascii.eqb "&") (fun s => s) "v=7" "v" = Some "7"
  /\ Gateway.requested (Ascii.eqb "&") (fun s => s)
       (String.append "v=7" (String "&" "v=5")) "v" = Some "7".
Proof.
  assert (Hsep : Ascii.eqb "&" "&" = true) by reflexivity.
  assert (Hquery : Gateway.query_component "/?v=7" = Py.Ok "v=7") by reflexivity.
  assert (Hquery' : Gateway.query_component "/?v=7&v=5"
                    = Py.Ok (String.append "v=7" (String "&" "v=5"))) by reflexivity.
  assert (Hreq : Gateway.requested (Ascii.eqb "&") (fun s => s) "v=7" "v" = Some "7")
    by (vm_compute; reflexivity).
  split; [exact Hsep|]. split; [exact Hquery|]. split; [exact Hquery'|].
  split; [exact Hreq|].
  exact (proj1 (first_value_of_a_parameter_wins Gateway.query_component (Ascii.eqb "&")
                  (fun s => s) "/?v=7" "/?v=7&v=5" "v=7" "&" "v=5" Hsep Hquery Hquery')
           "v" "7" Hreq).
Defined.

(* ===================================================================== *)
(** * Properties of discord/blueprints/channel/messages.py *)
(* ===================================================================== *)

Section MessagesFacts.
Import Errors Messages.
Variable int_of_str : string -> option Z.
Variable int_of_half : Z -> Z.

Abbreviation extract_limit := (Messages.extract_limit int_of_str).
Abbreviation query_tuple_from_args :=
  (Messages.query_tuple_from_args int_of_str int_of_half).
Abbreviation get_messages_query :=
  (Messages.get_messages_query int_of_str int_of_half).

Lemma in_range_true x start stop :
  in_range x start stop = true <-> start <= x < stop.
Proof. unfold in_range. rewrite andb_true_iff, Z.leb_le, Z.ltb_lt. reflexivity. Qed.

(** The two ways [extract_limit] ends. *)
Lemma extract_limit_cases request_args default max_val :
  (exists limit, extract_limit request_args default max_val = Returns limit
                 /\ 0 <= limit <= max_val
                 /\ match args_get request_args "limit" with
                    | Some text => int_of_str text = Some limit
                    | None => limit = default
                    end)
  \/ (extract_limit request_args default max_val
      = Raises (Error BadRequest [Text "limit not int"])
      /\ match args_get request_args "limit" with
         | Some text => forall limit, int_of_str text = Some limit ->
                                      ~ 0 <= limit <= max_val
         | None => ~ 0 <= default <= max_val
         end).
Proof.
  unfold Messages.extract_limit, int_.
  destruct (args_get request_args "limit") as [text|].
  - destruct (int_of_str text) as [n|]; cbn.
    + destruct (in_range n 0 (max_val + 1)) eqn:Hr; cbn.
      * left. exists n. apply in_range_true in Hr. split; [reflexivity|]. split; [lia|reflexivity].
      * right. split; [reflexivity|]. intros limit [= <-] Hin.
        apply not_true_iff_false in Hr. apply Hr, in_range_true. lia.
    + right. split; [reflexivity|]. intros limit Heq. discriminate.
  - cbn. destruct (in_range default 0 (max_val + 1)) eqn:Hr; cbn.
    + left. exists default. apply in_range_true in Hr. split; [reflexivity|]. split; [lia|reflexivity].
    + right. split; [reflexivity|]. intros Hin.
      apply not_true_iff_false in Hr. apply Hr, in_range_true. lia.
Qed.

(** X10: [extract_limit] either returns an integer between [0] and
    [max_val], bounds included, or raises [BadRequest('limit not int')];
    no [ValueError] or other exception leaves it.  The default is used
    when the request names no limit, and is checked like a given value;
    with a negative [max_val] every request is refused. *)
Theorem extract_limit_returns_a_checked_limit
        (request_args : MultiDict) (default max_val : Z) :
  (forall limit,
      Messages.extract_limit int_of_str request_args default max_val = Returns limit ->
      0 <= limit <= max_val)
  /\ (forall e,
         Messages.extract_limit int_of_str request_args default max_val = Raises e ->
         e = Error BadRequest [Text "limit not int"])
  /\ (args_get request_args "limit" = None -> 0 <= default <= max_val ->
      Messages.extract_limit int_of_str request_args default max_val = Returns default)
  /\ (max_val < 0 ->
      Messages.extract_limit int_of_str request_args default max_val
      = Raises (Error BadRequest [Text "limit not int"])).
Proof.
  destruct (extract_limit_cases request_args default max_val)
    as [(limit & Hrun & Hrange & Hsrc) | [Hrun Hsrc]]; rewrite Hrun.
  - split; [intros ? [= <-]; exact Hrange|].
    split; [intros e Heq; discriminate|].
    split; [intros Hnone _; rewrite Hnone in Hsrc; congruence|].
    intros Hneg. lia.
  - split; [intros ? Heq; discriminate|].
    split; [intros e [= <-]; reflexivity|].
    split; [|intros _; reflexivity].
    intros Hnone Hin. rewrite Hnone in Hsrc. contradiction.
Qed.

Lemma contains_true (args : MultiDict) key :
  contains args key = true <-> is_Some (args !! key).
Proof. unfold contains. apply bool_decide_eq_true. Qed.

Lemma truthy_Some x : truthy x = true <-> exists n, x = Some n /\ n <> 0.
Proof.
  destruct x as [n|]; cbn.
  - rewrite negb_true_iff, Z.eqb_neq. split; [eauto|]. intros (m & [= <-] & Hm). exact Hm.
  - split; [discriminate|]. intros (m & Heq & _). discriminate.
Qed.

(** What [query_tuple_from_args] returns without ['around']. *)
Lemma query_tuple_without_around request_args args limit before after :
  contains request_args "around" = false ->
  query_tuple_from_args request_args args limit = Returns (before, after) ->
  after = None.
Proof.
  unfold Messages.query_tuple_from_args. intros ->.
  destruct (contains args "before").
  - destruct (args_getitem args "before") as [text|]; cbn; [|discriminate].
    destruct (int_ int_of_str text); cbn; [|discriminate]. congruence.
  - destruct (contains args "after"); [|congruence].
    destruct (args_getitem args "after") as [text|]; cbn; [|discriminate].
    destruct (int_ int_of_str text); cbn; [|discriminate]. congruence.
Qed.

(** X11: for a request that names no ['around'], [query_tuple_from_args]
    never returns a lower bound: the second component is [None], and a
    request that gives only ['after'] gets its value back as the first
    component, the upper bound, as if it had been given as ['before'];
    ['before'] wins over ['after'].  With ['around'] the two bounds lie
    at the same distance [int(limit / 2)] on either side of it. *)
Theorem query_tuple_has_no_lower_bound_without_around
        (request_args args : MultiDict) (limit : Z) :
  (contains request_args "around" = false ->
   (forall before after,
       Messages.query_tuple_from_args int_of_str int_of_half request_args args limit
       = Returns (before, after) ->
       after = None)
   /\ (forall text n,
          args_get args "before" = Some text -> int_of_str text = Some n ->
          Messages.query_tuple_from_args int_of_str int_of_half request_args args limit
          = Returns (Some n, None))
   /\ (forall text n,
          args !! "before" = None ->
          args_get args "after" = Some text -> int_of_str text = Some n ->
          Messages.query_tuple_from_args int_of_str int_of_half request_args args limit
          = Returns (Some n, None)))
  /\ (contains request_args "around" = true ->
      forall text n,
        args_get args "around" = Some text -> int_of_str text = Some n ->
        Messages.query_tuple_from_args int_of_str int_of_half request_args args limit
        = Returns (Some (n + int_of_half limit), Some (n - int_of_half limit))).
Proof.
  split.
  - intros Hno. split; [|split].
    + intros before after. apply query_tuple_without_around, Hno.
    + intros text n Hget Hint. unfold Messages.query_tuple_from_args.
      rewrite Hno. unfold args_get in Hget.
      assert (Hin : contains args "before" = true).
      { apply contains_true. destruct (args !! "before"); [eauto | discriminate]. }
      rewrite Hin. unfold args_getitem, int_. rewrite Hget. cbn. rewrite Hint. reflexivity.
    + intros text n Hnone Hget Hint. unfold Messages.query_tuple_from_args.
      rewrite Hno. unfold args_get in Hget.
      assert (Hnb : contains args "before" = false).
      { apply not_true_iff_false. rewrite contains_true, Hnone. intros [? ?]. discriminate. }
      assert (Hin : contains args "after" = true).
      { apply contains_true. destruct (args !! "after"); [eauto | discriminate]. }
      rewrite Hnb, Hin. unfold args_getitem, int_. rewrite Hget. cbn. rewrite Hint. reflexivity.
  - intros Hyes text n Hget Hint. unfold Messages.query_tuple_from_args.
    rewrite Hyes. unfold args_getitem, int_. unfold args_get in Hget. rewrite Hget. cbn.
    rewrite Hint. reflexivity.
Qed.

(** X12: when [get_messages] gets as far as its query, the limit is
    between 0 and 100 and at most two conditions were added; for a
    request without ['around'] none of them is a lower bound on the
    message id, also when the request gives ['after']; and a bound equal
    to [0] adds no condition.  The only exceptions that leave this part
    of the handler of a request whose parameters all have a value are
    [BadRequest('limit not int')] and the [ValueError] of a bound that is
    not a number. *)
Theorem get_messages_query_conditions (request_args : MultiDict) :
  (forall limit where_clause,
      Messages.get_messages_query int_of_str int_of_half request_args
      = Returns (limit, where_clause) ->
      0 <= limit <= 100
      /\ (length where_clause <= 2)%nat
      /\ IdBelow 0 ∉ where_clause /\ IdAbove 0 ∉ where_clause
      /\ (contains request_args "around" = false ->
          forall after, IdAbove after ∉ where_clause))
  /\ ((forall key values, request_args !! key = Some values -> values <> []) ->
      forall e,
        Messages.get_messages_query int_of_str int_of_half request_args = Raises e ->
        e = Error BadRequest [Text "limit not int"] \/ e = ValueError).
Proof.
  unfold Messages.get_messages_query. split.
  - intros limit where_clause.
    destruct (extract_limit_cases request_args 50 100)
      as [(l & Hrun & Hrange & _) | [Hrun _]]; rewrite Hrun; cbn; [|discriminate].
    destruct (query_tuple_from_args request_args request_args l)
      as [[before after]|] eqn:Htuple; cbn; [|discriminate].
    intros [= <- <-]. split; [exact Hrange|].
    assert (Hafter : contains request_args "around" = false -> after = None)
      by (intros Hno; eapply query_tuple_without_around; eauto).
    destruct (truthy before) eqn:Hb, (truthy after) eqn:Ha; cbn.
    all: try (apply truthy_Some in Hb as (b & -> & Hb0)).
    all: try (apply truthy_Some in Ha as (a & -> & Ha0)).
    all: cbn; repeat split; try lia.
    all: try (intros Hin; repeat (apply elem_of_cons in Hin as [Hin|Hin]; [congruence|]);
              apply elem_of_nil in Hin; contradiction).
    all: intros Hno after' Hin; specialize (Hafter Hno); try discriminate.
    all: repeat (apply elem_of_cons in Hin as [Hin|Hin]; [congruence|]);
         apply elem_of_nil in Hin; contradiction.
  - intros Hok e.
    assert (Hitem : forall key, contains request_args key = true ->
              exists text, args_getitem request_args key = Returns text).
    { intros key Hin. apply contains_true in Hin as [values Hv].
      unfold args_getitem. rewrite Hv. cbn.
      destruct values as [|text ?]; [exfalso; eapply Hok; eauto|]. eauto. }
    destruct (extract_limit_cases request_args 50 100)
      as [(l & Hrun & _) | [Hrun _]]; rewrite Hrun; cbn; [|intros [= <-]; auto].
    unfold Messages.query_tuple_from_args.
    destruct (contains request_args "around") eqn:Har.
    { destruct (Hitem _ Har) as (text & ->). cbn. unfold int_.
      destruct (int_of_str text); cbn; [discriminate | intros [= <-]; auto]. }
    destruct (contains request_args "before") eqn:Hbe.
    { destruct (Hitem _ Hbe) as (text & ->). cbn. unfold int_.
      destruct (int_of_str text); cbn;
        [destruct (negb _); discriminate | intros [= <-]; auto]. }
    destruct (contains request_args "after") eqn:Haf.
    { destruct (Hitem _ Haf) as (text & ->). cbn. unfold int_.
      destruct (int_of_str text); cbn;
        [destruct (negb _); discriminate | intros [= <-]; auto]. }
    cbn. discriminate.
Qed.

End MessagesFacts.

Example extract_limit_rejects_text :
  Messages.extract_limit Messages.int_of_decimal {[ "limit" := ["ten"] ]} 50 100
  = Errors.Raises (Errors.Error Errors.BadRequest [Errors.Text "limit not int"]).
Proof. vm_compute. reflexivity. Qed.

Example extract_limit_rejects_101 :
  Messages.extract_limit Messages.int_of_decimal {[ "limit" := ["101"] ]} 50 100
  = Errors.Raises (Errors.Error Errors.BadRequest [Errors.Text "limit not int"]).
Proof. vm_compute. reflexivity. Qed.

Lemma extract_limit_returns_a_checked_limit_witness :
  Messages.args_get ∅ "limit" = None
  /\ 0 <= 50 <= 100
  /\ Messages.extract_limit Messages.int_of_decimal ∅ 50 100 = Errors.Returns 50.
Proof.
  assert (Hnone : Messages.args_get ∅ "limit" = None) by reflexivity.
  assert (Hrange : 0 <= 50 <= 100) by lia.
  split; [exact Hnone|]. split; [exact Hrange|].
  exact (proj1 (proj2 (proj2 (extract_limit_returns_a_checked_limit
                                Messages.int_of_decimal ∅ 50 100))) Hnone Hrange).
Defined.

Lemma query_tuple_has_no_lower_bound_without_around_witness :
  Messages.contains ({[ "after" := ["25"] ]} : Messages.MultiDict) "around" = false
  /\ ({[ "after" := ["25"] ]} : Messages.MultiDict) !! "before" = None
  /\ Messages.args_get {[ "after" := ["25"] ]} "after" = Some "25"
  /\ Messages.int_of_decimal "25" = Some 25
  /\ Messages.query_tuple_from_args Messages.int_of_decimal (fun n => Z.quot n 2)
       {[ "after" := ["25"] ]} {[ "after" := ["25"] ]} 50
     = Errors.Returns (Some 25, None).
Proof.
  assert (Hno : Messages.contains ({[ "after" := ["25"] ]} : Messages.MultiDict) "around"
                = false) by (vm_compute; reflexivity).
  assert (Hnb : ({[ "after" := ["25"] ]} : Messages.MultiDict) !! "before" = None)
    by (vm_compute; reflexivity).
  assert (Hget : Messages.args_get {[ "after" := ["25"] ]} "after" = Some "25")
    by (vm_compute; reflexivity).
  assert (Hint : Messages.int_of_decimal "25" = Some 25) by reflexivity.
  split; [exact Hno|]. split; [exact Hnb|]. split; [exact Hget|]. split; [exact Hint|].
  exact (proj2 (proj2 (proj1 (query_tuple_has_no_lower_bound_without_around
                                Messages.int_of_decimal (fun n => Z.quot n 2)
                                {[ "after" := ["25"] ]} {[ "after" := ["25"] ]} 50) Hno))
           "25" 25 Hnb Hget Hint).
Defined.

Lemma get_messages_query_conditions_witness :
  Messages.get_messages_query Messages.int_of_decimal (fun n => Z.quot n 2)
    {[ "after" := ["25"]; "limit" := ["10"] ]}
  = Errors.Returns (10, [Messages.IdBelow 25])
  /\ 0 <= 10 <= 100
  /\ (length [Messages.IdBelow 25] <= 2)%nat.
Proof.
  assert (Hrun : Messages.get_messages_query Messages.int_of_decimal (fun n => Z.quot n 2)
                   {[ "after" := ["25"]; "limit" := ["10"] ]}
                 = Errors.Returns (10, [Messages.IdBelow 25]))
    by (vm_compute; reflexivity).
  split; [exact Hrun|].
  destruct (proj1 (get_messages_query_conditions Messages.int_of_decimal
                     (fun n => Z.quot n 2) {[ "after" := ["25"]; "limit" := ["10"] ]})
              10 [Messages.IdBelow 25] Hrun) as (Hlimit & Hlen & _).
  split; [exact Hlimit | exact Hlen].
Defined.

(* ===================================================================== *)
(** * Further properties of discord/blueprints/guild/mod.py *)
(* ===================================================================== *)

Section RemoveMemberFacts.
Import Py Pubsub EventDispatcher Blueprints.
Context {WS World Lazy DB User : Type}.

Variable ws_dispatch : WS -> string -> Payload User -> World -> result unit * World.
Variable lazy_guild_dispatch :
  Z -> string -> Payload User -> gmap Z (list (GatewayState WS)) ->
  Lazy * Env World -> result unit * (Lazy * Env World).
Variable push_user_guild :
  Z -> Z -> string -> Payload User -> gmap Z (list (GatewayState WS)) ->
  Env World -> result (list string) * Env World.
Variable delete_member : Z -> Z -> DB -> result unit * DB.
Variable get_user : DB -> Z -> bool -> User.

Abbreviation remove_member :=
  (Blueprints.remove_member ws_dispatch lazy_guild_dispatch push_user_guild
                            delete_member get_user).
Abbreviation remove_member_multi :=
  (Blueprints.remove_member_multi ws_dispatch lazy_guild_dispatch push_user_guild
                                  delete_member get_user).

(** X13: [remove_member] does its steps in order and stops at the first
    that raises.  When the [DELETE] raises nothing is dispatched and no
    subscription changes.  When the [DELETE] returns and the
    [GUILD_DELETE] dispatch to the member raises, the exception leaves
    [remove_member] with the row deleted and the member still
    subscribed to the guild: the [unsub] is not reached. *)
Theorem remove_member_stops_at_the_first_failure
        (guild_id member_id : Z) (d d1 : DB) (app : App WS World Lazy) (e : exn) :
  (delete_member guild_id member_id d = (Raise e, d1) ->
   Blueprints.remove_member ws_dispatch lazy_guild_dispatch push_user_guild
                            delete_member get_user guild_id member_id (d, app)
   = (Raise e, (d1, app)))
  /\ (forall io2,
         delete_member guild_id member_id d = (Ok tt, d1) ->
         push_user_guild member_id guild_id "GUILD_DELETE" (GuildDelete guild_id false)
                         (state_manager app) (io app) = (Raise e, io2) ->
         Blueprints.remove_member ws_dispatch lazy_guild_dispatch push_user_guild
                                  delete_member get_user guild_id member_id (d, app)
         = (Raise e, (d1, with_io app io2))
         /\ members (table (with_io app io2) "guild") guild_id
            = members (table app "guild") guild_id).
Proof.
  split.
  - intros Hdb. unfold Blueprints.remove_member.
    unfold mbind at 1, M_bind at 1, bind at 1, on_db.
    cbn [fst snd]. rewrite Hdb. reflexivity.
  - intros io2 Hdb Hpush. split; [|reflexivity].
    unfold Blueprints.remove_member.
    unfold mbind at 1, M_bind at 1, bind at 1, on_db.
    cbn [fst snd]. rewrite Hdb.
    unfold mbind at 1, M_bind at 1, bind at 1, on_app.
    cbn [fst snd].
    unfold dispatch_user_guild, mbind, M_bind, bind, get, on_io.
    rewrite Hpush. reflexivity.
Qed.

Lemma remove_member_multi_app guild_id members1 members2 (s : DB * App WS World Lazy) :
  remove_member_multi guild_id (members1 ++ members2) s
  = match remove_member_multi guild_id members1 s with
    | (Ok _, s1) => remove_member_multi guild_id members2 s1
    | (Raise e, s1) => (Raise e, s1)
    end.
Proof.
  revert s. induction members1 as [|m rest IH]; intros s; [reflexivity|].
  cbn [Blueprints.remove_member_multi app].
  unfold mbind, M_bind, bind.
  destruct (remove_member guild_id m s) as [[[]|e] s']; [apply IH | reflexivity].
Qed.

(** X14: [remove_member_multi] removes the members one after the other
    and has no handler around a removal: when the removal of one member
    raises, the exception leaves the loop in the state that removal
    left, and the members listed after it are not removed.  Removing
    [members1 ++ members2] is removing [members1] and then, if that
    returned, [members2]. *)
Theorem remove_member_multi_stops_at_the_first_failure
        (guild_id : Z) (members1 members2 : list Z) (member_id : Z)
        (s s1 s2 : DB * App WS World Lazy) (e : exn) :
  Blueprints.remove_member_multi ws_dispatch lazy_guild_dispatch push_user_guild
    delete_member get_user guild_id members1 s = (Ok tt, s1) ->
  Blueprints.remove_member ws_dispatch lazy_guild_dispatch push_user_guild
    delete_member get_user guild_id member_id s1 = (Raise e, s2) ->
  Blueprints.remove_member_multi ws_dispatch lazy_guild_dispatch push_user_guild
    delete_member get_user guild_id (members1 ++ member_id :: members2) s
  = (Raise e, s2).
Proof.
  intros Hfirst Hfail. rewrite remove_member_multi_app, Hfirst.
  cbn [Blueprints.remove_member_multi]. unfold mbind, M_bind, bind.
  rewrite Hfail. reflexivity.
Qed.

Section AllReturn.
(** The database, the direct dispatch and the [lazy_guild] backend
    return. *)
Hypothesis delete_member_returns :
  forall guild_id member_id d, (delete_member guild_id member_id d).1 = Ok tt.
Hypothesis push_user_guild_returns :
  forall user_id guild_id event data registry env,
  exists ids, (push_user_guild user_id guild_id event data registry env).1 = Ok ids.
Hypothesis lazy_guild_dispatch_returns :
  forall key event data registry s,
    (lazy_guild_dispatch key event data registry s).1 = Ok tt.

Lemma remove_member_returns guild_id member_id (s : DB * App WS World Lazy) :
  exists s',
    remove_member guild_id member_id s = (Ok tt, s')
    /\ backends s'.2
       = <["guild" := <[guild_id := members (table s.2 "guild") guild_id ∖ {[member_id]}]>
                        (table s.2 "guild")]> (backends s.2)
    /\ state_manager s'.2 = state_manager s.2.
Proof.
  destruct s as [d app]. unfold Blueprints.remove_member.
  unfold mbind, M_bind, bind, on_db, on_app, get, ret. cbn [fst snd].
  pose proof (delete_member_returns guild_id member_id d) as Hdb.
  destruct (delete_member guild_id member_id d) as [r1 d1]. cbn in Hdb. subst r1.
  cbn [fst snd].
  unfold dispatch_user_guild, mbind, M_bind, bind, get, on_io.
  destruct (push_user_guild_returns member_id guild_id "GUILD_DELETE"
              (GuildDelete guild_id false) (state_manager app) (io app)) as (ids & Hpush).
  destruct (push_user_guild member_id guild_id "GUILD_DELETE" (GuildDelete guild_id false)
              (state_manager app) (io app)) as [r2 io2]. cbn in Hpush. subst r2.
  cbn [fst snd].
  unfold unsub, on_backend. rewrite unsub_run.
  cbn [fst snd state_manager io lazy_guild backends].
  unfold dispatch_guild, dispatch.
  change (String.eqb "lazy_guild" "lazy_guild") with true.
  change (String.eqb "guild" "lazy_guild") with false.
  cbn [fst snd state_manager io lazy_guild backends].
  pose proof (lazy_guild_dispatch_returns guild_id "remove_member" (Ident member_id)
                (state_manager app) (lazy_guild app, io2)) as Hlazy.
  destruct (lazy_guild_dispatch guild_id "remove_member" (Ident member_id)
              (state_manager app) (lazy_guild app, io2)) as [r4 [lz4 io4]].
  cbn in Hlazy. subst r4. cbn [fst snd].
  repeat match goal with
         | |- context [table ?a "guild"] =>
             progress change (table a "guild") with (table app "guild")
         end.
  destruct (dispatch_filter_spec ws_dispatch "guild" guild_id (fun _ => true)
              "GUILD_MEMBER_REMOVE" (GuildMemberRemove guild_id (get_user d1 member_id false))
              ({| backends := <["guild" := <[guild_id := members (table app "guild") guild_id
                                                         ∖ {[member_id]}]>
                                             (table app "guild")]> (backends app);
                  state_manager := state_manager app;
                  lazy_guild := lz4; io := io4 |} : App WS World Lazy))
    as (rids & env' & Hrun & _).
  rewrite Hrun. cbn [fst snd]. eexists. split; [reflexivity|].
  cbn. split; reflexivity.
Qed.

Lemma table_guild_after (app app' : App WS World Lazy) guild_id member_id :
  backends app'
  = <["guild" := <[guild_id := members (table app "guild") guild_id ∖ {[member_id]}]>
                   (table app "guild")]> (backends app) ->
  (forall key, members (table app' "guild") key
               = if decide (guild_id = key)
                 then members (table app "guild") key ∖ {[member_id]}
                 else members (table app "guild") key)
  /\ (forall namespace, namespace <> "guild" ->
                        table app' namespace = table app namespace).
Proof.
  intros Hb. split.
  - intros key. unfold table at 1. rewrite Hb, lookup_insert_eq. cbn.
    rewrite members_insert. destruct (decide (guild_id = key)) as [<-|]; reflexivity.
  - intros namespace Hne. unfold table. rewrite Hb, lookup_insert_ne by congruence.
    reflexivity.
Qed.

End AllReturn.

End RemoveMemberFacts.

Lemma remove_member_stops_at_the_first_failure_witness :
  Samples.delete_member_but_20 1 20 tt = (Py.Raise (Py.OtherError "PostgresError"), tt)
  /\ Blueprints.remove_member Demo.ws_dispatch Demo.lazy_guild_dispatch
       Demo.push_user_guild Samples.delete_member_but_20 Demo.get_user 1 20 (tt, Demo.app0)
     = (Py.Raise (Py.OtherError "PostgresError"), (tt, Demo.app0)).
Proof.
  assert (Hdb : Samples.delete_member_but_20 1 20 tt
                = (Py.Raise (Py.OtherError "PostgresError"), tt)) by reflexivity.
  split; [exact Hdb|].
  exact (proj1 (remove_member_stops_at_the_first_failure Demo.ws_dispatch
                  Demo.lazy_guild_dispatch Demo.push_user_guild
                  Samples.delete_member_but_20 Demo.get_user 1 20 tt tt Demo.app0
                  (Py.OtherError "PostgresError")) Hdb).
Defined.

Lemma remove_member_multi_stops_at_the_first_failure_witness :
  Blueprints.remove_member_multi Demo.ws_dispatch Demo.lazy_guild_dispatch
    Demo.push_user_guild Samples.delete_member_but_20 Demo.get_user 1 [] (tt, Demo.app0)
  = (Py.Ok tt, (tt, Demo.app0))
  /\ Blueprints.remove_member Demo.ws_dispatch Demo.lazy_guild_dispatch
       Demo.push_user_guild Samples.delete_member_but_20 Demo.get_user 1 20 (tt, Demo.app0)
     = (Py.Raise (Py.OtherError "PostgresError"), (tt, Demo.app0))
  /\ Blueprints.remove_member_multi Demo.ws_dispatch Demo.lazy_guild_dispatch
       Demo.push_user_guild Samples.delete_member_but_20 Demo.get_user 1 [20; 10]
       (tt, Demo.app0)
     = (Py.Raise (Py.OtherError "PostgresError"), (tt, Demo.app0)).
Proof.
  assert (Hfirst : Blueprints.remove_member_multi Demo.ws_dispatch Demo.lazy_guild_dispatch
                     Demo.push_user_guild Samples.delete_member_but_20 Demo.get_user 1 []
                     (tt, Demo.app0)
                   = (Py.Ok tt, (tt, Demo.app0))) by reflexivity.
  assert (Hfail : Blueprints.remove_member Demo.ws_dispatch Demo.lazy_guild_dispatch
                    Demo.push_user_guild Samples.delete_member_but_20 Demo.get_user 1 20
                    (tt, Demo.app0)
                  = (Py.Raise (Py.OtherError "PostgresError"), (tt, Demo.app0)))
    by reflexivity.
  split; [exact Hfirst|]. split; [exact Hfail|].
  exact (remove_member_multi_stops_at_the_first_failure Demo.ws_dispatch
           Demo.lazy_guild_dispatch Demo.push_user_guild Samples.delete_member_but_20
           Demo.get_user 1 [] [10] 20 (tt, Demo.app0) (tt, Demo.app0) (tt, Demo.app0)
           (Py.OtherError "PostgresError") Hfirst Hfail).
Defined.

Lemma demo_push_user_guild_returns user_id guild_id event data registry env :
  exists ids, (Demo.push_user_guild user_id guild_id event data registry env).1 = Py.Ok ids.
Proof.
  unfold Demo.push_user_guild, Pubsub._dispatch_states.
  rewrite for_states_spec. eexists. reflexivity.
Qed.


(* ===================================================================== *)
(** * Properties of discord/blueprints/guild/members.py *)
(* ===================================================================== *)

Section MemberRolesFacts.
Import Members.
Context {Role : Type} `{Countable Role}.

(** X16: the two batches [_update_member_roles] sends only name the
    member and the guild given; the [INSERT] batch lists, once each, the
    wanted roles the member does not have and the [DELETE] batch, once
    each, the roles the member has that are not wanted, so that no role
    is in both and nothing is sent when the member already has exactly
    the wanted roles; the roles the member had, with those inserted and
    without those deleted, are the wanted roles. *)
Theorem update_member_roles_reaches_the_wanted_roles
        (guild_id member_id : Z) (fetched wanted_roles : list Role) :
  let inserted := (Members._update_member_roles guild_id member_id fetched wanted_roles).1 in
  let deleted := (Members._update_member_roles guild_id member_id fetched wanted_roles).2 in
  NoDup inserted /\ NoDup deleted
  /\ (forall m g r, (m, g, r) ∈ inserted <->
                    m = member_id /\ g = guild_id /\ r ∈ wanted_roles /\ r ∉ fetched)
  /\ (forall m g r, (m, g, r) ∈ deleted <->
                    m = member_id /\ g = guild_id /\ r ∈ fetched /\ r ∉ wanted_roles)
  /\ (forall r, (r ∈ fetched \/ (member_id, guild_id, r) ∈ inserted)
                /\ (member_id, guild_id, r) ∉ deleted
                <-> r ∈ wanted_roles)
  /\ ((forall r, r ∈ fetched <-> r ∈ wanted_roles) -> inserted = [] /\ deleted = []).
Proof.
  cbn zeta. unfold Members._update_member_roles. cbn [fst snd].
  assert (Hins : forall m g r,
             (m, g, r) ∈ (fun role_id => (member_id, guild_id, role_id))
                           <$> elements ((list_to_set wanted_roles : gset Role)
                                         ∖ list_to_set fetched)
             <-> m = member_id /\ g = guild_id /\ r ∈ wanted_roles /\ r ∉ fetched).
  { intros m g r. rewrite list_elem_of_fmap. split.
    - intros (r' & [= -> -> ->] & Hin).
      rewrite elem_of_elements, elem_of_difference, !elem_of_list_to_set in Hin. tauto.
    - intros (-> & -> & Hw & Hf). exists r. split; [reflexivity|].
      rewrite elem_of_elements, elem_of_difference, !elem_of_list_to_set. tauto. }
  assert (Hdel : forall m g r,
             (m, g, r) ∈ (fun role_id => (member_id, guild_id, role_id))
                           <$> elements ((list_to_set fetched : gset Role)
                                         ∖ list_to_set wanted_roles)
             <-> m = member_id /\ g = guild_id /\ r ∈ fetched /\ r ∉ wanted_roles).
  { intros m g r. rewrite list_elem_of_fmap. split.
    - intros (r' & [= -> -> ->] & Hin).
      rewrite elem_of_elements, elem_of_difference, !elem_of_list_to_set in Hin. tauto.
    - intros (-> & -> & Hf & Hw). exists r. split; [reflexivity|].
      rewrite elem_of_elements, elem_of_difference, !elem_of_list_to_set. tauto. }
  split; [|split; [|split; [exact Hins | split; [exact Hdel | split]]]].
  - apply NoDup_fmap_2; [intros r1 r2 [= ->]; reflexivity | apply NoDup_elements].
  - apply NoDup_fmap_2; [intros r1 r2 [= ->]; reflexivity | apply NoDup_elements].
  - intros r. rewrite Hins, Hdel.
    destruct (decide (r ∈ fetched)), (decide (r ∈ wanted_roles)); tauto.
  - intros Hsame.
    assert (Hempty1 : (list_to_set wanted_roles : gset Role) ∖ list_to_set fetched = ∅).
    { apply set_eq. intros r.
      rewrite elem_of_difference, !elem_of_list_to_set, elem_of_empty, Hsame. tauto. }
    assert (Hempty2 : (list_to_set fetched : gset Role) ∖ list_to_set wanted_roles = ∅).
    { apply set_eq. intros r.
      rewrite elem_of_difference, !elem_of_list_to_set, elem_of_empty, Hsame. tauto. }
    rewrite Hempty1, Hempty2, elements_empty. split; reflexivity.
Qed.

End MemberRolesFacts.

Lemma update_member_roles_reaches_the_wanted_roles_witness :
  (forall r : Z, r ∈ [3; 5] <-> r ∈ [5; 3; 5])
  /\ (Members._update_member_roles 1 10 [3; 5] [5; 3; 5]).1 = []
  /\ (Members._update_member_roles 1 10 [3; 5] [5; 3; 5]).2 = [].
Proof.
  assert (Hsame : forall r : Z, r ∈ [3; 5] <-> r ∈ [5; 3; 5]).
  { intros r. rewrite !elem_of_cons, !elem_of_nil. tauto. }
  split; [exact Hsame|].
  exact (proj2 (proj2 (proj2 (proj2 (proj2
           (update_member_roles_reaches_the_wanted_roles 1 10 [3; 5] [5; 3; 5]))))) Hsame).
Defined.

(* ===================================================================== *)
(** * Properties of the channel overwrites *)
(* ===================================================================== *)

Section OverwriteFacts.
Import Errors Overwrites.
Variable str_of_int : Z -> string.

(** X17: an overwrite written by [_process_overwrites] is read back by
    [chan_overwrites]: the conversion of the stored row does not raise
    and returns the overwrite's [allow] and [deny], its id as text
    (never the text of [None]) and its type, where every type other
    than ['user'] has become ['role'].  The row written targets a user
    or a role, never both and never neither, and one row is written per
    overwrite, for the channel given. *)
Theorem overwrite_written_is_read_back (channel_id : Z) (overwrite : Overwrite)
        (overwrites : list Overwrite) :
  Overwrites._overwrite_convert str_of_int
    (stored_row (insert_args channel_id overwrite))
  = Returns {| c_allow := ow_allow overwrite;
               c_deny := ow_deny overwrite;
               c_type := if String.eqb (ow_type overwrite) "user" then "user" else "role";
               c_id := str_of_int (ow_id overwrite) |}
  /\ (arg_target_user (insert_args channel_id overwrite) = None
      <-> arg_target_role (insert_args channel_id overwrite) <> None)
  /\ (arg_target_type (insert_args channel_id overwrite) = 0
      <-> ow_type overwrite = "user")
  /\ length (Overwrites._process_overwrites channel_id overwrites) = length overwrites
  /\ Forall (fun args => arg_channel_id args = channel_id)
            (Overwrites._process_overwrites channel_id overwrites).
Proof.
  unfold Overwrites._overwrite_convert, stored_row, insert_args, Overwrites._process_overwrites.
  cbn [target_type target_role target_user allow deny arg_target_type arg_target_role
       arg_target_user arg_allow arg_deny arg_channel_id].
  destruct (String.eqb_spec (ow_type overwrite) "user") as [Heq|Hne]; cbn.
  - repeat split; try congruence; try discriminate.
    + apply length_map.
    + apply Forall_forall. intros args Hin.
      apply list_elem_of_In, in_map_iff in Hin as (o & <- & _). reflexivity.
  - repeat split; try congruence; try discriminate.
    + apply length_map.
    + apply Forall_forall. intros args Hin.
      apply list_elem_of_In, in_map_iff in Hin as (o & <- & _). reflexivity.
Qed.

End OverwriteFacts.

(* ===================================================================== *)
(** * Further properties of discord/blueprints/users.py *)
(* ===================================================================== *)

Section RandHexFacts.
Import Errors Users.
Context {Entropy : Type}.
Variable urandom : nat -> Entropy -> list ascii * Entropy.

Lemma string_length_append (s1 s2 : string) :
  String.length (String.append s1 s2) = (String.length s1 + String.length s2)%nat.
Proof.
  induction s1 as [|c s1 IH]; [reflexivity|].
  change (String.append (String c s1) s2) with (String c (String.append s1 s2)).
  cbn [String.length]. rewrite IH. reflexivity.
Qed.

Lemma bytes_hex_length bs : String.length (bytes_hex bs) = (2 * length bs)%nat.
Proof.
  induction bs as [|b rest IH]; [reflexivity|].
  cbn [bytes_hex]. rewrite two_digits_append. cbn [String.length length].
  rewrite IH. lia.
Qed.

Lemma bytes_hex_app bs1 bs2 :
  bytes_hex (bs1 ++ bs2) = String.append (bytes_hex bs1) (bytes_hex bs2).
Proof.
  induction bs1 as [|b rest IH]; [reflexivity|].
  cbn [bytes_hex app]. rewrite IH, !two_digits_append. reflexivity.
Qed.

Lemma substring_prefix_length n s :
  (n <= String.length s)%nat -> String.length (String.substring 0 n s) = n.
Proof.
  revert s. induction n as [|n IH]; intros s Hn.
  - destruct s; reflexivity.
  - destruct s as [|c s]; cbn in Hn; [lia|].
    cbn [String.substring String.length]. rewrite IH by lia. reflexivity.
Qed.

Lemma substring_prefix_append n s1 s2 :
  (n <= String.length s1)%nat ->
  String.substring 0 n (String.append s1 s2) = String.substring 0 n s1.
Proof.
  revert s1. induction n as [|n IH]; intros s1 Hn.
  - destruct s1, s2; reflexivity.
  - destruct s1 as [|c s1]; cbn in Hn; [lia|].
    change (String.append (String c s1) s2) with (String c (String.append s1 s2)).
    cbn [String.substring]. rewrite IH by lia. reflexivity.
Qed.

Lemma substring_prefix_chars n s c :
  In c (list_ascii_of_string (String.substring 0 n s)) ->
  In c (list_ascii_of_string s).
Proof.
  revert s. induction n as [|n IH]; intros s.
  - destruct s; cbn; tauto.
  - destruct s as [|a s]; cbn [String.substring list_ascii_of_string]; [tauto|].
    intros [->|Hin]; [left; reflexivity | right; apply IH, Hin].
Qed.

Lemma hex_digit_lower d : In (Types.hex_digit d) (list_ascii_of_string lower_hex).
Proof.
  unfold Types.hex_digit.
  repeat match goal with
         | |- context [match ?x with _ => _ end] => destruct x
         end; cbn; tauto.
Qed.

Lemma bytes_hex_chars bs c :
  In c (list_ascii_of_string (bytes_hex bs)) -> In c (list_ascii_of_string lower_hex).
Proof.
  induction bs as [|b rest IH]; [intros []|].
  cbn [bytes_hex]. rewrite two_digits_append. cbn [list_ascii_of_string].
  intros [<-|[<-|Hin]]; [apply hex_digit_lower | apply hex_digit_lower | apply IH, Hin].
Qed.

(** X18: given a random source that hands out as many bytes as it is
    asked for, [rand_hex(length)] for a [length] that is not negative
    returns a text of exactly [length] characters, each a lower-case
    hexadecimal digit; the text is read off the first half (rounded up)
    of the bytes drawn, the others are drawn and dropped.  A negative
    [length] raises [ValueError] and draws nothing. *)
Theorem rand_hex_returns_length_hex_digits (length_ : Z) (entropy : Entropy) :
  (forall n e, length (urandom n e).1 = n) ->
  (0 <= length_ ->
   exists text,
     (Users.rand_hex urandom length_ entropy).1 = Returns text
     /\ String.length text = Z.to_nat length_
     /\ (forall c, In c (list_ascii_of_string text) ->
                   In c (list_ascii_of_string lower_hex))
     /\ text = String.substring 0 (Z.to_nat length_)
                 (bytes_hex (take (Nat.div2 (S (Z.to_nat length_)))
                                  (urandom (Z.to_nat length_) entropy).1)))
  /\ (length_ < 0 ->
      Users.rand_hex urandom length_ entropy = (Raises ValueError, entropy)).
Proof.
  intros Hlen. unfold Users.rand_hex. split.
  - intros Hpos. destruct (Z.ltb_spec length_ 0) as [|_]; [lia|].
    pose proof (Hlen (Z.to_nat length_) entropy) as Hn.
    destruct (urandom (Z.to_nat length_) entropy) as [bs entropy']. cbn [fst] in *.
    set (n := Z.to_nat length_) in *.
    eexists. split; [reflexivity|]. split; [|split].
    + apply substring_prefix_length. rewrite bytes_hex_length. lia.
    + intros c Hin. eapply bytes_hex_chars, substring_prefix_chars, Hin.
    + rewrite <- (take_drop (Nat.div2 (S n)) bs) at 1.
      rewrite bytes_hex_app. apply substring_prefix_append.
      rewrite bytes_hex_length, length_take, Hn.
      pose proof (Nat.div2_odd (S n)) as Hodd.
      assert (Hle : (Nat.div2 (S n) <= n)%nat).
      { destruct n as [|n']; [reflexivity|].
        pose proof (Nat.lt_div2 (S (S n')) ltac:(lia)). lia. }
      destruct (Nat.odd (S n)); cbn [Nat.b2n] in Hodd; lia.
  - intros Hneg. destruct (Z.ltb_spec length_ 0) as [_|]; [reflexivity | lia].
Qed.

End RandHexFacts.

Example rand_hex_of_three_bytes :
  Users.rand_hex Samples.urandom 3 ["222"; "173"; "190"; "239"]%char
  = (Errors.Returns "dea", ["239"]%char).
Proof. vm_compute. reflexivity. Qed.

Lemma sample_urandom_length n entropy : length (Samples.urandom n entropy).1 = n.
Proof.
  unfold Samples.urandom. cbn [fst].
  rewrite length_take, length_app, repeat_length. lia.
Qed.

Lemma rand_hex_returns_length_hex_digits_witness :
  (forall n e, length (Samples.urandom n e).1 = n)
  /\ 0 <= 8
  /\ exists text,
      (Users.rand_hex Samples.urandom 8 (repeat "171"%char 8)).1 = Errors.Returns text
      /\ String.length text = Z.to_nat 8.
Proof.
  assert (Hpos : 0 <= 8) by lia.
  split; [exact sample_urandom_length|]. split; [exact Hpos|].
  destruct (proj1 (rand_hex_returns_length_hex_digits Samples.urandom 8
                     (repeat "171"%char 8) sample_urandom_length) Hpos)
    as (text & Hrun & Hlen & _).
  exists text. split; [exact Hrun | exact Hlen].
Defined.

Section RerollFacts.
Import Errors Users.
Context {Rng DB : Type}.
Variable randint : Rng -> Z * Rng.
Variable str_of_int : Z -> string.
Variable fetch_existing : string -> string -> DB -> outcome bool * DB.
Variable update_discriminator : string -> Z -> DB -> outcome unit * DB.

Abbreviation reroll_loop :=
  (Users.reroll_loop randint str_of_int fetch_existing update_discriminator).
Abbreviation draws := (Users.draws randint).
Abbreviation rng_after := (Users.rng_after randint).

(** With a preferred username the loop never gets to the [UPDATE]. *)
Lemma reroll_loop_preferred_no_update
      (update' : string -> Z -> DB -> outcome unit * DB) n user_id name s :
  name <> EmptyString ->
  reroll_loop n user_id (Some name) s
  = Users.reroll_loop randint str_of_int fetch_existing update' n user_id (Some name) s.
Proof.
  intros Hname. revert s. induction n as [|n IH]; intros s; [reflexivity|].
  cbn [Users.reroll_loop].
  destruct (randint s.1) as [number rng1].
  assert (Htruthy : truthy (Some name) = true).
  { cbn. apply negb_true_iff, String.eqb_neq, Hname. }
  rewrite Htruthy.
  destruct (fetch_existing (default "" (Some name)) (str_of_int number) s.2)
    as [[[]|e] db1]; cbn [negb]; [apply IH | reflexivity | reflexivity].
Qed.

Lemma reroll_loop_first_free n user_id name rng db :
  name <> EmptyString ->
  (forall d, exists b, fetch_existing name d db = (Returns b, db)) ->
  exists r k,
    reroll_loop n user_id (Some name) (rng, db) = (Returns r, (rng_after k rng, db))
    /\ (k <= n)%nat
    /\ (forall d, r = Some d ->
                  exists earlier number later,
                    draws n rng = earlier ++ number :: later
                    /\ S (length earlier) = k
                    /\ d = str_of_int number
                    /\ Forall (fun m => fetch_existing name (str_of_int m) db
                                        = (Returns true, db)) earlier
                    /\ fetch_existing name d db = (Returns false, db))
    /\ (r = None <->
        k = n /\ Forall (fun m => fetch_existing name (str_of_int m) db
                                  = (Returns true, db)) (draws n rng)).
Proof.
  intros Hname Hread. revert rng. induction n as [|n IH]; intros rng.
  - exists None, 0%nat. split; [reflexivity|]. split; [lia|]. split; [discriminate|].
    split; [|reflexivity]. intros _. split; [reflexivity | constructor].
  - cbn [Users.reroll_loop Users.draws fst snd].
    destruct (randint rng) as [number rng1] eqn:Hdraw.
    assert (Htruthy : truthy (Some name) = true).
    { cbn. apply negb_true_iff, String.eqb_neq, Hname. }
    rewrite Htruthy. cbn [default from_option id].
    destruct (Hread (str_of_int number)) as [b Hfetch]. rewrite Hfetch.
    destruct b; cbn [negb].
    + destruct (IH rng1) as (r & k & Hrun & Hk & Hsome & Hnone).
      exists r, (S k). cbn [Users.rng_after]. rewrite Hdraw. cbn [snd].
      split; [exact Hrun|]. split; [lia|]. split.
      * intros d Hd.
        destruct (Hsome d Hd) as (earlier & m & later & Hsplit & Hlen & Hm & Hall & Hfree).
        exists (number :: earlier), m, later. rewrite Hsplit. cbn [length].
        split; [reflexivity|]. split; [lia|]. split; [exact Hm|].
        split; [constructor; assumption | exact Hfree].
      * rewrite Hnone. split.
        -- intros [-> Hall]. split; [reflexivity | constructor; assumption].
        -- intros [Hk' Hall]. inversion Hall; subst. split; [lia | assumption].
    + exists (Some (str_of_int number)), 1%nat. cbn [Users.rng_after]. rewrite Hdraw.
      split; [reflexivity|]. split; [lia|]. split.
      * intros d [= <-]. exists [], number, (draws n rng1).
        split; [reflexivity|]. split; [reflexivity|]. split; [reflexivity|].
        split; [constructor | exact Hfetch].
      * split; [discriminate|]. intros [_ Hall]. inversion Hall as [|? ? Htaken _]; subst.
        rewrite Hfetch in Htaken. discriminate.
Qed.

Lemma reroll_loop_update n user_id preferred_username rng db :
  truthy preferred_username = false ->
  exists r k db',
    reroll_loop n user_id preferred_username (rng, db) = (r, (rng_after k rng, db'))
    /\ (k <= n)%nat
    /\ (forall d, r = Returns (Some d) ->
                  exists number db0,
                    number ∈ draws n rng /\ d = str_of_int number
                    /\ update_discriminator d user_id db0 = (Returns tt, db'))
    /\ (r = Returns None -> k = n)
    /\ (forall e, r = Raises e -> e <> UniqueViolationError).
Proof.
  intros Hfalsy. revert rng db. induction n as [|n IH]; intros rng db.
  - exists (Returns None), 0%nat, db. split; [reflexivity|]. split; [lia|].
    split; [discriminate|]. split; [reflexivity | discriminate].
  - cbn [Users.reroll_loop Users.draws fst snd].
    destruct (randint rng) as [number rng1] eqn:Hdraw.
    rewrite Hfalsy.
    destruct (update_discriminator (str_of_int number) user_id db) as [[[]|e] db1] eqn:Hup.
    + exists (Returns (Some (str_of_int number))), 1%nat, db1.
      cbn [Users.rng_after]. rewrite Hdraw. split; [reflexivity|]. split; [lia|].
      split; [|split; discriminate].
      intros d [= <-]. exists number, db. split; [left | auto].
    + assert (Hother : e <> UniqueViolationError ->
                exists r k db',
                  (Raises e : outcome (option string), (rng1, db1))
                  = (r, (rng_after k rng, db'))
                  /\ (k <= S n)%nat
                  /\ (forall d, r = Returns (Some d) ->
                                exists number0 db0,
                                  number0 ∈ number :: draws n rng1
                                  /\ d = str_of_int number0
                                  /\ update_discriminator d user_id db0 = (Returns tt, db'))
                  /\ (r = Returns None -> k = S n)
                  /\ (forall e', r = Raises e' -> e' <> UniqueViolationError)).
      { intros Hne. exists (Raises e), 1%nat, db1. cbn [Users.rng_after].
        rewrite Hdraw. split; [reflexivity|]. split; [lia|].
        split; [discriminate|]. split; [discriminate|]. intros e' [= <-]. exact Hne. }
      destruct e; try (apply Hother; discriminate).
      destruct (IH rng1 db1) as (r & k & db' & Hrun & Hk & Hsome & Hnone & Hexc).
      exists r, (S k), db'. cbn [Users.rng_after]. rewrite Hdraw. cbn [snd].
      split; [exact Hrun|]. split; [lia|]. split; [|split; [|exact Hexc]].
      * intros d Hd. destruct (Hsome d Hd) as (m & db0 & Hin & Hrest).
        exists m, db0. split; [right; exact Hin | exact Hrest].
      * intros Hr. rewrite (Hnone Hr). reflexivity.
Qed.

(** X19: [_try_reroll] draws at most ten numbers.  With a preferred
    username it never issues the [UPDATE]: its outcome is the same
    whatever the [UPDATE] would do.  When the [SELECT] for that name
    returns and leaves the database as it is, the call returns, with
    the database unchanged, the text of the first number drawn that no
    user of that name has as discriminator, every number drawn before it
    being in use and none being drawn after it, and [None] exactly when
    all ten numbers drawn are in use; an exception of the first [SELECT]
    leaves the call after one draw.  Without a preferred username it
    returns the text of a number drawn whose [UPDATE] returned, [None]
    only after ten draws, and a [UniqueViolationError] never leaves
    it. *)
Theorem try_reroll_draws_at_most_ten (user_id : Z) (rng : Rng) (db : DB) :
  (forall name,
      name <> EmptyString ->
      (forall update',
          Users._try_reroll randint str_of_int fetch_existing update_discriminator
            user_id (Some name) (rng, db)
          = Users._try_reroll randint str_of_int fetch_existing update'
              user_id (Some name) (rng, db))
      /\ (forall e db1,
             fetch_existing name (str_of_int (randint rng).1) db = (Raises e, db1) ->
             Users._try_reroll randint str_of_int fetch_existing update_discriminator
               user_id (Some name) (rng, db)
             = (Raises e, ((randint rng).2, db1)))
      /\ ((forall d, exists b, fetch_existing name d db = (Returns b, db)) ->
          exists r k,
            Users._try_reroll randint str_of_int fetch_existing update_discriminator
              user_id (Some name) (rng, db)
            = (Returns r, (rng_after k rng, db))
            /\ (k <= 10)%nat
            /\ (forall d, r = Some d ->
                          exists earlier number later,
                            draws 10 rng = earlier ++ number :: later
                            /\ S (length earlier) = k
                            /\ d = str_of_int number
                            /\ Forall (fun m => fetch_existing name (str_of_int m) db
                                                = (Returns true, db)) earlier
                            /\ fetch_existing name d db = (Returns false, db))
            /\ (r = None <->
                k = 10%nat
                /\ Forall (fun m => fetch_existing name (str_of_int m) db
                                    = (Returns true, db)) (draws 10 rng))))
  /\ (forall preferred_username,
         truthy preferred_username = false ->
         exists r k db',
           Users._try_reroll randint str_of_int fetch_existing update_discriminator
             user_id preferred_username (rng, db)
           = (r, (rng_after k rng, db'))
           /\ (k <= 10)%nat
           /\ (forall d, r = Returns (Some d) ->
                         exists number db0,
                           number ∈ draws 10 rng /\ d = str_of_int number
                           /\ update_discriminator d user_id db0 = (Returns tt, db'))
           /\ (r = Returns None -> k = 10%nat)
           /\ (forall e, r = Raises e -> e <> UniqueViolationError)).
Proof.
  split.
  - intros name Hname. split; [|split].
    + intros update'. apply reroll_loop_preferred_no_update, Hname.
    + intros e db1 Hfetch. unfold Users._try_reroll.
      cbn [Users.reroll_loop fst snd].
      destruct (randint rng) as [number rng1]. cbn [fst snd] in *.
      assert (Htruthy : truthy (Some name) = true).
      { cbn. apply negb_true_iff, String.eqb_neq, Hname. }
      rewrite Htruthy. cbn [default from_option id]. rewrite Hfetch. reflexivity.
    + intros Hread. apply reroll_loop_first_free; assumption.
  - intros preferred_username Hfalsy. apply reroll_loop_update, Hfalsy.
Qed.

End RerollFacts.

(* ===================================================================== *)
(** * Properties of discord/storage.py *)
(* ===================================================================== *)

Section ReactionsFacts.
Import Errors Storage.
Context {Row Key Partial : Type} `{Countable Key}.
Variable row_user_id : Row -> Z.
Variable main_emoji : Row -> Key.
Variable partial_emoji : Row -> Partial.

Abbreviation first_pass := (Storage.first_pass main_emoji partial_emoji).
Abbreviation second_pass := (Storage.second_pass row_user_id main_emoji).
Abbreviation reactions_with := (Storage.reactions_with main_emoji).
Abbreviation tally := (Storage.tally row_user_id main_emoji partial_emoji).
Abbreviation by_user user_id :=
  (fun row : Row => Some (row_user_id row) = (user_id : option Z)).

Lemma elem_of_first_seen (k : Key) keys : k ∈ first_seen keys <-> k ∈ keys.
Proof.
  induction keys as [|key rest IH]; cbn [first_seen]; [reflexivity|].
  rewrite !elem_of_cons, list_elem_of_filter, IH.
  destruct (decide (k = key)); tauto.
Qed.

Lemma NoDup_first_seen (keys : list Key) : NoDup (first_seen keys).
Proof.
  induction keys as [|key rest IH]; cbn [first_seen]; constructor.
  - rewrite list_elem_of_filter. tauto.
  - apply NoDup_filter, IH.
Qed.

Lemma reactions_with_cons_eq row rest :
  reactions_with (main_emoji row) (row :: rest)
  = row :: reactions_with (main_emoji row) rest.
Proof. unfold Storage.reactions_with. apply filter_cons_True. reflexivity. Qed.

Lemma reactions_with_cons_ne k row rest :
  main_emoji row <> k -> reactions_with k (row :: rest) = reactions_with k rest.
Proof. intros Hne. unfold Storage.reactions_with. apply filter_cons_False. exact Hne. Qed.

Lemma first_pass_spec rows emoji_ (rs : gmap Key (Stats Partial)) :
  (first_pass rows emoji_ rs).1
  = emoji_ ++ filter (fun k => k ∉ emoji_) (first_seen (map main_emoji rows))
  /\ forall k,
      (first_pass rows emoji_ rs).2 !! k
      = if decide (k ∈ emoji_) then rs !! k
        else match reactions_with k rows with
             | [] => rs !! k
             | first :: _ =>
                 Some {| count := 0; me := false; emoji := partial_emoji first |}
             end.
Proof.
  revert emoji_ rs. induction rows as [|row rest IH]; intros emoji_ rs.
  - cbn. rewrite app_nil_r. split; [reflexivity|].
    intros k. destruct (decide (k ∈ emoji_)); reflexivity.
  - cbn [Storage.first_pass map first_seen].
    destruct (bool_decide_reflect (main_emoji row ∈ emoji_)) as [Hin|Hnot].
    + destruct (IH emoji_ rs) as [IH1 IH2]. split.
      * rewrite IH1. f_equal.
        rewrite filter_cons_False by tauto.
        symmetry. apply list_filter_filter_l. intros x Hx ->. contradiction.
      * intros k. rewrite IH2. destruct (decide (k ∈ emoji_)) as [|Hk]; [reflexivity|].
        rewrite reactions_with_cons_ne by (intros <-; contradiction). reflexivity.
    + destruct (IH (emoji_ ++ [main_emoji row])
                   (<[main_emoji row := {| count := 0; me := false;
                                           emoji := partial_emoji row |}]> rs))
        as [IH1 IH2].
      split.
      * rewrite IH1, <- app_assoc. f_equal. cbn [app].
        rewrite filter_cons_True by exact Hnot. f_equal.
        rewrite list_filter_filter. apply list_filter_iff. intros x.
        rewrite elem_of_app, list_elem_of_singleton. tauto.
      * intros k. rewrite IH2.
        destruct (decide (k = main_emoji row)) as [->|Hne].
        -- rewrite decide_True by (apply elem_of_app; right; apply list_elem_of_singleton;
                                   reflexivity).
           rewrite lookup_insert_eq, decide_False by exact Hnot.
           rewrite reactions_with_cons_eq. reflexivity.
        -- rewrite reactions_with_cons_ne by congruence.
           destruct (decide (k ∈ emoji_)) as [Hk|Hk].
           ++ rewrite decide_True by (apply elem_of_app; left; exact Hk).
              apply lookup_insert_ne. congruence.
           ++ rewrite decide_False
                by (rewrite elem_of_app, list_elem_of_singleton; tauto).
              destruct (reactions_with k rest); [|reflexivity].
              apply lookup_insert_ne. congruence.
Qed.

Lemma second_pass_spec rows user_id (rs : gmap Key (Stats Partial)) :
  (forall row, row ∈ rows -> is_Some (rs !! main_emoji row)) ->
  exists rs',
    second_pass rows user_id rs = Returns rs'
    /\ forall k,
        rs' !! k
        = (fun stats =>
             {| count := count stats + Z.of_nat (length (reactions_with k rows));
                me := me stats
                      || bool_decide (Exists (by_user user_id) (reactions_with k rows));
                emoji := emoji stats |}) <$> rs !! k.
Proof.
  revert rs. induction rows as [|row rest IH]; intros rs Hdom.
  - exists rs. split; [reflexivity|]. intros k. cbn.
    destruct (rs !! k) as [[c m e]|]; cbn; [|reflexivity].
    rewrite Z.add_0_r, orb_false_r. reflexivity.
  - cbn [Storage.second_pass].
    destruct (Hdom row ltac:(left)) as [stats Hstats]. rewrite Hstats.
    match goal with
    | |- context [Storage.second_pass _ _ rest user_id (<[_ := ?s]> rs)] =>
        destruct (IH (<[main_emoji row := s]> rs)) as (rs' & Hrun & Hrs')
    end.
    { intros row' Hin. destruct (decide (main_emoji row = main_emoji row')) as [<-|Hne].
      - rewrite lookup_insert_eq. eauto.
      - rewrite lookup_insert_ne by exact Hne. apply Hdom. right. exact Hin. }
    exists rs'. split; [exact Hrun|]. intros k. rewrite Hrs'.
    destruct (decide (k = main_emoji row)) as [->|Hne].
    + rewrite lookup_insert_eq, Hstats, reactions_with_cons_eq. cbn [fmap option_fmap option_map].
      f_equal. destruct stats as [c m e].
      destruct (bool_decide_reflect (Some (row_user_id row) = user_id)) as [Hby|Hby];
        cbn [count me emoji length]; f_equal; try lia.
      * rewrite (bool_decide_eq_true_2 (Exists _ (row :: _)))
          by (apply Exists_cons; left; exact Hby).
        rewrite orb_true_r. reflexivity.
      * f_equal. apply bool_decide_ext. rewrite Exists_cons. tauto.
    + rewrite lookup_insert_ne by congruence.
      rewrite reactions_with_cons_ne by congruence. reflexivity.
Qed.

Lemma filter_all {A} (P : A -> Prop) `{!forall x, Decision (P x)} (l : list A) :
  (forall x, x ∈ l -> P x) -> filter P l = l.
Proof.
  induction l as [|x l IH]; intros Hall; [reflexivity|].
  rewrite filter_cons_True by (apply Hall; left).
  f_equal. apply IH. intros y Hy. apply Hall. right. exact Hy.
Qed.

Lemma filter_not_in_nil (keys : list Key) : filter (fun k => k ∉ []) keys = keys.
Proof.
  induction keys as [|key rest IH]; [reflexivity|].
  rewrite filter_cons_True by apply not_elem_of_nil. f_equal. exact IH.
Qed.

Lemma get_reactions_run rows user_id :
  Storage.get_reactions row_user_id main_emoji partial_emoji rows user_id
  = Returns (map (tally rows user_id) (first_seen (map main_emoji rows))).
Proof.
  unfold Storage.get_reactions.
  destruct (first_pass_spec rows [] ∅) as [Hkeys Hstats].
  destruct (first_pass rows [] ∅) as [emoji_ rs]. cbn [fst snd] in *.
  rewrite filter_not_in_nil in Hkeys. cbn [app] in Hkeys. subst emoji_.
  assert (Hrs : forall k, rs !! k
                          = match reactions_with k rows with
                            | [] => None
                            | first :: _ =>
                                Some {| count := 0; me := false;
                                        emoji := partial_emoji first |}
                            end).
  { intros k. rewrite Hstats, decide_False by apply not_elem_of_nil.
    destruct (reactions_with k rows); [apply lookup_empty | reflexivity]. }
  destruct (second_pass_spec rows user_id rs) as (rs' & Hrun & Hrs').
  { intros row Hin. rewrite Hrs.
    assert (Hmem : row ∈ reactions_with (main_emoji row) rows)
      by (apply list_elem_of_filter; auto).
    destruct (reactions_with (main_emoji row) rows); [|eauto].
    apply elem_of_nil in Hmem. contradiction. }
  rewrite Hrun. cbn. f_equal. apply map_ext. intros k.
  rewrite Hrs', Hrs. unfold Storage.tally.
  destruct (reactions_with k rows) as [|first others]; [reflexivity|].
  cbn [fmap option_fmap option_map count me emoji orb]. rewrite Z.add_0_l. reflexivity.
Qed.

Lemma count_of_tally rows user_id k :
  from_option count 0 (tally rows user_id k) = Z.of_nat (length (reactions_with k rows)).
Proof.
  unfold Storage.tally. destruct (reactions_with k rows); reflexivity.
Qed.

(** Over keys without repetition the counts add up to the number of
    rows whose key is among them. *)
Lemma total_count_tally rows user_id (keys : list Key) :
  NoDup keys ->
  total_count (map (tally rows user_id) keys)
  = Z.of_nat (length (filter (fun row => main_emoji row ∈ keys) rows)).
Proof.
  induction 1 as [|key rest Hnotin Hnd IH].
  - cbn. induction rows as [|row rows' IHr]; [reflexivity|].
    rewrite filter_cons_False by apply not_elem_of_nil. exact IHr.
  - cbn [map total_count foldr]. fold (total_count (map (tally rows user_id) rest)).
    rewrite IH, count_of_tally. unfold Storage.reactions_with.
    clear IH. induction rows as [|row rows' IHr]; [reflexivity|].
    rewrite !filter_cons.
    destruct (decide (main_emoji row = key)) as [Heq|Hne].
    + rewrite decide_False by (rewrite Heq; exact Hnotin).
      rewrite decide_True by (apply elem_of_cons; left; exact Heq).
      cbn [length]. lia.
    + destruct (decide (main_emoji row ∈ rest)) as [Hin|Hout].
      * rewrite decide_True by (apply elem_of_cons; right; exact Hin).
        cbn [length]. lia.
      * rewrite decide_False
          by (intros Hc; apply elem_of_cons in Hc as [Hc|Hc]; contradiction).
        exact IHr.
Qed.

(** X20: [get_reactions] never raises on the rows of a message and
    returns one entry per emoji reacted with, in the order in which the
    emoji were first used and without a missing entry.  The entry of an
    emoji counts the reactions with it (at least one), tells whether one
    of them is by the user asking, with no user every [me] being false,
    and carries the emoji as the first reaction with it gave it; the
    counts add up to the number of rows. *)
Theorem get_reactions_tallies_each_emoji (rows : list Row) (user_id : option Z) :
  Storage.get_reactions row_user_id main_emoji partial_emoji rows user_id
  = Returns (map (tally rows user_id) (first_seen (map main_emoji rows)))
  /\ NoDup (first_seen (map main_emoji rows))
  /\ (forall k, k ∈ first_seen (map main_emoji rows)
                <-> exists row, row ∈ rows /\ main_emoji row = k)
  /\ (forall k, k ∈ first_seen (map main_emoji rows) ->
                exists stats,
                  tally rows user_id k = Some stats
                  /\ count stats = Z.of_nat (length (reactions_with k rows))
                  /\ 1 <= count stats
                  /\ (me stats = true <->
                      exists row, row ∈ rows /\ main_emoji row = k
                                  /\ Some (row_user_id row) = user_id))
  /\ total_count (map (tally rows user_id) (first_seen (map main_emoji rows)))
     = Z.of_nat (length rows).
Proof.
  assert (Hkeys : forall k, k ∈ first_seen (map main_emoji rows)
                            <-> exists row, row ∈ rows /\ main_emoji row = k).
  { intros k. rewrite elem_of_first_seen, list_elem_of_In, in_map_iff.
    split; intros (row & H1 & H2); exists row; rewrite ?list_elem_of_In in *; auto. }
  split; [apply get_reactions_run|]. split; [apply NoDup_first_seen|].
  split; [exact Hkeys|]. split.
  - intros k Hk. apply Hkeys in Hk as (row & Hin & Hkey).
    assert (Hmem : row ∈ reactions_with k rows) by (apply list_elem_of_filter; auto).
    unfold Storage.tally.
    destruct (reactions_with k rows) as [|first others] eqn:Hrw;
      [apply elem_of_nil in Hmem; contradiction|].
    eexists. split; [reflexivity|]. cbn [count me]. split; [reflexivity|].
    split; [cbn [length]; lia|].
    rewrite bool_decide_eq_true, <- Hrw, Exists_exists. unfold Storage.reactions_with.
    split.
    + intros (r & Hr & Hby). apply list_elem_of_filter in Hr as [Hrk Hr]. eauto.
    + intros (r & Hr & Hrk & Hby). exists r. split; [|exact Hby].
      apply list_elem_of_filter. auto.
  - rewrite total_count_tally by apply NoDup_first_seen. f_equal. f_equal.
    apply filter_all. intros row Hin. apply Hkeys. eauto.
Qed.

End ReactionsFacts.

(* ===================================================================== *)
(** * Properties of discord/embed/sanitizer.py *)
(* ===================================================================== *)

Section SanitizerFacts.
Import Errors Sanitizer.

Lemma dict_get_set_eq key value fields :
  dict_get key (dict_set key value fields) = Some value.
Proof.
  induction fields as [|[k v] rest IH]; cbn.
  - rewrite String.eqb_refl. reflexivity.
  - destruct (String.eqb k key) eqn:Hk; cbn; rewrite Hk; [reflexivity | exact IH].
Qed.

Lemma dict_get_set_ne key key' value fields :
  key <> key' -> dict_get key' (dict_set key value fields) = dict_get key' fields.
Proof.
  intros Hne. induction fields as [|[k v] rest IH]; cbn.
  - apply String.eqb_neq in Hne. rewrite Hne. reflexivity.
  - destruct (String.eqb_spec k key) as [->|Hk]; cbn.
    + apply String.eqb_neq in Hne. rewrite Hne. reflexivity.
    + rewrite IH. reflexivity.
Qed.

Lemma dict_set_set key value value' fields :
  dict_set key value' (dict_set key value fields) = dict_set key value' fields.
Proof.
  induction fields as [|[k v] rest IH]; cbn.
  - rewrite String.eqb_refl. reflexivity.
  - destruct (String.eqb k key) eqn:Hk; cbn; rewrite Hk; [reflexivity|].
    f_equal. exact IH.
Qed.

Lemma dict_set_keys key value fields :
  map fst (dict_set key value fields)
  = match dict_get key fields with
    | Some _ => map fst fields
    | None => map fst fields ++ [key]
    end.
Proof.
  induction fields as [|[k v] rest IH]; cbn; [reflexivity|].
  destruct (String.eqb k key); cbn; [reflexivity|].
  rewrite IH. destruct (dict_get key rest); reflexivity.
Qed.

(** X21: [sanitize_embed] returns a dict in which ['type'] is ['rich']
    and every other key has the value it has in the embed given; the
    keys keep their order, ['type'] going last when the embed had none;
    and sanitizing twice is sanitizing once. *)
Theorem sanitize_embed_sets_only_the_type (embed : list (string * Json)) :
  dict_get "type" (Sanitizer.sanitize_embed embed) = Some (JStr "rich")
  /\ (forall key, key <> "type" ->
                  dict_get key (Sanitizer.sanitize_embed embed) = dict_get key embed)
  /\ map fst (Sanitizer.sanitize_embed embed)
     = match dict_get "type" embed with
       | Some _ => map fst embed
       | None => map fst embed ++ ["type"]
       end
  /\ Sanitizer.sanitize_embed (Sanitizer.sanitize_embed embed)
     = Sanitizer.sanitize_embed embed.
Proof.
  unfold Sanitizer.sanitize_embed, dict_merge. cbn [fold_left fst snd].
  split; [apply dict_get_set_eq|]. split; [|split].
  - intros key Hne. apply dict_get_set_ne. congruence.
  - apply dict_set_keys.
  - apply dict_set_set.
Qed.

Lemma path_exists_list_dicts embed components :
  dicts_along embed components ->
  path_exists_list embed components
  = Returns (bool_decide (is_Some (follow embed components))).
Proof.
  revert embed. induction components as [|current rest IH]; intros embed Hd.
  - cbn [path_exists_list follow]. rewrite bool_decide_eq_true_2 by eauto. reflexivity.
  - destruct embed; cbn in Hd; try contradiction.
    cbn [path_exists_list follow].
    destruct (dict_get current fields) as [value|]; cbn [mbind option_bind].
    + apply IH, Hd.
    + rewrite bool_decide_eq_false_2 by (intros [? ?]; discriminate). reflexivity.
Qed.

Lemma path_exists_list_prefix embed components more :
  path_exists_list embed (components ++ more) = Returns true ->
  path_exists_list embed components = Returns true.
Proof.
  revert embed. induction components as [|current rest IH]; intros embed; [reflexivity|].
  cbn. destruct embed; try discriminate.
  - destruct (is_substring current s); discriminate.
  - destruct (existsb (str_eq current) items); discriminate.
  - destruct (dict_get current fields); [apply IH | discriminate].
Qed.

(** X22: along a path that leads through dicts, [path_exists] returns
    whether every key of the path is there, and never raises.  A path
    that exists has all its prefixes existing.  After [sanitize_embed]
    the path ['type'] exists, and a path that starts with another key
    exists or not as it did before. *)
Theorem path_exists_follows_the_dicts (embed : Json) (components more : list string)
        (fields : list (string * Json)) :
  (dicts_along embed components ->
   Sanitizer.path_exists_list embed components
   = Returns (bool_decide (is_Some (follow embed components))))
  /\ (Sanitizer.path_exists_list embed (components ++ more) = Returns true ->
      Sanitizer.path_exists_list embed components = Returns true)
  /\ Sanitizer.path_exists (JDict (sanitize_embed fields)) "type" = Returns true
  /\ (forall first rest,
         first <> "type" ->
         Sanitizer.path_exists_list (JDict (sanitize_embed fields)) (first :: rest)
         = Sanitizer.path_exists_list (JDict fields) (first :: rest)).
Proof.
  split; [apply path_exists_list_dicts|]. split; [apply path_exists_list_prefix|].
  split.
  - unfold Sanitizer.path_exists.
    change (Gateway.split_fields (Ascii.eqb ".") "type") with ["type"].
    cbn [path_exists_list]. unfold sanitize_embed, dict_merge. cbn [fold_left fst snd].
    rewrite dict_get_set_eq. reflexivity.
  - intros first rest Hne. cbn [path_exists_list].
    unfold sanitize_embed, dict_merge. cbn [fold_left fst snd].
    rewrite dict_get_set_ne by congruence. reflexivity.
Qed.

End SanitizerFacts.

Example path_exists_in_a_footer :
  Sanitizer.path_exists
    (Sanitizer.JDict [("footer", Sanitizer.JDict [("icon_url", Sanitizer.JStr "http://a/b")])])
    "footer.icon_url"
  = Errors.Returns true.
Proof. vm_compute. reflexivity. Qed.

Example path_exists_through_a_text :
  Sanitizer.path_exists
    (Sanitizer.JDict [("footer", Sanitizer.JStr "see icon_url")]) "footer.icon_url"
  = Errors.Raises Errors.TypeError.
Proof. vm_compute. reflexivity. Qed.

Lemma path_exists_follows_the_dicts_witness :
  Sanitizer.dicts_along
    (Sanitizer.JDict [("image", Sanitizer.JDict [("url", Sanitizer.JStr "http://a/b")])])
    ["image"; "url"]
  /\ Sanitizer.path_exists_list
       (Sanitizer.JDict [("image", Sanitizer.JDict [("url", Sanitizer.JStr "http://a/b")])])
       ["image"; "url"]
     = Errors.Returns
         (bool_decide
            (is_Some
               (Sanitizer.follow
                  (Sanitizer.JDict
                     [("image", Sanitizer.JDict [("url", Sanitizer.JStr "http://a/b")])])
                  ["image"; "url"]))).
Proof.
  assert (Hd : Sanitizer.dicts_along
                 (Sanitizer.JDict
                    [("image", Sanitizer.JDict [("url", Sanitizer.JStr "http://a/b")])])
                 ["image"; "url"]) by (vm_compute; exact I).
  split; [exact Hd|].
  exact (proj1 (path_exists_follows_the_dicts
                  (Sanitizer.JDict
                     [("image", Sanitizer.JDict [("url", Sanitizer.JStr "http://a/b")])])
                  ["image"; "url"] [] []) Hd).
Defined.

Lemma sanitize_embed_sets_only_the_type_witness :
  "title" <> "type"
  /\ Sanitizer.dict_get "title"
       (Sanitizer.sanitize_embed
          [("type", Sanitizer.JStr "video"); ("title", Sanitizer.JStr "t")])
     = Sanitizer.dict_get "title"
         [("type", Sanitizer.JStr "video"); ("title", Sanitizer.JStr "t")].
Proof.
  assert (Hne : "title" <> "type") by discriminate.
  split; [exact Hne|].
  exact (proj1 (proj2 (sanitize_embed_sets_only_the_type
                         [("type", Sanitizer.JStr "video"); ("title", Sanitizer.JStr "t")]))
           "title" Hne).
Defined.

Example try_reroll_skips_a_taken_number :
  Users._try_reroll Samples.randint Samples.str_of_int Samples.fetch_existing
    Samples.update_discriminator 1 (Some "bob") ([7; 42; 1000], [("bob", "7")])
  = (Errors.Returns (Some "42"), ([1000], [("bob", "7")])).
Proof. vm_compute. reflexivity. Qed.

Example try_reroll_gives_up :
  (Users._try_reroll Samples.randint Samples.str_of_int Samples.fetch_existing
     Samples.update_discriminator 1 (Some "bob") ([], [("bob", "1")])).1
  = Errors.Returns None.
Proof. vm_compute. reflexivity. Qed.

Example try_reroll_with_the_database_down :
  Users._try_reroll Samples.randint Samples.str_of_int Samples.fetch_existing_down
    Samples.update_discriminator 1 (Some "bob") ([7; 42], [("bob", "7")])
  = (Errors.Raises Errors.KeyError, ([42], [("bob", "7")])).
Proof. vm_compute. reflexivity. Qed.

Example try_reroll_without_a_name_gives_up :
  Users._try_reroll Samples.randint Samples.str_of_int Samples.fetch_existing
    Samples.update_discriminator_taken 1 None ([7; 42], [])
  = (Errors.Returns None, ([], [])).
Proof. vm_compute. reflexivity. Qed.

Lemma sample_fetch_existing_reads name d db :
  exists b, Samples.fetch_existing name d db = (Errors.Returns b, db).
Proof. eexists. reflexivity. Qed.

Lemma try_reroll_draws_at_most_ten_witness :
  "bob" <> EmptyString
  /\ (forall d, exists b,
         Samples.fetch_existing "bob" d [("bob", "7")] = (Errors.Returns b, [("bob", "7")]))
  /\ exists r k,
      Users._try_reroll Samples.randint Samples.str_of_int Samples.fetch_existing
        Samples.update_discriminator 1 (Some "bob") ([7; 42; 1000], [("bob", "7")])
      = (Errors.Returns r,
         (Users.rng_after Samples.randint k [7; 42; 1000], [("bob", "7")]))
      /\ (k <= 10)%nat.
Proof.
  assert (Hname : "bob" <> EmptyString) by discriminate.
  assert (Hread : forall d, exists b,
             Samples.fetch_existing "bob" d [("bob", "7")]
             = (Errors.Returns b, [("bob", "7")]))
    by (intros d; apply sample_fetch_existing_reads).
  split; [exact Hname|]. split; [exact Hread|].
  destruct (proj2 (proj2 (proj1 (try_reroll_draws_at_most_ten Samples.randint
                                   Samples.str_of_int Samples.fetch_existing
                                   Samples.update_discriminator 1
                                   [7; 42; 1000] [("bob", "7")]) "bob" Hname)) Hread)
    as (r & k & Hrun & Hk & _).
  exists r, k. split; [exact Hrun | exact Hk].
Defined.

(** Four reactions with two emoji, asked for by user 2. *)
Example get_reactions_of_four_rows :
  Storage.get_reactions (fun row : Z * string => row.1) (fun row => row.2)
    (fun row => row.2) [(1, "a"); (2, "b"); (1, "b"); (3, "a")] (Some 2)
  = Errors.Returns [Some (Storage.mkStats 2 false "a"); Some (Storage.mkStats 2 true "b")].
Proof. vm_compute. reflexivity. Qed.

Section MassUserUpdateFacts.
Import Py Pubsub EventDispatcher Blueprints.
Context {WS World Lazy DB User : Type}.

Variable ws_dispatch : WS -> string -> Payload User -> World -> result unit * World.
Variable lazy_guild_dispatch :
  Z -> string -> Payload User -> gmap Z (list (GatewayState WS)) ->
  Lazy * Env World -> result unit * (Lazy * Env World).
Variable get_user : DB -> Z -> bool -> User.
Variable get_user_guilds : DB -> Z -> list Z.
Variable get_friend_ids : DB -> Z -> list Z.

Lemma dispatch_many_lazy_guild keys event data (app : App WS World Lazy) :
  (forall key event data registry s,
      (lazy_guild_dispatch key event data registry s).1 = Ok tt) ->
  exists app',
    dispatch_many ws_dispatch lazy_guild_dispatch "lazy_guild" keys event data app
    = (Ok tt, app')
    /\ backends app' = backends app
    /\ state_manager app' = state_manager app.
Proof.
  intros Hlazy. revert app. induction keys as [|key rest IH]; intros app.
  - exists app. repeat split.
  - cbn [dispatch_many]. unfold mbind at 1, M_bind at 1, bind at 1, dispatch.
    change (String.eqb "lazy_guild" "lazy_guild") with true. cbv beta iota.
    pose proof (Hlazy key event data (state_manager app) (lazy_guild app, io app)) as Hone.
    destruct (lazy_guild_dispatch key event data (state_manager app)
                (lazy_guild app, io app)) as [r s]. cbn in Hone. subst r.
    match goal with
    | |- context [dispatch_many _ _ _ rest event data ?a] =>
        destruct (IH a) as (app' & Hrun & Hb & Hsm)
    end.
    exists app'. split; [exact Hrun|]. split; [rewrite Hb | rewrite Hsm]; reflexivity.
Qed.


End MassUserUpdateFacts.

